(** * A shallow embedding of the step sequencer of [src/routes/+page.svelte]

    The page keeps its whole session in module-level variables and mutates
    them from event handlers.  The embedding threads one [State] record
    through every handler, keeps the names of the source, and models
    JavaScript's values the way the handlers use them:

    - integers that index arrays or count steps are [Z];
    - the numbers bound to number inputs (tempo, meter) are [JsNum]: a
      finite double, read as the rational it denotes, or a value that
      [Number.isFinite] rejects;
    - a [boolean[]] is a [BoolArray]: the array's indexed properties and
      its [length], so that a write outside [0, length) does what
      JavaScript does;
    - [Set<string>] and [Map<string, _>] are insertion-ordered lists
      without repeated keys, as ECMAScript specifies them. *)

From Stdlib Require Import ZArith QArith Qminmax Lia Lqa.
From stdpp Require Import base gmap list strings.

Local Open Scope Z_scope.

(** ** Constants *)

Definition NUM_OCTAVES : Z := 6.
Definition NUM_PITCHES : Z := NUM_OCTAVES * 12.
Definition BASE_MIDI_NOTE : Z := 48.
Definition MIN_BPM : Z := 40.
Definition MAX_BPM : Z := 300.
Definition MIN_BEATS_PER_MEASURE : Z := 1.
Definition MAX_BEATS_PER_MEASURE : Z := 16.
Definition MIN_STEPS_PER_BEAT : Z := 1.
Definition MAX_STEPS_PER_BEAT : Z := 16.
Definition MAX_MEASURES : Z := 8.
Definition MIN_PATTERN_ID : Z := 0.
Definition MAX_PATTERNS : Z := 8.

(** ** JavaScript values *)

(** A value bound to a number input.  [NotFinite] stands for everything
    [Number.isFinite] answers [false] on: [NaN], the infinities, and the
    [null] an emptied input yields. *)
Inductive JsNum : Type :=
| NotFinite
| Finite (q : Q).

Definition ofInt (z : Z) : JsNum := Finite (inject_Z z).

(** An integer-valued number that arithmetic may turn into [NaN]. *)
Inductive JsInt : Type :=
| NaN
| Int (z : Z).

(** [(c + 1) % n].  [%] takes the sign of the dividend ([Z.rem]) and is
    [NaN] for a zero divisor. *)
Definition succRem (c : JsInt) (n : Z) : JsInt :=
  match c with
  | NaN => NaN
  | Int z => if n =? 0 then NaN else Int (Z.rem (z + 1) n)
  end.

Definition Qltb (a b : Q) : bool := negb (Qle_bool b a).

(** [Math.trunc] on a finite number: rounding toward zero. *)
Definition mathTrunc (q : Q) : Z := Z.quot (Qnum q) (Z.pos (Qden q)).

(** [a[i]] on an array held as a list; [undefined] is [None]. *)
Definition zlookup {A : Type} (l : list A) (i : Z) : option A :=
  if i <? 0 then None else l !! Z.to_nat i.

Definition zlength {A : Type} (l : list A) : Z := Z.of_nat (length l).

(** [Array.prototype.indexOf]: the first index holding [x], or [-1]. *)
Fixpoint indexOfFrom {A : Type} `{EqDecision A} (x : A) (l : list A) (i : Z) : Z :=
  match l with
  | [] => -1
  | y :: l' => if decide (y = x) then i else indexOfFrom x l' (i + 1)
  end.

Definition indexOf {A : Type} `{EqDecision A} (l : list A) (x : A) : Z :=
  indexOfFrom x l 0.

(** A [boolean[]]: the properties stored under integer names and the
    array's [length].  A property under a name outside the index range is
    an ordinary property of the array object. *)
Record BoolArray : Type := mkBoolArray {
  elems : gmap Z bool;
  alen : Z
}.

(** [arr[i]]; [None] is [undefined]. *)
Definition arrGet (a : BoolArray) (i : Z) : option bool := elems a !! i.

(** Truthiness of [arr[i]]. *)
Definition arrTruthy (a : BoolArray) (i : Z) : bool := default false (arrGet a i).

(** Valid array indices are the integers in [0, 2^32 - 1). *)
Definition isArrayIndex (i : Z) : bool := (0 <=? i) && (i <? 4294967295).

(** [arr[i] = v]: defines the property and, for an index at or beyond
    [length], grows [length] to [i + 1]. *)
Definition arrSet (a : BoolArray) (i : Z) (v : bool) : BoolArray :=
  {| elems := <[i := v]> (elems a);
     alen := if isArrayIndex i then Z.max (alen a) (i + 1) else alen a |}.

(** [Array(n).fill(v)]. *)
Definition arrFill (n : Z) (v : bool) : BoolArray :=
  {| elems := list_to_map ((fun i => (i, v)) <$> seqZ 0 n);
     alen := Z.max 0 n |}.

(** ** Data model *)

Record Step : Type := mkStep { pitches : BoolArray }.

Inductive OscillatorType : Type := sine | square | sawtooth | triangle.

Module Synth.
Record t : Type := mk {
  id : Z;
  name : string;
  oscType : OscillatorType;
  volume : Q;
  attackMs : Q;
  releaseMs : Q;
  legatoSameNote : bool
}.
End Synth.

Module Pattern.
Record t : Type := mk {
  id : Z;
  beatsPerMeasure : JsNum;
  stepsPerBeat : JsNum;
  layers : list (list Step)
}.
End Pattern.

Inductive Scale : Type :=
| Major | NaturalMinor | HarmonicMinor | MelodicMinor | Dorian | Phrygian
| Lydian | Mixolydian | Locrian | PentatonicMajor | PentatonicMinor | Blues
| Chromatic.

(** A grid coordinate [{ step, pitch }]. *)
Definition Cell : Type := (Z * Z)%type.

(** ** Web Audio, as far as the registry needs it *)

(** The oscillator/gain pair of one voice is named by the order of its
    creation. *)
Definition Voice : Type := nat.

(** Requests sent to the audio graph.  Envelope shapes are kept as the
    times and levels handed to the ramps. *)
Inductive AudioOp : Type :=
| OscStart (v : Voice) (waveform : OscillatorType) (midi : Z) (at_ : Q)
| OscStop (v : Voice) (at_ : option Q)
| GainDisconnect (v : Voice)
| GainCancel (v : Voice) (at_ : Q)
| GainHold (v : Voice) (at_ : Q)
| GainSet (v : Voice) (level at_ : Q)
| GainRamp (v : Voice) (level at_ : Q).

Record ActiveNote : Type := mkActiveNote {
  voice : Voice;
  releaseAt : Q
}.

(** The key [`${synth.id}-${midiNote}`], kept as the pair it is built
    from. *)
Definition NoteKey : Type := (Z * Z)%type.

Record Audio : Type := mkAudio {
  activeNotes : list (NoteKey * ActiveNote);
  nextVoice : Voice;
  audioLog : list AudioOp
}.

(** ** Session state *)

Record State : Type := mkState {
  patterns : list Pattern.t;
  sequence : list Z;
  selectedSequenceIndex : Z;
  isPlaying : bool;
  currentStep : JsInt;
  bpm : JsNum;
  stepsPerBeat : JsNum;
  key : string;
  scale : Scale;
  allowNonScaleNotes : bool;
  synths : list Synth.t;
  selectedSynthIndex : Z;
  isPainting : bool;
  paintTargetState : bool;
  selectedNotes : list Cell;
  selectionRectAnchor : option Cell;
  selectionRectExtent : option Cell;
  isSelectingRect : bool;
  isDragging : bool;
  dragStartCell : option Cell;
  dragStartNotes : list Cell;
  dragLastPositions : list Cell;
  dragOverwrittenNotes : list Cell;
  isCloning : bool;
  audio : Audio;
  timeoutId : option Q
}.

(** Assignment to one session variable. *)

Definition set_patterns (v : list Pattern.t) (st : State) : State :=
  mkState v (sequence st) (selectedSequenceIndex st) (isPlaying st)
    (currentStep st) (bpm st) (stepsPerBeat st) (key st) (scale st)
    (allowNonScaleNotes st) (synths st) (selectedSynthIndex st)
    (isPainting st) (paintTargetState st) (selectedNotes st)
    (selectionRectAnchor st) (selectionRectExtent st) (isSelectingRect st)
    (isDragging st) (dragStartCell st) (dragStartNotes st)
    (dragLastPositions st) (dragOverwrittenNotes st) (isCloning st)
    (audio st) (timeoutId st).

Definition set_sequence (v : list Z) (st : State) : State :=
  mkState (patterns st) v (selectedSequenceIndex st) (isPlaying st)
    (currentStep st) (bpm st) (stepsPerBeat st) (key st) (scale st)
    (allowNonScaleNotes st) (synths st) (selectedSynthIndex st)
    (isPainting st) (paintTargetState st) (selectedNotes st)
    (selectionRectAnchor st) (selectionRectExtent st) (isSelectingRect st)
    (isDragging st) (dragStartCell st) (dragStartNotes st)
    (dragLastPositions st) (dragOverwrittenNotes st) (isCloning st)
    (audio st) (timeoutId st).

Definition set_selectedSequenceIndex (v : Z) (st : State) : State :=
  mkState (patterns st) (sequence st) v (isPlaying st) (currentStep st)
    (bpm st) (stepsPerBeat st) (key st) (scale st) (allowNonScaleNotes st)
    (synths st) (selectedSynthIndex st) (isPainting st)
    (paintTargetState st) (selectedNotes st) (selectionRectAnchor st)
    (selectionRectExtent st) (isSelectingRect st) (isDragging st)
    (dragStartCell st) (dragStartNotes st) (dragLastPositions st)
    (dragOverwrittenNotes st) (isCloning st) (audio st) (timeoutId st).

Definition set_isPlaying (v : bool) (st : State) : State :=
  mkState (patterns st) (sequence st) (selectedSequenceIndex st) v
    (currentStep st) (bpm st) (stepsPerBeat st) (key st) (scale st)
    (allowNonScaleNotes st) (synths st) (selectedSynthIndex st)
    (isPainting st) (paintTargetState st) (selectedNotes st)
    (selectionRectAnchor st) (selectionRectExtent st) (isSelectingRect st)
    (isDragging st) (dragStartCell st) (dragStartNotes st)
    (dragLastPositions st) (dragOverwrittenNotes st) (isCloning st)
    (audio st) (timeoutId st).

Definition set_currentStep (v : JsInt) (st : State) : State :=
  mkState (patterns st) (sequence st) (selectedSequenceIndex st)
    (isPlaying st) v (bpm st) (stepsPerBeat st) (key st) (scale st)
    (allowNonScaleNotes st) (synths st) (selectedSynthIndex st)
    (isPainting st) (paintTargetState st) (selectedNotes st)
    (selectionRectAnchor st) (selectionRectExtent st) (isSelectingRect st)
    (isDragging st) (dragStartCell st) (dragStartNotes st)
    (dragLastPositions st) (dragOverwrittenNotes st) (isCloning st)
    (audio st) (timeoutId st).

Definition set_allowNonScaleNotes (v : bool) (st : State) : State :=
  mkState (patterns st) (sequence st) (selectedSequenceIndex st)
    (isPlaying st) (currentStep st) (bpm st) (stepsPerBeat st) (key st)
    (scale st) v (synths st) (selectedSynthIndex st) (isPainting st)
    (paintTargetState st) (selectedNotes st) (selectionRectAnchor st)
    (selectionRectExtent st) (isSelectingRect st) (isDragging st)
    (dragStartCell st) (dragStartNotes st) (dragLastPositions st)
    (dragOverwrittenNotes st) (isCloning st) (audio st) (timeoutId st).

Definition set_selectedSynthIndex (v : Z) (st : State) : State :=
  mkState (patterns st) (sequence st) (selectedSequenceIndex st)
    (isPlaying st) (currentStep st) (bpm st) (stepsPerBeat st) (key st)
    (scale st) (allowNonScaleNotes st) (synths st) v (isPainting st)
    (paintTargetState st) (selectedNotes st) (selectionRectAnchor st)
    (selectionRectExtent st) (isSelectingRect st) (isDragging st)
    (dragStartCell st) (dragStartNotes st) (dragLastPositions st)
    (dragOverwrittenNotes st) (isCloning st) (audio st) (timeoutId st).

Definition set_isPainting (v : bool) (st : State) : State :=
  mkState (patterns st) (sequence st) (selectedSequenceIndex st)
    (isPlaying st) (currentStep st) (bpm st) (stepsPerBeat st) (key st)
    (scale st) (allowNonScaleNotes st) (synths st) (selectedSynthIndex st) v
    (paintTargetState st) (selectedNotes st) (selectionRectAnchor st)
    (selectionRectExtent st) (isSelectingRect st) (isDragging st)
    (dragStartCell st) (dragStartNotes st) (dragLastPositions st)
    (dragOverwrittenNotes st) (isCloning st) (audio st) (timeoutId st).

Definition set_paintTargetState (v : bool) (st : State) : State :=
  mkState (patterns st) (sequence st) (selectedSequenceIndex st)
    (isPlaying st) (currentStep st) (bpm st) (stepsPerBeat st) (key st)
    (scale st) (allowNonScaleNotes st) (synths st) (selectedSynthIndex st)
    (isPainting st) v (selectedNotes st) (selectionRectAnchor st)
    (selectionRectExtent st) (isSelectingRect st) (isDragging st)
    (dragStartCell st) (dragStartNotes st) (dragLastPositions st)
    (dragOverwrittenNotes st) (isCloning st) (audio st) (timeoutId st).

Definition set_selectedNotes (v : list Cell) (st : State) : State :=
  mkState (patterns st) (sequence st) (selectedSequenceIndex st)
    (isPlaying st) (currentStep st) (bpm st) (stepsPerBeat st) (key st)
    (scale st) (allowNonScaleNotes st) (synths st) (selectedSynthIndex st)
    (isPainting st) (paintTargetState st) v (selectionRectAnchor st)
    (selectionRectExtent st) (isSelectingRect st) (isDragging st)
    (dragStartCell st) (dragStartNotes st) (dragLastPositions st)
    (dragOverwrittenNotes st) (isCloning st) (audio st) (timeoutId st).

Definition set_selectionRectAnchor (v : option Cell) (st : State) : State :=
  mkState (patterns st) (sequence st) (selectedSequenceIndex st)
    (isPlaying st) (currentStep st) (bpm st) (stepsPerBeat st) (key st)
    (scale st) (allowNonScaleNotes st) (synths st) (selectedSynthIndex st)
    (isPainting st) (paintTargetState st) (selectedNotes st) v
    (selectionRectExtent st) (isSelectingRect st) (isDragging st)
    (dragStartCell st) (dragStartNotes st) (dragLastPositions st)
    (dragOverwrittenNotes st) (isCloning st) (audio st) (timeoutId st).

Definition set_selectionRectExtent (v : option Cell) (st : State) : State :=
  mkState (patterns st) (sequence st) (selectedSequenceIndex st)
    (isPlaying st) (currentStep st) (bpm st) (stepsPerBeat st) (key st)
    (scale st) (allowNonScaleNotes st) (synths st) (selectedSynthIndex st)
    (isPainting st) (paintTargetState st) (selectedNotes st)
    (selectionRectAnchor st) v (isSelectingRect st) (isDragging st)
    (dragStartCell st) (dragStartNotes st) (dragLastPositions st)
    (dragOverwrittenNotes st) (isCloning st) (audio st) (timeoutId st).

Definition set_isSelectingRect (v : bool) (st : State) : State :=
  mkState (patterns st) (sequence st) (selectedSequenceIndex st)
    (isPlaying st) (currentStep st) (bpm st) (stepsPerBeat st) (key st)
    (scale st) (allowNonScaleNotes st) (synths st) (selectedSynthIndex st)
    (isPainting st) (paintTargetState st) (selectedNotes st)
    (selectionRectAnchor st) (selectionRectExtent st) v (isDragging st)
    (dragStartCell st) (dragStartNotes st) (dragLastPositions st)
    (dragOverwrittenNotes st) (isCloning st) (audio st) (timeoutId st).

Definition set_isDragging (v : bool) (st : State) : State :=
  mkState (patterns st) (sequence st) (selectedSequenceIndex st)
    (isPlaying st) (currentStep st) (bpm st) (stepsPerBeat st) (key st)
    (scale st) (allowNonScaleNotes st) (synths st) (selectedSynthIndex st)
    (isPainting st) (paintTargetState st) (selectedNotes st)
    (selectionRectAnchor st) (selectionRectExtent st) (isSelectingRect st) v
    (dragStartCell st) (dragStartNotes st) (dragLastPositions st)
    (dragOverwrittenNotes st) (isCloning st) (audio st) (timeoutId st).

Definition set_dragStartCell (v : option Cell) (st : State) : State :=
  mkState (patterns st) (sequence st) (selectedSequenceIndex st)
    (isPlaying st) (currentStep st) (bpm st) (stepsPerBeat st) (key st)
    (scale st) (allowNonScaleNotes st) (synths st) (selectedSynthIndex st)
    (isPainting st) (paintTargetState st) (selectedNotes st)
    (selectionRectAnchor st) (selectionRectExtent st) (isSelectingRect st)
    (isDragging st) v (dragStartNotes st) (dragLastPositions st)
    (dragOverwrittenNotes st) (isCloning st) (audio st) (timeoutId st).

Definition set_dragStartNotes (v : list Cell) (st : State) : State :=
  mkState (patterns st) (sequence st) (selectedSequenceIndex st)
    (isPlaying st) (currentStep st) (bpm st) (stepsPerBeat st) (key st)
    (scale st) (allowNonScaleNotes st) (synths st) (selectedSynthIndex st)
    (isPainting st) (paintTargetState st) (selectedNotes st)
    (selectionRectAnchor st) (selectionRectExtent st) (isSelectingRect st)
    (isDragging st) (dragStartCell st) v (dragLastPositions st)
    (dragOverwrittenNotes st) (isCloning st) (audio st) (timeoutId st).

Definition set_dragLastPositions (v : list Cell) (st : State) : State :=
  mkState (patterns st) (sequence st) (selectedSequenceIndex st)
    (isPlaying st) (currentStep st) (bpm st) (stepsPerBeat st) (key st)
    (scale st) (allowNonScaleNotes st) (synths st) (selectedSynthIndex st)
    (isPainting st) (paintTargetState st) (selectedNotes st)
    (selectionRectAnchor st) (selectionRectExtent st) (isSelectingRect st)
    (isDragging st) (dragStartCell st) (dragStartNotes st) v
    (dragOverwrittenNotes st) (isCloning st) (audio st) (timeoutId st).

Definition set_dragOverwrittenNotes (v : list Cell) (st : State) : State :=
  mkState (patterns st) (sequence st) (selectedSequenceIndex st)
    (isPlaying st) (currentStep st) (bpm st) (stepsPerBeat st) (key st)
    (scale st) (allowNonScaleNotes st) (synths st) (selectedSynthIndex st)
    (isPainting st) (paintTargetState st) (selectedNotes st)
    (selectionRectAnchor st) (selectionRectExtent st) (isSelectingRect st)
    (isDragging st) (dragStartCell st) (dragStartNotes st)
    (dragLastPositions st) v (isCloning st) (audio st) (timeoutId st).

Definition set_isCloning (v : bool) (st : State) : State :=
  mkState (patterns st) (sequence st) (selectedSequenceIndex st)
    (isPlaying st) (currentStep st) (bpm st) (stepsPerBeat st) (key st)
    (scale st) (allowNonScaleNotes st) (synths st) (selectedSynthIndex st)
    (isPainting st) (paintTargetState st) (selectedNotes st)
    (selectionRectAnchor st) (selectionRectExtent st) (isSelectingRect st)
    (isDragging st) (dragStartCell st) (dragStartNotes st)
    (dragLastPositions st) (dragOverwrittenNotes st) v (audio st)
    (timeoutId st).

Definition set_audio (v : Audio) (st : State) : State :=
  mkState (patterns st) (sequence st) (selectedSequenceIndex st)
    (isPlaying st) (currentStep st) (bpm st) (stepsPerBeat st) (key st)
    (scale st) (allowNonScaleNotes st) (synths st) (selectedSynthIndex st)
    (isPainting st) (paintTargetState st) (selectedNotes st)
    (selectionRectAnchor st) (selectionRectExtent st) (isSelectingRect st)
    (isDragging st) (dragStartCell st) (dragStartNotes st)
    (dragLastPositions st) (dragOverwrittenNotes st) (isCloning st) v
    (timeoutId st).

Definition set_timeoutId (v : option Q) (st : State) : State :=
  mkState (patterns st) (sequence st) (selectedSequenceIndex st)
    (isPlaying st) (currentStep st) (bpm st) (stepsPerBeat st) (key st)
    (scale st) (allowNonScaleNotes st) (synths st) (selectedSynthIndex st)
    (isPainting st) (paintTargetState st) (selectedNotes st)
    (selectionRectAnchor st) (selectionRectExtent st) (isSelectingRect st)
    (isDragging st) (dragStartCell st) (dragStartNotes st)
    (dragLastPositions st) (dragOverwrittenNotes st) (isCloning st)
    (audio st) v.

Definition set_bpm (v : JsNum) (st : State) : State :=
  mkState (patterns st) (sequence st) (selectedSequenceIndex st)
    (isPlaying st) (currentStep st) v (stepsPerBeat st) (key st) (scale st)
    (allowNonScaleNotes st) (synths st) (selectedSynthIndex st)
    (isPainting st) (paintTargetState st) (selectedNotes st)
    (selectionRectAnchor st) (selectionRectExtent st) (isSelectingRect st)
    (isDragging st) (dragStartCell st) (dragStartNotes st)
    (dragLastPositions st) (dragOverwrittenNotes st) (isCloning st)
    (audio st) (timeoutId st).

Definition set_stepsPerBeat (v : JsNum) (st : State) : State :=
  mkState (patterns st) (sequence st) (selectedSequenceIndex st)
    (isPlaying st) (currentStep st) (bpm st) v (key st) (scale st)
    (allowNonScaleNotes st) (synths st) (selectedSynthIndex st)
    (isPainting st) (paintTargetState st) (selectedNotes st)
    (selectionRectAnchor st) (selectionRectExtent st) (isSelectingRect st)
    (isDragging st) (dragStartCell st) (dragStartNotes st)
    (dragLastPositions st) (dragOverwrittenNotes st) (isCloning st)
    (audio st) (timeoutId st).

Definition set_key (v : string) (st : State) : State :=
  mkState (patterns st) (sequence st) (selectedSequenceIndex st)
    (isPlaying st) (currentStep st) (bpm st) (stepsPerBeat st) v (scale st)
    (allowNonScaleNotes st) (synths st) (selectedSynthIndex st)
    (isPainting st) (paintTargetState st) (selectedNotes st)
    (selectionRectAnchor st) (selectionRectExtent st) (isSelectingRect st)
    (isDragging st) (dragStartCell st) (dragStartNotes st)
    (dragLastPositions st) (dragOverwrittenNotes st) (isCloning st)
    (audio st) (timeoutId st).

Definition set_scale (v : Scale) (st : State) : State :=
  mkState (patterns st) (sequence st) (selectedSequenceIndex st)
    (isPlaying st) (currentStep st) (bpm st) (stepsPerBeat st) (key st) v
    (allowNonScaleNotes st) (synths st) (selectedSynthIndex st)
    (isPainting st) (paintTargetState st) (selectedNotes st)
    (selectionRectAnchor st) (selectionRectExtent st) (isSelectingRect st)
    (isDragging st) (dragStartCell st) (dragStartNotes st)
    (dragLastPositions st) (dragOverwrittenNotes st) (isCloning st)
    (audio st) (timeoutId st).

Definition set_synths (v : list Synth.t) (st : State) : State :=
  mkState (patterns st) (sequence st) (selectedSequenceIndex st)
    (isPlaying st) (currentStep st) (bpm st) (stepsPerBeat st) (key st)
    (scale st) (allowNonScaleNotes st) v (selectedSynthIndex st)
    (isPainting st) (paintTargetState st) (selectedNotes st)
    (selectionRectAnchor st) (selectionRectExtent st) (isSelectingRect st)
    (isDragging st) (dragStartCell st) (dragStartNotes st)
    (dragLastPositions st) (dragOverwrittenNotes st) (isCloning st)
    (audio st) (timeoutId st).

(** ** ScaleTheory *)

Definition chromatic : list string :=
  ["C"; "C#"; "D"; "D#"; "E"; "F"; "F#"; "G"; "G#"; "A"; "A#"; "B"]%string.

Definition scales (s : Scale) : list Z :=
  match s with
  | Major => [0; 2; 4; 5; 7; 9; 11]
  | NaturalMinor => [0; 2; 3; 5; 7; 8; 10]
  | HarmonicMinor => [0; 2; 3; 5; 7; 8; 11]
  | MelodicMinor => [0; 2; 3; 5; 7; 9; 11]
  | Dorian => [0; 2; 3; 5; 7; 9; 10]
  | Phrygian => [0; 1; 3; 5; 7; 8; 10]
  | Lydian => [0; 2; 4; 6; 7; 9; 11]
  | Mixolydian => [0; 2; 4; 5; 7; 9; 10]
  | Locrian => [0; 1; 3; 5; 6; 8; 10]
  | PentatonicMajor => [0; 2; 4; 7; 9]
  | PentatonicMinor => [0; 3; 5; 7; 10]
  | Blues => [0; 3; 5; 6; 7; 10]
  | Chromatic => [0; 1; 2; 3; 4; 5; 6; 7; 8; 9; 10; 11]
  end.

Definition getChromaticIndex (noteName : string) : Z := indexOf chromatic noteName.

(** JavaScript's [%] takes the sign of the dividend: [Z.rem]. *)
Definition isInScale (st : State) (pitchIndex : Z) : bool :=
  let noteInOctave := Z.rem (NUM_PITCHES - 1 - pitchIndex) 12 in
  let rootIndex := getChromaticIndex (key st) in
  let scaleIntervals := scales (scale st) in
  let relativeInterval := Z.rem (noteInOctave - rootIndex + 12) 12 in
  bool_decide (relativeInterval ∈ scaleIntervals).

(** ** Clamping of tempo and meter *)

Definition clampBpm (value : JsNum) : Q :=
  match value with
  | NotFinite => inject_Z MIN_BPM
  | Finite q =>
      if Qltb q (inject_Z MIN_BPM) then inject_Z MIN_BPM
      else if Qltb (inject_Z MAX_BPM) q then inject_Z MAX_BPM
      else q
  end.

Definition clampBeatsPerMeasure (value : JsNum) : Z :=
  match value with
  | NotFinite => MIN_BEATS_PER_MEASURE
  | Finite q =>
      if Qltb q (inject_Z MIN_BEATS_PER_MEASURE) then MIN_BEATS_PER_MEASURE
      else if Qltb (inject_Z MAX_BEATS_PER_MEASURE) q then MAX_BEATS_PER_MEASURE
      else mathTrunc q
  end.

Definition clampStepsPerBeat (value : JsNum) : Z :=
  match value with
  | NotFinite => MIN_STEPS_PER_BEAT
  | Finite q =>
      if Qltb q (inject_Z MIN_STEPS_PER_BEAT) then MIN_STEPS_PER_BEAT
      else if Qltb (inject_Z MAX_STEPS_PER_BEAT) q then MAX_STEPS_PER_BEAT
      else mathTrunc q
  end.

(** ** PatternStore *)

(** [{ pitches: Array(NUM_PITCHES).fill(false) }] *)
Definition emptyStep : Step := mkStep (arrFill NUM_PITCHES false).

Definition createStepLayer (stepCount : Z) : list Step :=
  replicate (Z.to_nat stepCount) emptyStep.

Definition createPattern (patternId : Z) (beats steps : JsNum) : Pattern.t :=
  let clampedBeats := clampBeatsPerMeasure beats in
  let clampedSteps := clampStepsPerBeat steps in
  let stepsCount := clampedBeats * clampedSteps in
  {| Pattern.id := patternId;
     Pattern.beatsPerMeasure := ofInt clampedBeats;
     Pattern.stepsPerBeat := ofInt clampedSteps;
     Pattern.layers := [createStepLayer stepsCount; createStepLayer stepsCount] |}.

(** [patterns.find((p) => p.id === patternId)] *)
Definition findPattern (ps : list Pattern.t) (patternId : Z) : option Pattern.t :=
  List.find (fun p => Pattern.id p =? patternId) ps.

Definition stepsPerPattern (st : State) (patternId : Z) : Z :=
  match findPattern (patterns st) patternId with
  | None => 4 * 4
  | Some pattern =>
      clampBeatsPerMeasure (Pattern.beatsPerMeasure pattern)
      * clampStepsPerBeat (Pattern.stepsPerBeat pattern)
  end.

(** ** SequenceTimeline *)

(** The loop runs over the indices below both [seqIndex] and
    [sequence.length]. *)
Definition getStepForSequenceIndex (st : State) (seqIndex : Z) : Z :=
  foldl (fun sum patternId => sum + stepsPerPattern st patternId) 0
        (take (Z.to_nat seqIndex) (sequence st)).

Record Location : Type := mkLocation {
  patternIndex : Z;
  stepInPattern : Z;
  patternId : Z
}.

(** The scan of [getPatternAtStep], resumed at entry [i] with [acc] steps
    behind it. *)
Fixpoint getPatternAtStepFrom (st : State) (globalStep acc i : Z) (rest : list Z)
  : option Location :=
  match rest with
  | [] => None
  | pid :: rest' =>
      let patSteps := stepsPerPattern st pid in
      if globalStep <? acc + patSteps then
        Some {| patternIndex := i; stepInPattern := globalStep - acc; patternId := pid |}
      else getPatternAtStepFrom st globalStep (acc + patSteps) (i + 1) rest'
  end.

Definition getPatternAtStep (st : State) (globalStep : Z) : option Location :=
  getPatternAtStepFrom st globalStep 0 0 (sequence st).

(** Every comparison with [NaN] is false, so the scan falls through. *)
Definition getPatternAtStepJs (st : State) (globalStep : JsInt) : option Location :=
  match globalStep with
  | NaN => None
  | Int g => getPatternAtStep st g
  end.

Definition totalSteps (st : State) : Z :=
  foldl (fun sum patternId => sum + stepsPerPattern st patternId) 0 (sequence st).

(** ** Derived values *)

Definition selectedPatternId (st : State) : Z :=
  default MIN_PATTERN_ID (zlookup (sequence st) (selectedSequenceIndex st)).

Definition displayedPatternId (st : State) : Z :=
  if isPlaying st then
    match getPatternAtStepJs st (currentStep st) with
    | Some at_ => patternId at_
    | None => selectedPatternId st
    end
  else selectedPatternId st.

Definition getCurrentLayer (st : State) : option (list Step) :=
  match findPattern (patterns st) (displayedPatternId st) with
  | None => None
  | Some pattern =>
      if zlength (Pattern.layers pattern) <=? selectedSynthIndex st then None
      else zlookup (Pattern.layers pattern) (selectedSynthIndex st)
  end.

(** ** Writing through the reference [getCurrentLayer] returns *)

(** [l[i] = f(l[i])] for an existing entry. *)
Definition zalter {A : Type} (f : A -> A) (i : Z) (l : list A) : list A :=
  if i <? 0 then l else alter f (Z.to_nat i) l.

(** Apply [f] to the first element satisfying [P], the one [find]
    returns. *)
Fixpoint updateFirst {A : Type} (P : A -> bool) (f : A -> A) (l : list A) : list A :=
  match l with
  | [] => []
  | x :: l' => if P x then f x :: l' else x :: updateFirst P f l'
  end.

Definition withLayers (f : list (list Step) -> list (list Step)) (p : Pattern.t)
  : Pattern.t :=
  {| Pattern.id := Pattern.id p;
     Pattern.beatsPerMeasure := Pattern.beatsPerMeasure p;
     Pattern.stepsPerBeat := Pattern.stepsPerBeat p;
     Pattern.layers := f (Pattern.layers p) |}.

(** The layer object handed out by [getCurrentLayer] is the one stored in
    [patterns]; a mutation of it is a mutation of the store. *)
Definition updateCurrentLayer (f : list Step -> list Step) (st : State) : State :=
  set_patterns
    (updateFirst (fun p => Pattern.id p =? displayedPatternId st)
                 (withLayers (zalter f (selectedSynthIndex st)))
                 (patterns st))
    st.

(** [layer[step].pitches[pitch] = v], for an existing [layer[step]]. *)
Definition writeCell (step pitch : Z) (v : bool) (layer : list Step) : list Step :=
  zalter (fun s => mkStep (arrSet (pitches s) pitch v)) step layer.

(** [layer[step]?.pitches[pitch]], as a condition. *)
Definition cellActive (layer : list Step) (c : Cell) : bool :=
  match zlookup layer c.1 with
  | None => false
  | Some s => arrTruthy (pitches s) c.2
  end.

(** A handler either returns or dies on a [TypeError], leaving the session
    as it was at the throw. *)
Inductive Outcome (A : Type) : Type :=
| Returned (a : A)
| Thrown (a : A).
Arguments Returned {A} a.
Arguments Thrown {A} a.

Definition andThen {A : Type} (o : Outcome A) (k : A -> Outcome A) : Outcome A :=
  match o with
  | Returned a => k a
  | Thrown a => Thrown a
  end.

Definition setCell (st : State) (step pitchIndex : Z) (state : bool) : Outcome State :=
  if negb (allowNonScaleNotes st) && negb (isInScale st pitchIndex) then Returned st
  else
    match getCurrentLayer st with
    | None => Returned st
    | Some layer =>
        if zlength layer <=? step then Returned st
        else
          match zlookup layer step with
          | None => Thrown st
          | Some _ => Returned (updateCurrentLayer (writeCell step pitchIndex state) st)
          end
    end.

(** [step >= 0 && step < stepsLen && pitch >= 0 && pitch < NUM_PITCHES] *)
Definition inBounds (stepsLen : Z) (c : Cell) : bool :=
  (0 <=? c.1) && (c.1 <? stepsLen) && (0 <=? c.2) && (c.2 <? NUM_PITCHES).

Definition inGrid (layer : list Step) (c : Cell) : bool := inBounds (zlength layer) c.

Definition clearOne (layer : list Step) (c : Cell) : list Step :=
  match zlookup layer c.1 with
  | Some _ => writeCell c.1 c.2 false layer
  | None => layer
  end.

Definition setOne (layer : list Step) (c : Cell) : list Step :=
  if inGrid layer c then writeCell c.1 c.2 true layer else layer.

Definition clearNotesAt (positions : list Cell) (st : State) : State :=
  match getCurrentLayer st with
  | None => st
  | Some _ => updateCurrentLayer (fun layer => foldl clearOne layer positions) st
  end.

Definition setNotesAt (positions : list Cell) (st : State) : State :=
  match getCurrentLayer st with
  | None => st
  | Some _ => updateCurrentLayer (fun layer => foldl setOne layer positions) st
  end.

(** ** Selection: a [Set] of cell keys *)

(** A cell's key is the string [`${step}-${pitch}`]; the set holds the
    pair the string is built from.  Reading a key back splits the string
    at every ["-"] and converts the first two pieces: a minus sign of
    [step] leaves an empty first piece (read as [0]) and the digits of
    [step] as the second; a minus sign of [pitch] leaves an empty second
    piece. *)
Definition parseKey (k : Cell) : Cell :=
  if k.1 <? 0 then (0, - k.1)
  else if k.2 <? 0 then (k.1, 0)
  else k.

Definition setHas (s : list Cell) (k : Cell) : bool := bool_decide (k ∈ s).

Definition setAdd (s : list Cell) (k : Cell) : list Cell :=
  if setHas s k then s else s ++ [k].

Definition setDelete (s : list Cell) (k : Cell) : list Cell :=
  filter (fun x => x ≠ k) s.

(** [new Set(iterable)] *)
Definition newSet (l : list Cell) : list Cell := foldl setAdd [] l.

Definition isNoteSelected (st : State) (step pitch : Z) : bool :=
  setHas (selectedNotes st) (step, pitch).

Record Rect : Type := mkRect {
  minStep : Z;
  maxStep : Z;
  minPitch : Z;
  maxPitch : Z
}.

Definition getSelectionRect (st : State) : option Rect :=
  match selectionRectAnchor st, selectionRectExtent st with
  | Some a, Some e =>
      Some {| minStep := Z.min a.1 e.1; maxStep := Z.max a.1 e.1;
              minPitch := Z.min a.2 e.2; maxPitch := Z.max a.2 e.2 |}
  | _, _ => None
  end.

(** The integers [lo, lo+1, ..., hi] a counting loop visits. *)
Definition fromTo (lo hi : Z) : list Z := seqZ lo (hi - lo + 1).

Definition addNotesInRectToSelection (rect : Rect) (st : State) : State :=
  match getCurrentLayer st with
  | None => st
  | Some layer =>
      let next :=
        foldl (fun next s =>
                 foldl (fun next p =>
                          if cellActive layer (s, p) then setAdd next (s, p) else next)
                       next (fromTo (minPitch rect) (maxPitch rect)))
              (selectedNotes st) (fromTo (minStep rect) (maxStep rect)) in
      set_selectedNotes next st
  end.

Definition getSelectedNotesArray (st : State) : list Cell :=
  parseKey <$> selectedNotes st.

Definition translate (deltaStep deltaPitch : Z) (n : Cell) : Cell :=
  (n.1 + deltaStep, n.2 + deltaPitch).

Definition moveSelectedNotes (deltaStep deltaPitch : Z) (st : State) : State :=
  let notes := getSelectedNotesArray st in
  match getCurrentLayer st with
  | None => st
  | Some layer =>
      if bool_decide (notes = []) then st
      else
        let newPositions := translate deltaStep deltaPitch <$> notes in
        if forallb (inBounds (zlength layer)) newPositions then
          set_selectedNotes (newSet newPositions)
            (setNotesAt newPositions (clearNotesAt notes st))
        else st
  end.

(** ** SelectionEditor: pointer handlers *)

Record MouseEvent : Type := mkMouseEvent {
  metaKey : bool;
  ctrlKey : bool;
  shiftKey : bool;
  altKey : bool
}.

Record CellOpts : Type := mkCellOpts {
  hasNote : bool;
  noteSelected : bool;
  isDisabled : bool
}.

Definition handleCellMousedown (stepIndex pitchIndex : Z) (e : MouseEvent)
    (opts : CellOpts) (st : State) : Outcome State :=
  if isDisabled opts then Returned st
  else if metaKey e || ctrlKey e then
    Returned (set_isSelectingRect true
               (set_selectionRectExtent (Some (stepIndex, pitchIndex))
                 (set_selectionRectAnchor (Some (stepIndex, pitchIndex)) st)))
  else if shiftKey e && hasNote opts then
    let k := (stepIndex, pitchIndex) in
    let next := selectedNotes st in
    Returned (set_selectedNotes
                (if setHas next k then setDelete next k else setAdd next k) st)
  else if noteSelected opts && (0 <? zlength (selectedNotes st)) then
    let notes := getSelectedNotesArray st in
    Returned (set_isDragging true
               (set_isCloning (altKey e)
                 (set_dragOverwrittenNotes []
                   (set_dragLastPositions []
                     (set_dragStartCell (Some (stepIndex, pitchIndex))
                       (set_dragStartNotes notes
                         (set_selectedNotes [] st)))))))
  else
    let st1 := set_paintTargetState (negb (hasNote opts)) (set_selectedNotes [] st) in
    andThen (setCell st1 stepIndex pitchIndex (paintTargetState st1))
            (fun st2 => Returned (set_isPainting true st2)).

(** The drag branch of [handleCellMouseenter].  [layer] is a reference:
    the filter that computes the overwritten notes reads the layer as
    [clearNotesAt] and [setNotesAt] have left it. *)
Definition dragTo (stepIndex pitchIndex : Z) (anchor : Cell) (st : State) : State :=
  let deltaStep := stepIndex - anchor.1 in
  let deltaPitch := pitchIndex - anchor.2 in
  match getCurrentLayer st with
  | None => st
  | Some layer =>
      let stepsLen := zlength layer in
      let st1 :=
        if isCloning st then clearNotesAt (dragLastPositions st) st
        else if 0 <? zlength (dragLastPositions st)
             then clearNotesAt (dragLastPositions st) st
             else clearNotesAt (dragStartNotes st) st in
      let st2 := setNotesAt (dragOverwrittenNotes st1) st1 in
      let newLastPositions :=
        List.filter (inBounds stepsLen)
                    (translate deltaStep deltaPitch <$> dragStartNotes st2) in
      let layerNow := default layer (getCurrentLayer st2) in
      let newOverwrittenNotes := List.filter (cellActive layerNow) newLastPositions in
      set_dragOverwrittenNotes newOverwrittenNotes
        (set_dragLastPositions newLastPositions
          (setNotesAt newLastPositions st2))
  end.

Definition handleCellMouseenter (stepIndex pitchIndex : Z) (isDisabled : bool)
    (st : State) : Outcome State :=
  if isSelectingRect st then
    Returned (set_selectionRectExtent (Some (stepIndex, pitchIndex)) st)
  else
    match isDragging st, dragStartCell st with
    | true, Some anchor => Returned (dragTo stepIndex pitchIndex anchor st)
    | _, _ =>
        if isPainting st && negb isDisabled
        then setCell st stepIndex pitchIndex (paintTargetState st)
        else Returned st
    end.

(** [on:mouseup] of the window. *)
Definition handleMouseup (st : State) : State :=
  let st1 :=
    if isSelectingRect st then
      let st' := match getSelectionRect st with
                 | Some rect => addNotesInRectToSelection rect st
                 | None => st
                 end in
      set_isSelectingRect false
        (set_selectionRectExtent None (set_selectionRectAnchor None st'))
    else st in
  set_dragStartCell None
    (set_isCloning false (set_isDragging false (set_isPainting false st1))).

(** ** NoteDispatcher *)

(** [Map.prototype.get], [set] and [delete] on the entry list. *)
Fixpoint mapGet (m : list (NoteKey * ActiveNote)) (k : NoteKey) : option ActiveNote :=
  match m with
  | [] => None
  | (k', v) :: m' => if decide (k' = k) then Some v else mapGet m' k
  end.

Fixpoint mapSet (m : list (NoteKey * ActiveNote)) (k : NoteKey) (v : ActiveNote)
  : list (NoteKey * ActiveNote) :=
  match m with
  | [] => [(k, v)]
  | (k', v') :: m' => if decide (k' = k) then (k, v) :: m' else (k', v') :: mapSet m' k v
  end.

Fixpoint mapDelete (m : list (NoteKey * ActiveNote)) (k : NoteKey)
  : list (NoteKey * ActiveNote) :=
  match m with
  | [] => []
  | (k', v') :: m' => if decide (k' = k) then mapDelete m' k else (k', v') :: mapDelete m' k
  end.

Definition emit (ops : list AudioOp) (a : Audio) : Audio :=
  {| activeNotes := activeNotes a; nextVoice := nextVoice a;
     audioLog := audioLog a ++ ops |}.

Definition set_activeNotes (m : list (NoteKey * ActiveNote)) (a : Audio) : Audio :=
  {| activeNotes := m; nextVoice := nextVoice a; audioLog := audioLog a |}.

(** [ctx.createOscillator()] with [ctx.createGain()] *)
Definition createVoice (a : Audio) : Voice * Audio :=
  (nextVoice a,
   {| activeNotes := activeNotes a; nextVoice := S (nextVoice a);
      audioLog := audioLog a |}).

(** The part of [playNote] after the legato prelude: a new voice. *)
Definition startVoice (midiNote : Z) (time duration : Q) (synth : Synth.t) (a : Audio)
  : Audio :=
  let '(v, a1) := createVoice a in
  let attackSec := (Synth.attackMs synth / 1000)%Q in
  let releaseSec := (Synth.releaseMs synth / 1000)%Q in
  let releaseStart := Qmax (time + attackSec) (time + duration - releaseSec) in
  let a2 := emit [GainSet v 0 time;
                  GainRamp v (Synth.volume synth) (time + attackSec)%Q;
                  GainRamp v (Synth.volume synth) releaseStart;
                  GainRamp v 0 (time + duration)%Q;
                  OscStart v (Synth.oscType synth) midiNote time] a1 in
  if Synth.legatoSameNote synth then
    set_activeNotes
      (mapSet (activeNotes a2) (Synth.id synth, midiNote)
              {| voice := v; releaseAt := (time + duration)%Q |}) a2
  else emit [OscStop v (Some (time + duration + 5 / 100)%Q)] a2.

(** [now] is [ctx.currentTime] at the call.  Times are the rationals the
    code's doubles stand for, added and compared exactly; at the edge of
    the 20 ms window the code's rounded comparison can fall the other
    way than the exact one. *)
Definition playNote (now : Q) (midiNote : Z) (time duration : Q) (synth : Synth.t)
    (a : Audio) : Audio :=
  let k := (Synth.id synth, midiNote) in
  if Synth.legatoSameNote synth then
    match mapGet (activeNotes a) k with
    | Some existing =>
        if Qltb now (releaseAt existing - 2 / 100)%Q then
          let v := voice existing in
          let releaseSec := (Synth.releaseMs synth / 1000)%Q in
          let a1 := emit [GainCancel v time; GainHold v time;
                          GainRamp v (Synth.volume synth) (time + 5 / 1000)%Q;
                          GainRamp v (Synth.volume synth) (time + duration - releaseSec)%Q;
                          GainRamp v 0 (time + duration)%Q] a in
          set_activeNotes
            (mapSet (activeNotes a1) k {| voice := v; releaseAt := (time + duration)%Q |})
            a1
        else
          let a1 := emit [OscStop (voice existing) None;
                          GainDisconnect (voice existing)] a in
          startVoice midiNote time duration synth
            (set_activeNotes (mapDelete (activeNotes a1) k) a1)
    | None => startVoice midiNote time duration synth a
    end
  else startVoice midiNote time duration synth a.

(** ** TransportScheduler *)

Definition stepDurationSeconds (st : State) : Q :=
  let numericBpm := clampBpm (bpm st) in
  let steps := clampStepsPerBeat (stepsPerBeat st) in
  (60 / (numericBpm * inject_Z steps))%Q.

(** The loop over [pitches.entries()]: every index below [length]. *)
Definition playPitches (now : Q) (duration : Q) (synth : Synth.t) (arr : BoolArray)
    (a : Audio) : Audio :=
  foldl (fun a pitchIndex =>
           if arrTruthy arr pitchIndex then
             playNote now (BASE_MIDI_NOTE + (NUM_PITCHES - 1 - pitchIndex)) now duration
                      synth a
           else a)
        a (seqZ 0 (alen arr)).

(** The loop of [playStep] over the synths from index [synthIndex] on.
    [layer[stepInPattern]] is [undefined] for a negative index, and reading
    [pitches] off it throws. *)
Fixpoint playLayers (now stepDur : Q) (layers : list (list Step)) (stepInPattern : Z)
    (synthIndex : Z) (rest : list Synth.t) (a : Audio) : Outcome Audio :=
  match rest with
  | [] => Returned a
  | synth :: rest' =>
      match zlookup layers synthIndex with
      | None => playLayers now stepDur layers stepInPattern (synthIndex + 1) rest' a
      | Some layer =>
          if zlength layer <=? stepInPattern then
            playLayers now stepDur layers stepInPattern (synthIndex + 1) rest' a
          else
            let duration :=
              if Synth.legatoSameNote synth then (stepDur * 2)%Q
              else (stepDur * (9 / 10))%Q in
            match zlookup layer stepInPattern with
            | None => Thrown a
            | Some s =>
                playLayers now stepDur layers stepInPattern (synthIndex + 1) rest'
                           (playPitches now duration synth (pitches s) a)
            end
      end
  end.

Definition liftAudio (st : State) (o : Outcome Audio) : Outcome State :=
  match o with
  | Returned a => Returned (set_audio a st)
  | Thrown a => Thrown (set_audio a st)
  end.

Definition playStep (now : Q) (step : JsInt) (st : State) : Outcome State :=
  let stepDur := stepDurationSeconds st in
  match getPatternAtStepJs st step with
  | None => Returned st
  | Some at_ =>
      match findPattern (patterns st) (patternId at_) with
      | None => Returned st
      | Some pattern =>
          liftAudio st
            (playLayers now stepDur (Pattern.layers pattern) (stepInPattern at_) 0
                        (synths st) (audio st))
      end
  end.

Definition armTimer (st : State) : State :=
  set_timeoutId (Some (stepDurationSeconds st * 1000)%Q) st.

(** The timer callback. *)
Definition startPlayingStepsUsingTimeout (now : Q) (st : State) : Outcome State :=
  if negb (isPlaying st) then Returned st
  else
    let stepsInLoop := totalSteps st in
    let st1 := set_currentStep (succRem (currentStep st) stepsInLoop) st in
    andThen (playStep now (currentStep st1) st1) (fun st2 => Returned (armTimer st2)).

(** [start], for an audio context that is already running: the handler
    then runs to its end without yielding. *)
Definition start (now : Q) (st : State) : Outcome State :=
  if isPlaying st then Returned st
  else
    let st1 := set_isPlaying true st in
    let st2 :=
      set_currentStep (Int (getStepForSequenceIndex st1 (selectedSequenceIndex st1))) st1 in
    andThen (playStep now (currentStep st2) st2) (fun st3 => Returned (armTimer st3)).

Definition stopAll (a : Audio) : Audio :=
  set_activeNotes []
    (emit (flat_map (fun kv => [OscStop (voice kv.2) None; GainDisconnect (voice kv.2)])
                    (activeNotes a)) a).

Definition stop (st : State) : State :=
  if negb (isPlaying st) then st
  else set_audio (stopAll (audio st)) (set_timeoutId None (set_isPlaying false st)).

(** ** Clearing and resizing patterns *)

Definition clearPattern (st : State) : State :=
  match findPattern (patterns st) (displayedPatternId st) with
  | None => st
  | Some pattern =>
      set_patterns
        (updateFirst (fun p => Pattern.id p =? displayedPatternId st)
           (fun _ => createPattern (displayedPatternId st)
                                   (Pattern.beatsPerMeasure pattern)
                                   (Pattern.stepsPerBeat pattern))
           (patterns st))
        st
  end.

(** One layer under the resize effect: pushes of empty steps, or an
    assignment to [length]. *)
Definition resizeLayer (stepsPerPat : Z) (layer : list Step) : list Step :=
  if zlength layer =? stepsPerPat then layer
  else if zlength layer <? stepsPerPat then
    layer ++ replicate (Z.to_nat (stepsPerPat - zlength layer)) emptyStep
  else take (Z.to_nat stepsPerPat) layer.

(** The [$effect] that keeps layer lengths in step with the meters.  It
    writes neither ids nor meters, so [stepsPerPattern] answers the same
    throughout the loop. *)
Definition resizeEffect (st : State) : State :=
  set_patterns
    ((fun pattern =>
        withLayers (fmap (resizeLayer (stepsPerPattern st (Pattern.id pattern)))) pattern)
       <$> patterns st)
    st.

(** ** Editing the sequence *)

(** [direction] is [1] or [-1]; [seqIndex] is the index of a rendered
    sequence cell (for any other index below the length the model leaves
    the session alone). *)
Definition cyclePatternAtPosition (seqIndex direction : Z) (st : State) : State :=
  if zlength (sequence st) <=? seqIndex then st
  else
    match zlookup (sequence st) seqIndex with
    | None => st
    | Some currentId =>
        let nextId :=
          Z.rem (currentId - MIN_PATTERN_ID + direction + MAX_PATTERNS) MAX_PATTERNS
          + MIN_PATTERN_ID in
        set_selectedSequenceIndex seqIndex
          (set_sequence (zalter (fun _ => nextId) seqIndex (sequence st)) st)
    end.

(** The swap of two neighbours, for the index of a rendered sequence
    cell; the deferred focus call is left out. *)
Definition movePatternInSequence (seqIndex direction : Z) (st : State) : State :=
  if (direction =? -1) && (seqIndex =? 0) then st
  else if (direction =? 1) && (zlength (sequence st) - 1 <=? seqIndex) then st
  else
    let other := seqIndex + direction in
    match zlookup (sequence st) seqIndex, zlookup (sequence st) other with
    | Some a, Some b =>
        set_selectedSequenceIndex other
          (set_sequence
             (zalter (fun _ => a) other (zalter (fun _ => b) seqIndex (sequence st))) st)
    | _, _ => st
    end.

(** The "+" button, shown while the sequence is shorter than
    [MAX_MEASURES]. *)
Definition addToSequence (st : State) : State :=
  if zlength (sequence st) <? MAX_MEASURES
  then set_sequence (sequence st ++ [selectedPatternId st]) st
  else st.

(** The "−" button, shown while the sequence has more than one entry. *)
Definition removeLast (st : State) : State :=
  if 1 <? zlength (sequence st) then
    let st1 := set_sequence (take (length (sequence st) - 1) (sequence st)) st in
    if zlength (sequence st1) <=? selectedSequenceIndex st1 then
      let i := zlength (sequence st1) - 1 in
      set_selectedSequenceIndex (if i <? 0 then 0 else i) st1
    else st1
  else st.

(** [bind:checked] of the legato box of the selected synth. *)
Definition withLegato (checked : bool) (y : Synth.t) : Synth.t :=
  Synth.mk (Synth.id y) (Synth.name y) (Synth.oscType y) (Synth.volume y)
           (Synth.attackMs y) (Synth.releaseMs y) checked.

(** ** Keyboard *)

Inductive KeyName : Type :=
| KeyDelete | KeyBackspace | KeyEscape
| ArrowUp | ArrowDown | ArrowLeft | ArrowRight
| KeySpace | KeyOther.

Definition deleteSelection (st : State) : State :=
  if 0 <? zlength (selectedNotes st) then
    set_selectedNotes [] (clearNotesAt (getSelectedNotesArray st) st)
  else st.

Definition arrowDelta (k : KeyName) : Z * Z :=
  match k with
  | ArrowUp => (0, -1)
  | ArrowDown => (0, 1)
  | ArrowLeft => (-1, 0)
  | ArrowRight => (1, 0)
  | _ => (0, 0)
  end.

Definition nudge (k : KeyName) (st : State) : State :=
  if 0 <? zlength (selectedNotes st) then
    moveSelectedNotes (arrowDelta k).1 (arrowDelta k).2 st
  else st.

(** [on:keydown] of the window, for a target that is not a text control. *)
Definition handleKeydown (k : KeyName) (now : Q) (st : State) : Outcome State :=
  match k with
  | KeyDelete | KeyBackspace => Returned (deleteSelection st)
  | KeyEscape =>
      if (0 <? zlength (selectedNotes st)) || isSelectingRect st then
        Returned (set_isSelectingRect false
                   (set_selectionRectExtent None
                     (set_selectionRectAnchor None (set_selectedNotes [] st))))
      else Returned st
  | ArrowUp | ArrowDown | ArrowLeft | ArrowRight => Returned (nudge k st)
  | KeySpace => if isPlaying st then Returned (stop st) else start now st
  | KeyOther => Returned st
  end.

(** ** Session start *)

Definition reset : State :=
  {| patterns :=
       (fun i => createPattern (MIN_PATTERN_ID + i) (ofInt 4) (ofInt 4))
         <$> seqZ 0 MAX_PATTERNS;
     sequence := [0];
     selectedSequenceIndex := 0;
     isPlaying := false;
     currentStep := Int 0;
     bpm := ofInt 120;
     stepsPerBeat := ofInt 4;
     key := "C";
     scale := NaturalMinor;
     allowNonScaleNotes := true;
     synths :=
       [ Synth.mk 0 "Synth 1" square (3 / 10) 10 100 false;
         Synth.mk 1 "Synth 2" sine (2 / 10) 5 80 false ];
     selectedSynthIndex := 0;
     isPainting := false;
     paintTargetState := true;
     selectedNotes := [];
     selectionRectAnchor := None;
     selectionRectExtent := None;
     isSelectingRect := false;
     isDragging := false;
     dragStartCell := None;
     dragStartNotes := [];
     dragLastPositions := [];
     dragOverwrittenNotes := [];
     isCloning := false;
     audio := {| activeNotes := []; nextVoice := 0%nat; audioLog := [] |};
     timeoutId := None |}.

(** ** The page's events *)

Inductive Event : Type :=
| CellMousedown (stepIndex pitchIndex : Z) (e : MouseEvent)
| CellMouseenter (stepIndex pitchIndex : Z)
| WindowMouseup
| WindowKeydown (k : KeyName) (now : Q)
| TimerFires (now : Q)
| ClickClear
| ClickSynth (idx : Z)
| ClickSequenceCell (seqIndex : Z)
| CyclePattern (seqIndex : Z) (up : bool)
| MovePattern (seqIndex : Z) (forward : bool)
| ClickAddToSequence
| ClickRemoveLast
| InputBeatsPerMeasure (value : JsNum)
| InputStepsPerBeat (value : JsNum)
| BlurBeatsPerMeasure
| BlurStepsPerBeat
| InputBpm (value : JsNum)
| InputGridSteps (value : JsNum)
| SelectKey (k : string)
| SelectScale (s : Scale)
| CheckLegato (checked : bool)
| CheckAllowNonScaleNotes (checked : bool).

(** What the template passes to the cell handlers ([isDisabled],
    [hasNote], [noteSelected]). *)
Definition cellOpts (st : State) (layer : list Step) (stepIndex pitchIndex : Z) : CellOpts :=
  {| hasNote := cellActive layer (stepIndex, pitchIndex);
     noteSelected := isNoteSelected st stepIndex pitchIndex;
     isDisabled := negb (allowNonScaleNotes st) && negb (isInScale st pitchIndex) |}.

(** The grid has one button per step of the current layer and per pitch
    slot; an event addressed to any other coordinate has no button to
    arrive at. *)
Definition onCell (st : State) (stepIndex pitchIndex : Z)
    (handler : CellOpts -> Outcome State) : Outcome State :=
  match getCurrentLayer st with
  | None => Returned st
  | Some layer =>
      if inBounds (zlength layer) (stepIndex, pitchIndex)
      then handler (cellOpts st layer stepIndex pitchIndex)
      else Returned st
  end.

(** [bind:value] on a meter input of the displayed pattern. *)
Definition writeMeter (f : Pattern.t -> Pattern.t) (st : State) : State :=
  set_patterns
    (updateFirst (fun p => Pattern.id p =? displayedPatternId st) f (patterns st)) st.

Definition withBeatsPerMeasure (v : JsNum) (p : Pattern.t) : Pattern.t :=
  {| Pattern.id := Pattern.id p; Pattern.beatsPerMeasure := v;
     Pattern.stepsPerBeat := Pattern.stepsPerBeat p; Pattern.layers := Pattern.layers p |}.

Definition withStepsPerBeat (v : JsNum) (p : Pattern.t) : Pattern.t :=
  {| Pattern.id := Pattern.id p; Pattern.beatsPerMeasure := Pattern.beatsPerMeasure p;
     Pattern.stepsPerBeat := v; Pattern.layers := Pattern.layers p |}.

(** One event, handled to completion.  The resize effect reads only the
    pattern store and is the identity while every layer has its
    pattern's step count, so it is run where a meter has been written. *)
Definition dispatch (st : State) (ev : Event) : Outcome State :=
  match ev with
  | CellMousedown stepIndex pitchIndex e =>
      onCell st stepIndex pitchIndex
             (fun opts => handleCellMousedown stepIndex pitchIndex e opts st)
  | CellMouseenter stepIndex pitchIndex =>
      onCell st stepIndex pitchIndex
             (fun opts => handleCellMouseenter stepIndex pitchIndex (isDisabled opts) st)
  | WindowMouseup => Returned (handleMouseup st)
  | WindowKeydown k now => handleKeydown k now st
  | TimerFires now =>
      match timeoutId st with
      | Some _ => startPlayingStepsUsingTimeout now st
      | None => Returned st
      end
  | ClickClear => Returned (clearPattern st)
  | ClickSynth idx =>
      if (0 <=? idx) && (idx <? zlength (synths st))
      then Returned (set_selectedNotes [] (set_selectedSynthIndex idx st))
      else Returned st
  | ClickSequenceCell seqIndex =>
      if (0 <=? seqIndex) && (seqIndex <? zlength (sequence st))
      then Returned (set_selectedSequenceIndex seqIndex st)
      else Returned st
  | CyclePattern seqIndex up =>
      if (0 <=? seqIndex) && (seqIndex <? zlength (sequence st))
      then Returned (cyclePatternAtPosition seqIndex (if up then 1 else -1) st)
      else Returned st
  | MovePattern seqIndex forward =>
      if (0 <=? seqIndex) && (seqIndex <? zlength (sequence st))
      then Returned (movePatternInSequence seqIndex (if forward then 1 else -1) st)
      else Returned st
  | ClickAddToSequence => Returned (addToSequence st)
  | ClickRemoveLast => Returned (removeLast st)
  | InputBeatsPerMeasure value =>
      Returned (resizeEffect (writeMeter (withBeatsPerMeasure value) st))
  | InputStepsPerBeat value =>
      Returned (resizeEffect (writeMeter (withStepsPerBeat value) st))
  | BlurBeatsPerMeasure =>
      Returned (resizeEffect
                  (writeMeter (fun p => withBeatsPerMeasure
                                          (ofInt (clampBeatsPerMeasure
                                                    (Pattern.beatsPerMeasure p))) p) st))
  | BlurStepsPerBeat =>
      Returned (resizeEffect
                  (writeMeter (fun p => withStepsPerBeat
                                          (ofInt (clampStepsPerBeat
                                                    (Pattern.stepsPerBeat p))) p) st))
  | InputBpm value => Returned (set_bpm value st)
  | InputGridSteps value => Returned (set_stepsPerBeat value st)
  | SelectKey k => Returned (set_key k st)
  | SelectScale s => Returned (set_scale s st)
  | CheckLegato checked =>
      Returned (set_synths (zalter (withLegato checked) (selectedSynthIndex st) (synths st))
                           st)
  | CheckAllowNonScaleNotes checked => Returned (set_allowNonScaleNotes checked st)
  end.

Definition runEvents (evs : list Event) (st : State) : Outcome State :=
  foldl (fun o ev => andThen o (fun st => dispatch st ev)) (Returned st) evs.

(** ** Vocabulary of the properties *)

(** Steps accumulated over a run of sequence entries. *)
Definition sumSteps (st : State) (entries : list Z) : Z :=
  foldl (fun sum patternId => sum + stepsPerPattern st patternId) 0 entries.


(** One request to the dispatcher. *)
Record NoteCall : Type := mkNoteCall {
  callNow : Q;
  callMidi : Z;
  callTime : Q;
  callDuration : Q;
  callSynth : Synth.t
}.

Definition playCall (a : Audio) (c : NoteCall) : Audio :=
  playNote (callNow c) (callMidi c) (callTime c) (callDuration c) (callSynth c) a.

Definition callKey (c : NoteCall) : NoteKey := (Synth.id (callSynth c), callMidi c).

(** Number of registry entries stored under [k]. *)
Definition entriesFor (a : Audio) (k : NoteKey) : nat :=
  length (filter (fun kv => kv.1 = k) (activeNotes a)).

(** A step as [createStepLayer] makes it and in-range writes keep it:
    [length] is [NUM_PITCHES] and exactly the indices below it are
    defined. *)
Definition wfStepb (s : Step) : bool :=
  (alen (pitches s) =? NUM_PITCHES)
  && bool_decide (dom (elems (pitches s)) = list_to_set (seqZ 0 NUM_PITCHES)).

Definition wfLayerb (layer : list Step) : bool := forallb wfStepb layer.

(** What it means for [at_] to locate global step [g]. *)
Definition Resolves (st : State) (g : Z) (at_ : Location) : Prop :=
  zlookup (sequence st) (patternIndex at_) = Some (patternId at_)
  /\ stepInPattern at_ = g - getStepForSequenceIndex st (patternIndex at_)
  /\ 0 <= stepInPattern at_ < stepsPerPattern st (patternId at_)
  /\ g < totalSteps st.

(** ** Sample sessions *)

(** A sequence of three patterns with 8, 16 and 8 steps. *)
Definition threeEntries : State :=
  set_sequence [0; 1; 2]
    (set_patterns [createPattern 0 (ofInt 2) (ofInt 4);
                   createPattern 1 (ofInt 4) (ofInt 4);
                   createPattern 2 (ofInt 4) (ofInt 2)] reset).

(** A session of one two-step pattern whose steps-per-beat field has just
    been set to 20, before the resize effect has run. *)
Definition retimedPattern : Pattern.t :=
  withStepsPerBeat (ofInt 20) (createPattern 0 (ofInt 1) (ofInt 2)).

Definition retimed : State := set_patterns [retimedPattern] reset.

(** A dispatch of middle C to a legato synth at time [now], lasting a
    quarter of a second. *)
Definition tiedCall (now : Q) : NoteCall :=
  {| callNow := now; callMidi := 60; callTime := now; callDuration := 1 / 4;
     callSynth := Synth.mk 0 "Synth 1" square (3 / 10) 10 100 true |}.

(** The part of a pattern the timeline reads. *)
Definition meterOf (p : Pattern.t) : Z * JsNum * JsNum :=
  (Pattern.id p, Pattern.beatsPerMeasure p, Pattern.stepsPerBeat p).

(** Two sessions that show the same grid: they agree on everything
    [getCurrentLayer] reads. *)
Definition sameGrid (st st' : State) : Prop :=
  patterns st = patterns st' /\ sequence st = sequence st'
  /\ selectedSequenceIndex st = selectedSequenceIndex st'
  /\ isPlaying st = isPlaying st' /\ currentStep st = currentStep st'
  /\ selectedSynthIndex st = selectedSynthIndex st'.

(** A session of one two-step pattern. *)
Definition twoSteps : State := set_patterns [createPattern 0 (ofInt 1) (ofInt 2)] reset.

(** Its first layer with one note: step 0, pitch slot 71 (the lowest C). *)
Definition noteLayer : list Step := writeCell 0 71 true (createStepLayer 2).

(** That note painted and selected. *)
Definition oneNote : State :=
  set_selectedNotes [(0, 71)] (updateCurrentLayer (fun _ => noteLayer) twoSteps).

(** The same with "allow non-scale notes" switched off (key C, natural
    minor: slot 71 is in the scale, slot 70 is not). *)
Definition lockedNote : State := set_allowNonScaleNotes false oneNote.

Definition plainClick : MouseEvent := mkMouseEvent false false false false.
Definition shiftClick : MouseEvent := mkMouseEvent false false true false.
Definition altClick : MouseEvent := mkMouseEvent false false false true.

(** Two notes in step 0, at slots 71 (C) and 69 (D), both selected, with
    "allow non-scale notes" switched off.  Slot 67 (E) is outside C
    natural minor. *)
Definition pairLayer : list Step :=
  writeCell 0 69 true (writeCell 0 71 true (createStepLayer 2)).

Definition lockedPair : State :=
  set_allowNonScaleNotes false
    (set_selectedNotes [(0, 71); (0, 69)]
       (updateCurrentLayer (fun _ => pairLayer) twoSteps)).

(** Every selected coordinate names a cell of the current layer that
    holds a note. *)
Definition SelectionValid (st : State) : Prop :=
  forall c, c ∈ selectedNotes st ->
            exists layer, getCurrentLayer st = Some layer /\ cellActive layer c = true.

(** The session a handler leaves, whether it returned or threw. *)
Definition sessionOf (o : Outcome State) : State :=
  match o with
  | Returned st => st
  | Thrown st => st
  end.

Definition returned (o : Outcome State) : bool :=
  match o with
  | Returned _ => true
  | Thrown _ => false
  end.

(** Whether cell [c] of the current layer holds a note; [None] without a
    current layer. *)
Definition noteAt (st : State) (c : Cell) : option bool :=
  (fun layer => cellActive layer c) <$> getCurrentLayer st.

(** From [reset]: two notes painted in step 0 at slots 71 and 69, both
    shift-selected, then "allow non-scale notes" unchecked. *)
Definition lockedScene : Outcome State :=
  runEvents [CellMousedown 0 71 plainClick; WindowMouseup;
             CellMousedown 0 69 plainClick; WindowMouseup;
             CellMousedown 0 71 shiftClick; WindowMouseup;
             CellMousedown 0 69 shiftClick; WindowMouseup;
             CheckAllowNonScaleNotes false] reset.

(** Then the selection grabbed at slot 71 and dragged onto slot 69. *)
Definition draggedScene : Outcome State :=
  andThen lockedScene
          (runEvents [CellMousedown 0 71 plainClick; CellMouseenter 0 69]).

(** From [reset]: a note painted at step 0, slot 71, selected with a
    shift-click, and the pattern cleared. *)
Definition clearedScene : Outcome State :=
  runEvents [CellMousedown 0 71 plainClick; WindowMouseup;
             CellMousedown 0 71 shiftClick; WindowMouseup;
             ClickClear] reset.

(** [clearedScene], then the selected coordinate grabbed, carried one
    step to the right and back. *)
Definition staleDragScene : Outcome State :=
  andThen clearedScene
          (runEvents [CellMousedown 0 71 plainClick; CellMouseenter 1 71;
                      CellMouseenter 0 71]).

(** The positions a drag move clears before it writes: the last written
    positions, or the grabbed notes on the first move of a drag that does
    not clone. *)
Definition dragCleared (st : State) : list Cell :=
  if isCloning st then dragLastPositions st
  else if 0 <? zlength (dragLastPositions st) then dragLastPositions st
       else dragStartNotes st.

(** The notes a drag leaves alone: the layer as it was when the drag
    began, without the grabbed notes unless the drag clones. *)
Definition dragBase (layer : list Step) (grabbed : list Cell) (cloning : bool) (c : Cell)
  : bool :=
  cellActive layer c && (cloning || negb (bool_decide (c ∈ grabbed))).

(** The variables the drag branch reads besides the layer. *)
Definition dragFields (st : State)
  : bool * bool * option Cell * bool * list Cell * list Cell * list Cell :=
  (isSelectingRect st, isDragging st, dragStartCell st, isCloning st,
   dragStartNotes st, dragLastPositions st, dragOverwrittenNotes st).

(** A session in the middle of a drag that began on [layer0] with the
    notes [grabbed]: either no move has been made yet, or the layer is
    the base with the last written positions added and the overwritten
    record lists the base notes under those positions. *)
Definition DragInProgress (layer0 : list Step) (grabbed : list Cell) (cloning : bool)
    (anchor : Cell) (st : State) : Prop :=
  isSelectingRect st = false /\ isDragging st = true /\ dragStartCell st = Some anchor
  /\ isCloning st = cloning /\ dragStartNotes st = grabbed
  /\ exists layer,
       getCurrentLayer st = Some layer /\ wfLayerb layer = true
       /\ zlength layer = zlength layer0
       /\ forallb (inGrid layer0) (dragLastPositions st) = true
       /\ ((dragLastPositions st = [] /\ dragOverwrittenNotes st = [] /\ layer = layer0)
           \/ (dragOverwrittenNotes st
                = List.filter (dragBase layer0 grabbed cloning) (dragLastPositions st)
               /\ forall c, cellActive layer c
                            = dragBase layer0 grabbed cloning c
                              || bool_decide (c ∈ dragLastPositions st))).

(** Pointer-enter on each of [cells], in order. *)
Definition enterCells (cells : list Cell) : list Event :=
  (fun c => CellMouseenter c.1 c.2) <$> cells.

(** ** Vocabulary of the session invariants *)

(** The sequence has between one and [MAX_MEASURES] entries and the
    selected index names one of them. *)
Definition SequenceOk (st : State) : Prop :=
  1 <= zlength (sequence st) <= MAX_MEASURES
  /\ 0 <= selectedSequenceIndex st < zlength (sequence st).


(** What the grid handlers and the settings leave alone. *)
Definition transportView (st : State) : list Z * Z * bool * JsInt :=
  (sequence st, selectedSequenceIndex st, isPlaying st, currentStep st).

(** What the transport leaves alone. *)
Definition editorView (st : State)
  : list Pattern.t * list Z * Z * Z * list Cell * (list Cell * list Cell * list Cell) :=
  (patterns st, sequence st, selectedSequenceIndex st, selectedSynthIndex st,
   selectedNotes st,
   (dragStartNotes st, dragLastPositions st, dragOverwrittenNotes st)).

(** The events that edit the sequence or move its selection. *)
Definition editsSequence (ev : Event) : bool :=
  match ev with
  | ClickSequenceCell _ | CyclePattern _ _ | MovePattern _ _
  | ClickAddToSequence | ClickRemoveLast => true
  | _ => false
  end.

(** The events that move the playhead. *)
Definition movesPlayhead (ev : Event) : bool :=
  match ev with
  | WindowKeydown KeySpace _ | TimerFires _ => true
  | _ => false
  end.

(** ** ScaleTheory: roots, fifths and labels *)

Definition START_OCTAVE : Z := 1.

Definition isRootNote (st : State) (pitchIndex : Z) : bool :=
  let noteInOctave := Z.rem (NUM_PITCHES - 1 - pitchIndex) 12 in
  let rootIndex := getChromaticIndex (key st) in
  noteInOctave =? rootIndex.

Definition isFifthNote (st : State) (pitchIndex : Z) : bool :=
  let noteInOctave := Z.rem (NUM_PITCHES - 1 - pitchIndex) 12 in
  let rootIndex := getChromaticIndex (key st) in
  let fifthIndex := Z.rem (rootIndex + 7) 12 in
  noteInOctave =? fifthIndex.

Definition isFifthInScale (st : State) (pitchIndex : Z) : bool :=
  isFifthNote st pitchIndex && isInScale st pitchIndex.

Definition getNoteLabelClasses (st : State) (pitchIndex : Z) : string :=
  if isRootNote st pitchIndex then "font-semibold text-blue-400"
  else if isFifthInScale st pitchIndex then "font-semibold text-purple-400"
  else if isFifthNote st pitchIndex then "text-purple-600"
  else if isInScale st pitchIndex then "text-slate-300"
  else "text-slate-500".

(** The label [`${note}${octave}`], kept as the two values it is built
    from; [chromatic[i]] is [undefined] outside the list.  [Math.floor] of
    the quotient is [Z.div]. *)
Definition getNoteName (pitchIndex : Z) : option string * Z :=
  let octave := START_OCTAVE + (NUM_PITCHES - 1 - pitchIndex) / 12 in
  let note := zlookup chromatic (Z.rem (NUM_PITCHES - 1 - pitchIndex) 12) in
  (note, octave).

(** The MIDI note [playStep] hands to [playNote] for a pitch slot. *)
Definition midiOfPitch (pitchIndex : Z) : Z :=
  BASE_MIDI_NOTE + (NUM_PITCHES - 1 - pitchIndex).

(** Every layer of every pattern has as many steps as the pattern's meter
    asks for. *)
Definition LayersFit (st : State) : Prop :=
  forall p layer, p ∈ patterns st -> layer ∈ Pattern.layers p ->
                  zlength layer = stepsPerPattern st (Pattern.id p).

(** ** Vocabulary of the pointer gestures *)

Definition isInSelectionRect (st : State) (step pitch : Z) : bool :=
  match getSelectionRect st with
  | None => false
  | Some rect =>
      (minStep rect <=? step) && (step <=? maxStep rect)
      && (minPitch rect <=? pitch) && (pitch <=? maxPitch rect)
  end.

(** A cell the template does not disable. *)
Definition enabledAt (st : State) (pitchIndex : Z) : bool :=
  allowNonScaleNotes st || isInScale st pitchIndex.

(** What the scale lock reads. *)
Definition scaleView (st : State) : string * Scale * bool :=
  (key st, scale st, allowNonScaleNotes st).

(** A paint stroke with value [v] is under way. *)
Definition Painting (v : bool) (st : State) : Prop :=
  isSelectingRect st = false /\ isDragging st = false
  /\ isPainting st = true /\ paintTargetState st = v.

(** No gesture is under way. *)
Definition Idle (st : State) : Prop :=
  isSelectingRect st = false /\ isDragging st = false /\ isPainting st = false.

(** ** Vocabulary of the well-formed session *)

(** A grid coordinate the selection and the drag records may hold. *)
Definition cellOk (c : Cell) : Prop := 0 <= c.1 /\ 0 <= c.2 < NUM_PITCHES.

(** A dense layer of [n] steps. *)
Definition layerOk (n : Z) (layer : list Step) : Prop :=
  wfLayerb layer = true /\ zlength layer = n.

(** The step count a pattern's own meter fields ask for. *)
Definition patternSteps (p : Pattern.t) : Z :=
  clampBeatsPerMeasure (Pattern.beatsPerMeasure p)
  * clampStepsPerBeat (Pattern.stepsPerBeat p).

(** A pattern as [createPattern] makes it, up to the notes: two dense
    layers of the length its meter asks for. *)
Definition patternOk (p : Pattern.t) : Prop :=
  length (Pattern.layers p) = 2%nat
  /\ Forall (layerOk (patternSteps p)) (Pattern.layers p).

Definition validId (x : Z) : Prop :=
  MIN_PATTERN_ID <= x < MIN_PATTERN_ID + MAX_PATTERNS.

(** The shape [reset] gives the session: the eight patterns under their
    ids, each with two dense layers that fit its meter; a sequence of
    pattern ids; two synths, one of them selected; and coordinates in the
    selection and the drag records that name steps from 0 on and pitch
    slots of the grid. *)
Definition SessionOk (st : State) : Prop :=
  Pattern.id <$> patterns st = seqZ MIN_PATTERN_ID MAX_PATTERNS
  /\ Forall patternOk (patterns st)
  /\ Forall validId (sequence st)
  /\ zlength (synths st) = 2 /\ 0 <= selectedSynthIndex st < 2
  /\ Forall cellOk (selectedNotes st) /\ Forall cellOk (dragStartNotes st)
  /\ Forall cellOk (dragLastPositions st) /\ Forall cellOk (dragOverwrittenNotes st).

(** The variables [SessionOk] reads. *)
Definition okView (st : State)
  : list Pattern.t * list Z * list Synth.t * Z * list Cell
    * (list Cell * list Cell * list Cell) :=
  (patterns st, sequence st, synths st, selectedSynthIndex st, selectedNotes st,
   (dragStartNotes st, dragLastPositions st, dragOverwrittenNotes st)).

(** A layer update that keeps a layer dense and of its length. *)
Definition keepsLayers (f : list Step -> list Step) : Prop :=
  forall n layer, layerOk n layer -> layerOk n (f layer).

(** ** Vocabulary of the audio log *)

(** The MIDI notes of the oscillators a log starts, in order. *)
Definition startedNotes (log : list AudioOp) : list Z :=
  omap (fun op => match op with OscStart _ _ midi _ => Some midi | _ => None end) log.

(** The voices a log schedules a stop for. *)
Definition timedStops (log : list AudioOp) : list Voice :=
  omap (fun op => match op with OscStop v (Some _) => Some v | _ => None end) log.

(** The voices the registry holds. *)
Definition registeredVoices (a : Audio) : list Voice :=
  (fun kv => voice kv.2) <$> activeNotes a.

(** The registry names each key once, no voice twice, and only voices
    that have been created. *)
Definition RegistryOk (a : Audio) : Prop :=
  NoDup (activeNotes a).*1
  /\ NoDup (registeredVoices a)
  /\ Forall (fun v => (v < nextVoice a)%nat) (registeredVoices a).

(** ** Vocabulary of edit locality *)

(** Layer [j] of the pattern stored under id [x]. *)
Definition layerAt (st : State) (x j : Z) : option (list Step) :=
  match findPattern (patterns st) x with
  | Some p => zlookup (Pattern.layers p) j
  | None => None
  end.

(** The layer the grid shows: the displayed pattern and the selected
    synth. *)
Definition gridKey (st : State) : Z * Z := (displayedPatternId st, selectedSynthIndex st).

(** [st'] differs from [st] by notes of the shown layer at most. *)
Definition EditOf (st st' : State) : Prop :=
  gridKey st' = gridKey st
  /\ meterOf <$> patterns st' = meterOf <$> patterns st
  /\ forall x j, (x, j) <> gridKey st -> layerAt st' x j = layerAt st x j.

(** The events of the note editor: pointer events on the grid, release of
    the button, and keys. *)
Definition editsNotes (ev : Event) : bool :=
  match ev with
  | CellMousedown _ _ _ | CellMouseenter _ _ | WindowMouseup | WindowKeydown _ _ => true
  | _ => false
  end.


(** The MIDI notes of the active slots of step [k] of a layer, in slot
    order. *)
Definition notesOfStep (layer : list Step) (k : Z) : list Z :=
  match zlookup layer k with
  | Some s => midiOfPitch <$> List.filter (arrTruthy (pitches s)) (seqZ 0 NUM_PITCHES)
  | None => []
  end.


(** * Properties *)

(** ** Integers and lists *)

Lemma zlookup_Some {A : Type} (l : list A) (i : Z) (x : A) :
  zlookup l i = Some x <-> 0 <= i /\ l !! Z.to_nat i = Some x.
Proof.
  unfold zlookup. destruct (Z.ltb_spec i 0); split.
  - discriminate.
  - intros [? _]. lia.
  - auto.
  - tauto.
Qed.

Lemma zlookup_None {A : Type} (l : list A) (i : Z) :
  zlookup l i = None <-> i < 0 \/ zlength l <= i.
Proof.
  unfold zlookup, zlength. destruct (Z.ltb_spec i 0).
  - split; auto.
  - rewrite lookup_ge_None. lia.
Qed.

Lemma zlookup_is_Some {A : Type} (l : list A) (i : Z) :
  is_Some (zlookup l i) <-> 0 <= i < zlength l.
Proof.
  rewrite <- not_eq_None_Some, zlookup_None. lia.
Qed.

Lemma zlength_nonneg {A : Type} (l : list A) : 0 <= zlength l.
Proof. unfold zlength. lia. Qed.

Lemma zalter_length {A : Type} (f : A -> A) (i : Z) (l : list A) :
  zlength (zalter f i l) = zlength l.
Proof.
  unfold zalter, zlength. destruct (i <? 0); [done|]. by rewrite length_alter.
Qed.

Lemma zlookup_zalter {A : Type} (f : A -> A) (i j : Z) (l : list A) :
  zlookup (zalter f i l) j = if decide (i = j) then f <$> zlookup l j else zlookup l j.
Proof.
  unfold zalter, zlookup.
  destruct (Z.ltb_spec i 0), (Z.ltb_spec j 0); repeat case_decide; try done; try lia.
  - subst. by rewrite list_lookup_alter_eq.
  - rewrite list_lookup_alter_ne; [done|lia].
Qed.

(** ** Clamping *)

Lemma Qltb_false_le (a b : Q) : Qltb a b = false -> (b <= a)%Q.
Proof.
  unfold Qltb. rewrite negb_false_iff. apply Qle_bool_imp_le.
Qed.

Lemma mathTrunc_between (q : Q) (lo hi : Z) :
  0 <= lo -> (inject_Z lo <= q)%Q -> (q <= inject_Z hi)%Q -> lo <= mathTrunc q <= hi.
Proof.
  destruct q as [n d]. unfold Qle, mathTrunc, inject_Z. simpl. intros Hlo H1 H2.
  rewrite Z.quot_div_nonneg by nia. split.
  - apply Z.div_le_lower_bound; lia.
  - apply Z.div_le_upper_bound; lia.
Qed.

Lemma clampBeatsPerMeasure_range (v : JsNum) :
  MIN_BEATS_PER_MEASURE <= clampBeatsPerMeasure v <= MAX_BEATS_PER_MEASURE.
Proof.
  unfold clampBeatsPerMeasure. destruct v as [|q]; [done|].
  destruct (Qltb q _) eqn:H1; [done|].
  destruct (Qltb _ q) eqn:H2; [done|].
  apply mathTrunc_between; [done| |]; by apply Qltb_false_le.
Qed.

Lemma clampStepsPerBeat_range (v : JsNum) :
  MIN_STEPS_PER_BEAT <= clampStepsPerBeat v <= MAX_STEPS_PER_BEAT.
Proof.
  unfold clampStepsPerBeat. destruct v as [|q]; [done|].
  destruct (Qltb q _) eqn:H1; [done|].
  destruct (Qltb _ q) eqn:H2; [done|].
  apply mathTrunc_between; [done| |]; by apply Qltb_false_le.
Qed.

Lemma stepsPerPattern_pos (st : State) (pid : Z) : 1 <= stepsPerPattern st pid.
Proof.
  unfold stepsPerPattern. destruct (findPattern _ _) as [p|]; [|done].
  pose proof (clampBeatsPerMeasure_range (Pattern.beatsPerMeasure p)).
  pose proof (clampStepsPerBeat_range (Pattern.stepsPerBeat p)).
  unfold MIN_BEATS_PER_MEASURE, MIN_STEPS_PER_BEAT in *. nia.
Qed.

(** ** SequenceTimeline *)

Lemma foldl_steps_shift (st : State) (l : list Z) (a : Z) :
  foldl (fun sum patternId => sum + stepsPerPattern st patternId) a l = a + sumSteps st l.
Proof.
  unfold sumSteps. revert a. induction l as [|x l IH]; intros a; simpl; [lia|].
  rewrite (IH (a + _)), (IH (0 + _)). lia.
Qed.

Lemma sumSteps_cons (st : State) (x : Z) (l : list Z) :
  sumSteps st (x :: l) = stepsPerPattern st x + sumSteps st l.
Proof. unfold sumSteps at 1. simpl. by rewrite foldl_steps_shift. Qed.

Lemma sumSteps_app (st : State) (l1 l2 : list Z) :
  sumSteps st (l1 ++ l2) = sumSteps st l1 + sumSteps st l2.
Proof.
  induction l1 as [|x l1 IH]; simpl; [done|]. rewrite !sumSteps_cons, IH. lia.
Qed.

Lemma sumSteps_length (st : State) (l : list Z) : zlength l <= sumSteps st l.
Proof.
  induction l as [|x l IH]; [done|]. rewrite sumSteps_cons.
  pose proof (stepsPerPattern_pos st x). unfold zlength in *. simpl. lia.
Qed.

Lemma sumSteps_nonneg (st : State) (l : list Z) : 0 <= sumSteps st l.
Proof. pose proof (sumSteps_length st l). pose proof (zlength_nonneg l). lia. Qed.


Lemma getStepForSequenceIndex_nonneg (st : State) (i : Z) :
  0 <= getStepForSequenceIndex st i.
Proof. apply sumSteps_nonneg. Qed.

Lemma getStepForSequenceIndex_prefix (st : State) (pre rest : list Z) :
  sequence st = pre ++ rest ->
  getStepForSequenceIndex st (zlength pre) = sumSteps st pre.
Proof.
  intros H. unfold getStepForSequenceIndex, zlength. rewrite H, Nat2Z.id.
  by rewrite take_app_length.
Qed.

Lemma getPatternAtStepFrom_spec (st : State) (g : Z) (rest pre : list Z) :
  sequence st = pre ++ rest ->
  sumSteps st pre <= g ->
  match getPatternAtStepFrom st g (sumSteps st pre) (zlength pre) rest with
  | Some at_ => Resolves st g at_
  | None => totalSteps st <= g
  end.
Proof.
  revert pre. induction rest as [|pid rest IH]; intros pre Hseq Hacc; simpl.
  - change (totalSteps st) with (sumSteps st (sequence st)).
    by rewrite Hseq, app_nil_r.
  - destruct (Z.ltb_spec g (sumSteps st pre + stepsPerPattern st pid)) as [Hlt|Hge].
    + unfold Resolves; simpl.
      rewrite (getStepForSequenceIndex_prefix st pre (pid :: rest) Hseq).
      repeat split; try lia.
      * apply zlookup_Some. split; [apply zlength_nonneg|].
        unfold zlength. rewrite Nat2Z.id, Hseq. by rewrite list_lookup_middle.
      * change (totalSteps st) with (sumSteps st (sequence st)).
        rewrite Hseq, sumSteps_app, sumSteps_cons.
        pose proof (sumSteps_nonneg st rest). lia.
    + specialize (IH (pre ++ [pid])).
      rewrite sumSteps_app, sumSteps_cons in IH.
      replace (sumSteps st []) with 0 in IH by done.
      replace (zlength (pre ++ [pid])) with (zlength pre + 1) in IH
        by (unfold zlength; rewrite length_app; simpl; lia).
      rewrite Z.add_0_r in IH. apply IH; [|lia].
      by rewrite <- app_assoc.
Qed.

Lemma getPatternAtStep_spec (st : State) (g : Z) :
  0 <= g ->
  match getPatternAtStep st g with
  | Some at_ => Resolves st g at_
  | None => totalSteps st <= g
  end.
Proof.
  intros Hg. apply (getPatternAtStepFrom_spec st g (sequence st) []); [done|].
  by change (sumSteps st []) with 0.
Qed.

(** C2: [getPatternAtStep] scans the sequence accumulating step counts.
    For a step [g >= 0] it answers with the entry [g] falls inside, giving
    that entry's index, its pattern id and the offset of [g] from the
    entry's first step, exactly when [g] is below the sum of all step
    counts, and answers [null] for every [g] at or beyond that sum.  For
    three entries with step counts 8, 16 and 8, [totalSteps()] is 32,
    [getStepForSequenceIndex(2)] is 24 and [getPatternAtStep(24)] is the
    third entry at local step 0. *)
Theorem getPatternAtStep_resolves (st : State) (g : Z) (Hg : 0 <= g) :
  (g < totalSteps st ->
     exists at_, getPatternAtStep st g = Some at_ /\ Resolves st g at_
       /\ getStepForSequenceIndex st (patternIndex at_) <= g
          < getStepForSequenceIndex st (patternIndex at_)
            + stepsPerPattern st (patternId at_))
  /\ (totalSteps st <= g -> getPatternAtStep st g = None)
  /\ (forall a b c,
        sequence st = [a; b; c] ->
        stepsPerPattern st a = 8 -> stepsPerPattern st b = 16 ->
        stepsPerPattern st c = 8 ->
        totalSteps st = 32
        /\ getStepForSequenceIndex st 2 = 24
        /\ getPatternAtStep st 24
           = Some {| patternIndex := 2; stepInPattern := 0; patternId := c |}).
Proof.
  pose proof (getPatternAtStep_spec st g Hg) as Hspec.
  split; [|split].
  - intros Hlt. destruct (getPatternAtStep st g) as [at_|]; [|lia].
    exists at_. split; [done|]. split; [done|].
    destruct Hspec as (_ & Hloc & Hrange & _). lia.
  - intros Hge. destruct (getPatternAtStep st g) as [at_|]; [|done].
    destruct Hspec as (_ & _ & _ & Hlt). lia.
  - intros a b c Hseq Ha Hb Hc.
    unfold totalSteps, getStepForSequenceIndex, getPatternAtStep.
    rewrite Hseq. simpl. rewrite Ha, Hb, Hc. done.
Qed.

Lemma getPatternAtStep_resolves_witness :
  exists at_, getPatternAtStep threeEntries 24 = Some at_
              /\ patternIndex at_ = 2 /\ stepInPattern at_ = 0.
Proof.
  destruct (getPatternAtStep_resolves threeEntries 24 ltac:(lia)) as (H1 & _ & H3).
  destruct (H3 0 1 2) as (_ & _ & Hat); try reflexivity.
  eexists. split; [exact Hat|]. split; reflexivity.
Defined.

(** ** Pattern meter resize *)

Lemma findPattern_lookup (ps : list Pattern.t) (i : nat) (p : Pattern.t) :
  NoDup (Pattern.id <$> ps) -> ps !! i = Some p -> findPattern ps (Pattern.id p) = Some p.
Proof.
  unfold findPattern. revert i. induction ps as [|q ps IH]; intros i Hnd Hp; [done|].
  rewrite fmap_cons in Hnd. apply NoDup_cons in Hnd as [Hq Hnd]. simpl.
  destruct i as [|i]; simpl in Hp.
  - injection Hp as ->. by rewrite Z.eqb_refl.
  - destruct (Z.eqb_spec (Pattern.id q) (Pattern.id p)) as [Heq|_]; [|by eapply IH].
    exfalso. apply Hq. rewrite Heq. apply list_elem_of_fmap. exists p.
    split; [done|]. by eapply list_elem_of_lookup_2.
Qed.

Lemma resizeLayer_spec (n : Z) (layer : list Step) :
  0 <= n ->
  zlength (resizeLayer n layer) = n
  /\ (zlength layer < n ->
        resizeLayer n layer = layer ++ replicate (Z.to_nat (n - zlength layer)) emptyStep)
  /\ (n <= zlength layer -> resizeLayer n layer = take (Z.to_nat n) layer).
Proof.
  intros Hn. unfold resizeLayer, zlength.
  destruct (Z.eqb_spec (Z.of_nat (length layer)) n) as [Heq|Hne].
  - split; [done|]. split; [lia|]. intros _. rewrite take_ge; [done|lia].
  - destruct (Z.ltb_spec (Z.of_nat (length layer)) n) as [Hlt|Hge].
    + split; [|split; [done|lia]]. rewrite length_app, length_replicate. lia.
    + split; [|split; [lia|done]]. rewrite length_take. lia.
Qed.

Lemma arrFill_get (n : Z) (v : bool) (i : Z) :
  arrGet (arrFill n v) i = if bool_decide (0 <= i < n) then Some v else None.
Proof.
  unfold arrGet, arrFill. cbn [elems].
  case_bool_decide as Hi.
  - apply elem_of_list_to_map_1.
    + rewrite <- list_fmap_compose. apply NoDup_fmap_2_strong, NoDup_seqZ.
      intros x y _ _ Hxy. exact Hxy.
    + apply list_elem_of_fmap. exists i. split; [done|]. apply elem_of_seqZ. lia.
  - apply not_elem_of_list_to_map_1. rewrite <- list_fmap_compose.
    intros Hin. apply list_elem_of_fmap in Hin as (j & -> & Hj).
    apply elem_of_seqZ in Hj. simpl in Hi. lia.
Qed.

Lemma emptyStep_inactive (pitch : Z) : arrTruthy (pitches emptyStep) pitch = false.
Proof.
  unfold arrTruthy, emptyStep. cbn [pitches]. rewrite arrFill_get.
  by case_bool_decide.
Qed.



(** ** TransportScheduler *)

Lemma set_audio_same (st : State) : set_audio (audio st) st = st.
Proof. by destruct st. Qed.

Lemma playLayers_returns (now stepDur : Q) (layers : list (list Step)) (stepInPattern : Z)
    (rest : list Synth.t) (synthIndex : Z) (a : Audio) :
  0 <= stepInPattern ->
  exists a', playLayers now stepDur layers stepInPattern synthIndex rest a = Returned a'.
Proof.
  intros Hnonneg. revert synthIndex a.
  induction rest as [|synth rest IH]; intros synthIndex a; simpl; [by eexists|].
  destruct (zlookup layers synthIndex) as [layer|]; [|apply IH].
  destruct (Z.leb_spec (zlength layer) stepInPattern) as [|Hlt]; [apply IH|].
  destruct (zlookup layer stepInPattern) eqn:Hrow; [apply IH|].
  apply zlookup_None in Hrow. lia.
Qed.

Lemma playStep_returns (now : Q) (z : Z) (st : State) :
  0 <= z -> exists a, playStep now (Int z) st = Returned (set_audio a st).
Proof.
  intros Hz. unfold playStep. cbn [getPatternAtStepJs].
  pose proof (getPatternAtStep_spec st z Hz) as Hspec.
  destruct (getPatternAtStep st z) as [at_|];
    [|exists (audio st); by rewrite set_audio_same].
  destruct (findPattern _ _) as [pattern|];
    [|exists (audio st); by rewrite set_audio_same].
  destruct Hspec as (_ & _ & Hlocal & _).
  destruct (playLayers_returns now (stepDurationSeconds st) (Pattern.layers pattern)
              (stepInPattern at_) (synths st) 0 (audio st)) as [a Ha]; [lia|].
  exists a. by rewrite Ha.
Qed.

Lemma start_returns (now : Q) (st : State) :
  isPlaying st = false ->
  exists a,
    start now st
    = Returned (armTimer (set_audio a
        (set_currentStep (Int (getStepForSequenceIndex st (selectedSequenceIndex st)))
           (set_isPlaying true st)))).
Proof.
  intros Hstopped. unfold start. rewrite Hstopped.
  set (st2 := set_currentStep _ _).
  destruct (playStep_returns now (getStepForSequenceIndex (set_isPlaying true st)
              (selectedSequenceIndex (set_isPlaying true st))) st2) as [a Ha].
  { apply getStepForSequenceIndex_nonneg. }
  exists a. change (currentStep st2) with
    (Int (getStepForSequenceIndex (set_isPlaying true st)
            (selectedSequenceIndex (set_isPlaying true st)))).
  by rewrite Ha.
Qed.






(** ** NoteDispatcher: the registry of sustained voices *)

Section Registry.

Implicit Types (m : list (NoteKey * ActiveNote)) (k : NoteKey) (v : ActiveNote).

Lemma mapSet_keys m k v :
  (mapSet m k v).*1 = if decide (k ∈ m.*1) then m.*1 else m.*1 ++ [k].
Proof.
  induction m as [|[k' v'] m IH]; [done|].
  cbn [mapSet]. rewrite fmap_cons. cbn [fst].
  destruct (decide (k' = k)) as [->|Hne].
  - rewrite fmap_cons. cbn [fst]. rewrite decide_True; [done|]. apply elem_of_cons. by left.
  - rewrite fmap_cons, IH. cbn [fst]. destruct (decide (k ∈ m.*1)) as [Hin|Hnotin].
    + rewrite decide_True; [done|]. apply elem_of_cons. by right.
    + rewrite decide_False; [done|]. intros [?|?]%elem_of_cons; congruence.
Qed.

Lemma mapDelete_keys m k : (mapDelete m k).*1 = filter (fun k' => k' <> k) m.*1.
Proof.
  induction m as [|[k' v'] m IH]; [done|].
  cbn [mapDelete]. rewrite fmap_cons, filter_cons. cbn [fst].
  destruct (decide (k' = k)) as [->|Hne].
  - rewrite decide_False; [done|]. intros H. by apply H.
  - rewrite decide_True by done. by rewrite fmap_cons, IH.
Qed.

Lemma mapGet_mapSet m k v : mapGet (mapSet m k v) k = Some v.
Proof.
  induction m as [|[k' v'] m IH]; simpl.
  - by rewrite decide_True.
  - destruct (decide (k' = k)) as [->|Hne]; simpl.
    + by rewrite decide_True.
    + by rewrite decide_False.
Qed.

Lemma mapSet_NoDup m k v : NoDup m.*1 -> NoDup (mapSet m k v).*1.
Proof.
  intros Hnd. rewrite mapSet_keys. case_decide; [done|].
  apply NoDup_app. split; [done|]. split; [|apply NoDup_singleton].
  intros x Hx ->%list_elem_of_singleton. done.
Qed.

Lemma mapDelete_NoDup m k : NoDup m.*1 -> NoDup (mapDelete m k).*1.
Proof. intros Hnd. rewrite mapDelete_keys. by apply NoDup_filter. Qed.

Lemma mapSet_elem m k v : k ∈ (mapSet m k v).*1.
Proof.
  rewrite mapSet_keys. case_decide; [done|]. apply elem_of_app. right.
  by apply list_elem_of_singleton.
Qed.

Lemma count_key_NoDup m k :
  NoDup m.*1 ->
  length (filter (fun kv => kv.1 = k) m) = if decide (k ∈ m.*1) then 1%nat else 0%nat.
Proof.
  induction m as [|[k' v'] m IH]; intros Hnd; [done|].
  rewrite fmap_cons in Hnd. apply NoDup_cons in Hnd as [Hk' Hnd]. cbn [fst] in Hk'.
  rewrite filter_cons, fmap_cons. cbn [fst]. specialize (IH Hnd).
  destruct (decide (k' = k)) as [->|Hne].
  - cbn [length]. rewrite IH, decide_False by done. rewrite decide_True; [done|].
    apply elem_of_cons. by left.
  - rewrite IH. destruct (decide (k ∈ m.*1)) as [Hin|Hnotin].
    + rewrite decide_True; [done|]. apply elem_of_cons. by right.
    + rewrite decide_False; [done|]. intros [?|?]%elem_of_cons; congruence.
Qed.

End Registry.

Lemma startVoice_activeNotes (midiNote : Z) (time duration : Q) (synth : Synth.t) (a : Audio) :
  activeNotes (startVoice midiNote time duration synth a)
  = if Synth.legatoSameNote synth
    then mapSet (activeNotes a) (Synth.id synth, midiNote)
                {| voice := nextVoice a; releaseAt := (time + duration)%Q |}
    else activeNotes a.
Proof. unfold startVoice. simpl. by destruct (Synth.legatoSameNote synth). Qed.

(** Where a legato dispatch leaves the registry: the key is (re)written
    over the old registry or over the old registry without that key. *)
Lemma playCall_legato (a : Audio) (c : NoteCall) :
  Synth.legatoSameNote (callSynth c) = true ->
  exists m v,
    activeNotes (playCall a c) = mapSet m (callKey c) v
    /\ releaseAt v = (callTime c + callDuration c)%Q
    /\ (m = activeNotes a \/ m = mapDelete (activeNotes a) (callKey c)).
Proof.
  intros Hlegato. unfold playCall, playNote, callKey. rewrite Hlegato.
  destruct (mapGet _ _) as [existing|].
  - destruct (Qltb _ _).
    + eexists _, _. simpl. split; [reflexivity|]. split; [reflexivity|]. by left.
    + rewrite startVoice_activeNotes, Hlegato.
      eexists _, _. simpl. split; [reflexivity|]. split; [reflexivity|]. by right.
  - rewrite startVoice_activeNotes, Hlegato.
    eexists _, _. split; [reflexivity|]. split; [reflexivity|]. by left.
Qed.

Lemma playCall_nonlegato (a : Audio) (c : NoteCall) :
  Synth.legatoSameNote (callSynth c) = false ->
  activeNotes (playCall a c) = activeNotes a.
Proof.
  intros Hlegato. unfold playCall, playNote. rewrite Hlegato.
  by rewrite startVoice_activeNotes, Hlegato.
Qed.

Lemma playCall_NoDup (a : Audio) (c : NoteCall) :
  NoDup (activeNotes a).*1 -> NoDup (activeNotes (playCall a c)).*1.
Proof.
  intros Hnd. destruct (Synth.legatoSameNote (callSynth c)) eqn:Hlegato.
  - destruct (playCall_legato a c Hlegato) as (m & v & -> & _ & [->| ->]).
    + by apply mapSet_NoDup.
    + by apply mapSet_NoDup, mapDelete_NoDup.
  - by rewrite playCall_nonlegato.
Qed.

Lemma playCalls_NoDup (calls : list NoteCall) (a : Audio) :
  NoDup (activeNotes a).*1 -> NoDup (activeNotes (foldl playCall a calls)).*1.
Proof.
  revert a. induction calls as [|c calls IH]; intros a Hnd; simpl; [done|].
  by apply IH, playCall_NoDup.
Qed.

Lemma playCall_legato_single (a : Audio) (c : NoteCall) :
  NoDup (activeNotes a).*1 ->
  Synth.legatoSameNote (callSynth c) = true ->
  entriesFor (playCall a c) (callKey c) = 1%nat.
Proof.
  intros Hnd Hlegato. unfold entriesFor.
  rewrite count_key_NoDup by by apply playCall_NoDup.
  rewrite decide_True; [done|].
  destruct (playCall_legato a c Hlegato) as (m & v & -> & _). apply mapSet_elem.
Qed.

Lemma startVoice_nextVoice (midiNote : Z) (time duration : Q) (synth : Synth.t) (a : Audio) :
  nextVoice (startVoice midiNote time duration synth a) = S (nextVoice a).
Proof. unfold startVoice. simpl. by destruct (Synth.legatoSameNote synth). Qed.

Lemma startVoice_keeps_log (midiNote : Z) (time duration : Q) (synth : Synth.t) (a : Audio)
    (op : AudioOp) :
  op ∈ audioLog a -> op ∈ audioLog (startVoice midiNote time duration synth a).
Proof.
  intros Hop. unfold startVoice. simpl.
  destruct (Synth.legatoSameNote synth); simpl; rewrite ?elem_of_app; auto.
Qed.

(** A dispatch for a legato synth whose key is registered either keeps
    the registered voice and creates none, or stops and disconnects it
    and registers a fresh one. *)
Lemma playCall_legato_voice (a : Audio) (c : NoteCall) (old : ActiveNote) :
  Synth.legatoSameNote (callSynth c) = true ->
  mapGet (activeNotes a) (callKey c) = Some old ->
  exists new,
    mapGet (activeNotes (playCall a c)) (callKey c) = Some new
    /\ ((voice new = voice old /\ nextVoice (playCall a c) = nextVoice a)
        \/ (voice new = nextVoice a
            /\ nextVoice (playCall a c) = S (nextVoice a)
            /\ OscStop (voice old) None ∈ audioLog (playCall a c)
            /\ GainDisconnect (voice old) ∈ audioLog (playCall a c))).
Proof.
  intros Hlegato Hold. unfold playCall, playNote.
  change (Synth.id (callSynth c), callMidi c) with (callKey c).
  rewrite Hlegato, Hold. destruct (Qltb _ _).
  - eexists. cbn [activeNotes set_activeNotes emit nextVoice].
    split; [apply mapGet_mapSet|]. left. by split.
  - eexists. rewrite startVoice_activeNotes, Hlegato, startVoice_nextVoice.
    change (Synth.id (callSynth c), callMidi c) with (callKey c).
    split; [apply mapGet_mapSet|]. right.
    cbn [activeNotes set_activeNotes emit nextVoice voice].
    split_and!; [done|done|apply startVoice_keeps_log|apply startVoice_keeps_log];
      cbn [audioLog set_activeNotes emit]; rewrite elem_of_app; right;
      rewrite !elem_of_cons; auto.
Qed.

(** C4: the registry never holds two entries under one
    [(synthId, midiNote)] key, whatever is dispatched; a dispatch for a
    legato synth leaves exactly one entry under its key, in particular
    when it follows another dispatch for the same synth and note and
    comes before that one's scheduled release: the entry then holds
    either the voice of the first dispatch, and no voice has been
    created, or a fresh voice, and the voice of the first dispatch has
    been stopped and disconnected; a dispatch for a synth without legato
    leaves the registry as it was. *)
Theorem legato_registry (a : Audio) (calls : list NoteCall)
    (Hnd : NoDup (activeNotes a).*1) :
  let a' := foldl playCall a calls in
  (forall k, (entriesFor a' k <= 1)%nat)
  /\ (forall c, Synth.legatoSameNote (callSynth c) = true ->
                entriesFor (playCall a' c) (callKey c) = 1%nat)
  /\ (forall c1 c2,
        Synth.legatoSameNote (callSynth c1) = true ->
        Synth.legatoSameNote (callSynth c2) = true ->
        callKey c2 = callKey c1 ->
        (callNow c2 < callTime c1 + callDuration c1)%Q ->
        let a1 := playCall a' c1 in
        let a2 := playCall a1 c2 in
        entriesFor a2 (callKey c1) = 1%nat
        /\ exists first second,
             mapGet (activeNotes a1) (callKey c1) = Some first
             /\ mapGet (activeNotes a2) (callKey c1) = Some second
             /\ ((voice second = voice first /\ nextVoice a2 = nextVoice a1)
                 \/ (voice second = nextVoice a1
                     /\ nextVoice a2 = S (nextVoice a1)
                     /\ OscStop (voice first) None ∈ audioLog a2
                     /\ GainDisconnect (voice first) ∈ audioLog a2)))
  /\ (forall c, Synth.legatoSameNote (callSynth c) = false ->
                activeNotes (playCall a' c) = activeNotes a').
Proof.
  intros a'. pose proof (playCalls_NoDup calls a Hnd) as Hnd'. fold a' in Hnd'.
  split_and!.
  - intros k. unfold entriesFor. rewrite count_key_NoDup by done. case_decide; lia.
  - intros c Hc. by apply playCall_legato_single.
  - intros c1 c2 H1 H2 Hkey _ a1 a2. split.
    + rewrite <- Hkey. apply playCall_legato_single; [|done]. by apply playCall_NoDup.
    + destruct (playCall_legato a' c1 H1) as (m & v & Hm & _ & _).
      assert (Hfirst : mapGet (activeNotes a1) (callKey c2) = Some v).
      { unfold a1. rewrite Hm, Hkey. apply mapGet_mapSet. }
      destruct (playCall_legato_voice a1 c2 v H2 Hfirst) as (new & Hnew & Hcases).
      exists v, new. rewrite <- Hkey. by split_and!.
  - intros c Hc. by apply playCall_nonlegato.
Qed.

Lemma legato_registry_witness :
  entriesFor (playCall (foldl playCall (audio reset) [tiedCall 0]) (tiedCall (1 / 10)))
             (callKey (tiedCall (1 / 10))) = 1%nat.
Proof.
  destruct (legato_registry (audio reset) [tiedCall 0]) as (_ & H & _).
  - apply NoDup_nil_2.
  - apply H. reflexivity.
Defined.

(** ** Reading and writing cells of a layer *)

Lemma arrTruthy_arrSet (a : BoolArray) (i j : Z) (v : bool) :
  arrTruthy (arrSet a i v) j = if decide (i = j) then v else arrTruthy a j.
Proof.
  unfold arrTruthy, arrGet, arrSet. cbn [elems]. rewrite lookup_insert.
  by destruct (decide (i = j)).
Qed.

Lemma writeCell_length (step pitch : Z) (v : bool) (layer : list Step) :
  zlength (writeCell step pitch v layer) = zlength layer.
Proof. apply zalter_length. Qed.

Lemma cellActive_writeCell (step pitch : Z) (v : bool) (layer : list Step) (c : Cell) :
  is_Some (zlookup layer step) ->
  cellActive (writeCell step pitch v layer) c
  = if decide (c = (step, pitch)) then v else cellActive layer c.
Proof.
  intros [row Hrow]. destruct c as [s p]. unfold cellActive, writeCell. cbn [fst snd].
  rewrite zlookup_zalter. destruct (decide (step = s)) as [->|Hs].
  - rewrite Hrow. cbn [fmap option_fmap option_map pitches].
    rewrite arrTruthy_arrSet. destruct (decide (pitch = p)) as [->|Hp].
    + by rewrite decide_True.
    + rewrite decide_False; [done|]. congruence.
  - rewrite decide_False; [done|]. congruence.
Qed.

Lemma clearOne_length (layer : list Step) (c : Cell) :
  zlength (clearOne layer c) = zlength layer.
Proof. unfold clearOne. destruct (zlookup _ _); [apply writeCell_length|done]. Qed.

Lemma setOne_length (layer : list Step) (c : Cell) :
  zlength (setOne layer c) = zlength layer.
Proof. unfold setOne. destruct (inGrid _ _); [apply writeCell_length|done]. Qed.

Lemma foldl_clearOne_length (ps : list Cell) (layer : list Step) :
  zlength (foldl clearOne layer ps) = zlength layer.
Proof.
  revert layer. induction ps as [|c ps IH]; intros layer; simpl; [done|].
  by rewrite IH, clearOne_length.
Qed.

Lemma foldl_setOne_length (ps : list Cell) (layer : list Step) :
  zlength (foldl setOne layer ps) = zlength layer.
Proof.
  revert layer. induction ps as [|c ps IH]; intros layer; simpl; [done|].
  by rewrite IH, setOne_length.
Qed.

Lemma inGrid_row (layer : list Step) (c : Cell) :
  inGrid layer c = true -> is_Some (zlookup layer c.1).
Proof.
  unfold inGrid, inBounds. intros H. apply zlookup_is_Some.
  repeat (apply andb_prop in H as [H ?]). lia.
Qed.

Lemma cellActive_clearOne (layer : list Step) (c' c : Cell) :
  cellActive (clearOne layer c') c
  = if decide (c = c') then false else cellActive layer c.
Proof.
  unfold clearOne. destruct (zlookup layer c'.1) as [row|] eqn:Hrow.
  - rewrite cellActive_writeCell by by eexists. by destruct c'.
  - destruct (decide (c = c')) as [->|]; [|done].
    unfold cellActive. by rewrite Hrow.
Qed.

Lemma cellActive_setOne (layer : list Step) (c' c : Cell) :
  cellActive (setOne layer c') c
  = cellActive layer c || (bool_decide (c = c') && inGrid layer c').
Proof.
  unfold setOne. destruct (inGrid layer c') eqn:Hin.
  - rewrite cellActive_writeCell by by apply inGrid_row.
    destruct c' as [s p]. cbn [fst snd]. case_bool_decide.
    + rewrite decide_True by done. by rewrite orb_true_r.
    + rewrite decide_False by done. by rewrite orb_false_r.
  - by rewrite andb_false_r, orb_false_r.
Qed.

Lemma inGrid_length (layer layer' : list Step) (c : Cell) :
  zlength layer' = zlength layer -> inGrid layer' c = inGrid layer c.
Proof. unfold inGrid. by intros ->. Qed.

Lemma cellActive_foldl_clearOne (ps : list Cell) (layer : list Step) (c : Cell) :
  cellActive (foldl clearOne layer ps) c
  = cellActive layer c && negb (bool_decide (c ∈ ps)).
Proof.
  revert layer. induction ps as [|c' ps IH]; intros layer; cbn [foldl].
  - rewrite bool_decide_eq_false_2 by apply not_elem_of_nil. by rewrite andb_true_r.
  - rewrite IH, cellActive_clearOne.
    destruct (decide (c = c')) as [->|Hne].
    + rewrite (bool_decide_eq_true_2 (c' ∈ c' :: ps)) by (apply elem_of_cons; by left).
      by rewrite andb_false_r.
    + f_equal. f_equal. apply bool_decide_ext. rewrite elem_of_cons. tauto.
Qed.

Lemma cellActive_foldl_setOne (ps : list Cell) (layer : list Step) (c : Cell) :
  cellActive (foldl setOne layer ps) c
  = cellActive layer c || (bool_decide (c ∈ ps) && inGrid layer c).
Proof.
  revert layer. induction ps as [|c' ps IH]; intros layer; cbn [foldl].
  - rewrite bool_decide_eq_false_2 by apply not_elem_of_nil. by rewrite orb_false_r.
  - rewrite IH, cellActive_setOne.
    rewrite (inGrid_length layer (setOne layer c')) by apply setOne_length.
    destruct (decide (c = c')) as [<-|Hne].
    + rewrite (bool_decide_eq_true_2 (c = c)) by done.
      rewrite (bool_decide_eq_true_2 (c ∈ c :: ps)) by (apply elem_of_cons; by left).
      destruct (cellActive layer c), (inGrid layer c), (bool_decide (c ∈ ps)); done.
    + rewrite (bool_decide_eq_false_2 (c = c')) by done.
      rewrite (bool_decide_ext (c ∈ c' :: ps) (c ∈ ps)) by (rewrite elem_of_cons; tauto).
      by rewrite andb_false_l, orb_false_r.
Qed.

(** ** The current layer under writes *)

Lemma findPattern_meters (ps ps' : list Pattern.t) (x : Z) :
  meterOf <$> ps = meterOf <$> ps' ->
  meterOf <$> findPattern ps x = meterOf <$> findPattern ps' x.
Proof.
  unfold findPattern. revert ps'.
  induction ps as [|p ps IH]; intros [|p' ps'] Heq; try done.
  rewrite !fmap_cons in Heq. injection Heq as Hid Hbeats Hsteps Hps. cbn [List.find].
  rewrite Hid. destruct (Pattern.id p' =? x); [|by apply IH].
  simpl. unfold meterOf. by rewrite Hid, Hbeats, Hsteps.
Qed.

Lemma stepsPerPattern_meters (st st' : State) (x : Z) :
  meterOf <$> patterns st = meterOf <$> patterns st' ->
  stepsPerPattern st x = stepsPerPattern st' x.
Proof.
  intros Heq. unfold stepsPerPattern.
  pose proof (findPattern_meters _ _ x Heq) as Hfind.
  destruct (findPattern (patterns st) x) as [p|], (findPattern (patterns st') x) as [p'|];
    try done.
  simpl in Hfind. unfold meterOf in Hfind. congruence.
Qed.

Lemma getPatternAtStepFrom_meters (st st' : State) (g acc i : Z) (rest : list Z) :
  meterOf <$> patterns st = meterOf <$> patterns st' ->
  getPatternAtStepFrom st g acc i rest = getPatternAtStepFrom st' g acc i rest.
Proof.
  intros Heq. revert acc i. induction rest as [|pid rest IH]; intros acc i; simpl; [done|].
  rewrite (stepsPerPattern_meters st st' pid Heq). by rewrite IH.
Qed.

Lemma displayedPatternId_meters (st st' : State) :
  meterOf <$> patterns st = meterOf <$> patterns st' ->
  sequence st = sequence st' ->
  selectedSequenceIndex st = selectedSequenceIndex st' ->
  isPlaying st = isPlaying st' ->
  currentStep st = currentStep st' ->
  displayedPatternId st = displayedPatternId st'.
Proof.
  intros Hm Hseq Hsel Hplay Hstep.
  unfold displayedPatternId, selectedPatternId, getPatternAtStepJs, getPatternAtStep.
  rewrite Hseq, Hsel, Hplay, Hstep.
  destruct (currentStep st'); [done|].
  by rewrite (getPatternAtStepFrom_meters st st' _ _ _ _ Hm).
Qed.

Lemma updateFirst_meters (P : Pattern.t -> bool) (g : Pattern.t -> Pattern.t)
    (ps : list Pattern.t) :
  (forall p, meterOf (g p) = meterOf p) ->
  meterOf <$> updateFirst P g ps = meterOf <$> ps.
Proof.
  intros Hg. induction ps as [|p ps IH]; [done|]. cbn [updateFirst].
  destruct (P p); rewrite !fmap_cons; [by rewrite Hg|by rewrite IH].
Qed.

Lemma findPattern_updateFirst (d : Z) (g : Pattern.t -> Pattern.t) (ps : list Pattern.t) :
  (forall p, Pattern.id (g p) = Pattern.id p) ->
  findPattern (updateFirst (fun p => Pattern.id p =? d) g ps) d = g <$> findPattern ps d.
Proof.
  intros Hg. unfold findPattern. induction ps as [|p ps IH]; [done|].
  cbn [updateFirst List.find]. destruct (Pattern.id p =? d) eqn:Hp; cbn [List.find].
  - by rewrite Hg, Hp.
  - by rewrite Hp, IH.
Qed.


Lemma zalter_same {A : Type} (f : A -> A) (i : Z) (l : list A) (x : A) :
  zlookup l i = Some x -> f x = x -> zalter f i l = l.
Proof.
  intros [Hi Hx]%zlookup_Some Hf. unfold zalter.
  destruct (Z.ltb_spec i 0); [done|].
  apply list_eq. intros j. destruct (decide (Z.to_nat i = j)) as [<-|Hne].
  - rewrite list_lookup_alter_eq, Hx. simpl. by rewrite Hf.
  - by rewrite list_lookup_alter_ne.
Qed.

Lemma set_patterns_same (st : State) : set_patterns (patterns st) st = st.
Proof. by destruct st. Qed.

Lemma withLayers_same (f : list (list Step) -> list (list Step)) (p : Pattern.t) :
  f (Pattern.layers p) = Pattern.layers p -> withLayers f p = p.
Proof. intros H. unfold withLayers. rewrite H. by destruct p. Qed.

Lemma getCurrentLayer_Some (st : State) (layer : list Step) :
  getCurrentLayer st = Some layer <->
  exists pattern,
    findPattern (patterns st) (displayedPatternId st) = Some pattern
    /\ zlookup (Pattern.layers pattern) (selectedSynthIndex st) = Some layer.
Proof.
  unfold getCurrentLayer. destruct (findPattern _ _) as [pattern|].
  - destruct (Z.leb_spec (zlength (Pattern.layers pattern)) (selectedSynthIndex st)) as [Hle|Hlt].
    + split; [done|]. intros (p & [= <-] & Hl).
      assert (is_Some (zlookup (Pattern.layers pattern) (selectedSynthIndex st))) as Hs
        by by eexists.
      apply zlookup_is_Some in Hs. lia.
    + split; [by exists pattern|]. by intros (p & [= <-] & Hl).
  - split; [done|]. by intros (p & ? & _).
Qed.


Lemma updateCurrentLayer_displayed (f : list Step -> list Step) (st : State) :
  displayedPatternId (updateCurrentLayer f st) = displayedPatternId st.
Proof.
  apply displayedPatternId_meters; try done.
  unfold updateCurrentLayer. cbn. by apply updateFirst_meters.
Qed.

(** The layer read back after a write is the written layer. *)
Lemma getCurrentLayer_update (f : list Step -> list Step) (st : State) (layer : list Step) :
  getCurrentLayer st = Some layer ->
  getCurrentLayer (updateCurrentLayer f st) = Some (f layer).
Proof.
  intros (pattern & Hfind & Hlayer)%getCurrentLayer_Some.
  apply getCurrentLayer_Some. rewrite updateCurrentLayer_displayed.
  exists (withLayers (zalter f (selectedSynthIndex st)) pattern). split.
  - unfold updateCurrentLayer. cbn [patterns set_patterns].
    rewrite findPattern_updateFirst by done. by rewrite Hfind.
  - cbn. rewrite zlookup_zalter, decide_True by done. by rewrite Hlayer.
Qed.

Lemma updateFirst_compose {A : Type} (P : A -> bool) (f g : A -> A) (l : list A) :
  (forall x, P (f x) = P x) ->
  updateFirst P g (updateFirst P f l) = updateFirst P (fun x => g (f x)) l.
Proof.
  intros HP. induction l as [|x l IH]; [done|]. cbn [updateFirst].
  destruct (P x) eqn:Hx; cbn [updateFirst].
  - by rewrite HP, Hx.
  - by rewrite Hx, IH.
Qed.

Lemma updateCurrentLayer_compose (f g : list Step -> list Step) (st : State) :
  updateCurrentLayer g (updateCurrentLayer f st) = updateCurrentLayer (fun l => g (f l)) st.
Proof.
  unfold updateCurrentLayer at 1. rewrite updateCurrentLayer_displayed.
  unfold updateCurrentLayer. unfold set_patterns. cbn [patterns sequence selectedSequenceIndex
    isPlaying currentStep bpm stepsPerBeat key scale allowNonScaleNotes synths
    selectedSynthIndex isPainting paintTargetState selectedNotes selectionRectAnchor
    selectionRectExtent isSelectingRect isDragging dragStartCell dragStartNotes
    dragLastPositions dragOverwrittenNotes isCloning audio timeoutId].
  rewrite updateFirst_compose by done. f_equal.
  induction (patterns st) as [|p ps IH]; [done|]. cbn [updateFirst].
  destruct (Pattern.id p =? displayedPatternId st); [|by rewrite IH].
  f_equal. unfold withLayers. cbn [Pattern.id Pattern.beatsPerMeasure Pattern.stepsPerBeat
    Pattern.layers]. f_equal. unfold zalter.
  destruct (selectedSynthIndex st <? 0); [done|]. by rewrite list_alter_alter_eq.
Qed.

Lemma displayedPatternId_sameGrid (st st' : State) :
  sameGrid st st' -> displayedPatternId st = displayedPatternId st'.
Proof.
  intros (Hp & Hseq & Hsel & Hplay & Hstep & _).
  apply displayedPatternId_meters; try done. by rewrite Hp.
Qed.

Lemma getCurrentLayer_sameGrid (st st' : State) :
  sameGrid st st' -> getCurrentLayer st = getCurrentLayer st'.
Proof.
  intros H. pose proof (displayedPatternId_sameGrid st st' H) as Hd.
  destruct H as (Hp & _ & _ & _ & _ & Hsynth).
  unfold getCurrentLayer. by rewrite Hp, Hd, Hsynth.
Qed.

Lemma clearNotesAt_layer (ps : list Cell) (st : State) (layer : list Step) :
  getCurrentLayer st = Some layer ->
  clearNotesAt ps st = updateCurrentLayer (fun l => foldl clearOne l ps) st
  /\ getCurrentLayer (clearNotesAt ps st) = Some (foldl clearOne layer ps).
Proof.
  intros H. unfold clearNotesAt. rewrite H. split; [done|].
  by apply (getCurrentLayer_update (fun l => foldl clearOne l ps)).
Qed.

Lemma setNotesAt_layer (ps : list Cell) (st : State) (layer : list Step) :
  getCurrentLayer st = Some layer ->
  setNotesAt ps st = updateCurrentLayer (fun l => foldl setOne l ps) st
  /\ getCurrentLayer (setNotesAt ps st) = Some (foldl setOne layer ps).
Proof.
  intros H. unfold setNotesAt. rewrite H. split; [done|].
  by apply (getCurrentLayer_update (fun l => foldl setOne l ps)).
Qed.

(** ** Selection sets *)

Lemma elem_of_setAdd (s : list Cell) (k c : Cell) : c ∈ setAdd s k <-> c ∈ s \/ c = k.
Proof.
  unfold setAdd, setHas. case_bool_decide as Hk.
  - split; [auto|]. intros [?| ->]; done.
  - rewrite elem_of_app, list_elem_of_singleton. tauto.
Qed.

Lemma elem_of_foldl_setAdd (l s : list Cell) (c : Cell) :
  c ∈ foldl setAdd s l <-> c ∈ s \/ c ∈ l.
Proof.
  revert s. induction l as [|k l IH]; intros s; cbn [foldl].
  - rewrite elem_of_nil. tauto.
  - rewrite IH, elem_of_setAdd, elem_of_cons. tauto.
Qed.

Lemma elem_of_newSet (l : list Cell) (c : Cell) : c ∈ newSet l <-> c ∈ l.
Proof. unfold newSet. rewrite elem_of_foldl_setAdd, elem_of_nil. tauto. Qed.

Lemma selection_nonempty (st : State) :
  selectedNotes st <> [] ->
  (0 <? zlength (selectedNotes st)) = true /\ getSelectedNotesArray st <> [].
Proof.
  intros H. unfold zlength, getSelectedNotesArray.
  destruct (selectedNotes st); [done|]. split; [apply Z.ltb_lt; simpl; lia|done].
Qed.

(** ** Keyboard nudge *)

Lemma forallb_inBounds_inGrid (layer : list Step) (ps : list Cell) (c : Cell) :
  forallb (inBounds (zlength layer)) ps = true -> c ∈ ps -> inGrid layer c = true.
Proof.
  intros Hall Hc. rewrite forallb_forall in Hall. apply Hall. by apply list_elem_of_In.
Qed.

Lemma moveSelectedNotes_accept (deltaStep deltaPitch : Z) (st : State) (layer : list Step) :
  getCurrentLayer st = Some layer ->
  getSelectedNotesArray st <> [] ->
  forallb (inBounds (zlength layer))
          (translate deltaStep deltaPitch <$> getSelectedNotesArray st) = true ->
  let notes := getSelectedNotesArray st in
  let moved := translate deltaStep deltaPitch <$> notes in
  let st' := moveSelectedNotes deltaStep deltaPitch st in
  st' = set_selectedNotes (newSet moved) (setNotesAt moved (clearNotesAt notes st))
  /\ getCurrentLayer st' = Some (foldl setOne (foldl clearOne layer notes) moved)
  /\ forall c, cellActive (foldl setOne (foldl clearOne layer notes) moved) c
               = (cellActive layer c && negb (bool_decide (c ∈ notes)))
                 || bool_decide (c ∈ moved).
Proof.
  intros Hlayer Hne Hin notes moved st'. subst st'. unfold moveSelectedNotes.
  rewrite Hlayer. fold notes. rewrite bool_decide_eq_false_2 by done.
  fold moved. fold notes moved in Hin. rewrite Hin.
  destruct (clearNotesAt_layer notes st layer Hlayer) as [_ Hcleared].
  destruct (setNotesAt_layer moved _ _ Hcleared) as [_ Hset].
  split; [done|]. split; [by rewrite <- Hset; apply getCurrentLayer_sameGrid|].
  intros c. rewrite cellActive_foldl_setOne, cellActive_foldl_clearOne.
  rewrite (inGrid_length layer) by apply foldl_clearOne_length.
  destruct (bool_decide (c ∈ moved)) eqn:Hc; [|done].
  apply bool_decide_eq_true_1 in Hc.
  by rewrite (forallb_inBounds_inGrid layer moved c Hin Hc).
Qed.

Lemma moveSelectedNotes_reject (deltaStep deltaPitch : Z) (st : State) (layer : list Step) :
  getCurrentLayer st = Some layer ->
  forallb (inBounds (zlength layer))
          (translate deltaStep deltaPitch <$> getSelectedNotesArray st) = false ->
  moveSelectedNotes deltaStep deltaPitch st = st.
Proof.
  intros Hlayer Hout. unfold moveSelectedNotes. rewrite Hlayer, Hout. by case_bool_decide.
Qed.

Lemma handleKeydown_arrow (k : KeyName) (now : Q) (st : State) :
  k ∈ [ArrowUp; ArrowDown; ArrowLeft; ArrowRight] ->
  selectedNotes st <> [] ->
  handleKeydown k now st
  = Returned (moveSelectedNotes (arrowDelta k).1 (arrowDelta k).2 st).
Proof.
  intros Hk Hsel. destruct (selection_nonempty st Hsel) as [Hsize _].
  assert (handleKeydown k now st = Returned (nudge k st)) as ->.
  { repeat (apply elem_of_cons in Hk as [->|Hk]; [done|]). by apply elem_of_nil in Hk. }
  unfold nudge. by rewrite Hsize.
Qed.

(** C3: an arrow key pressed over a non-empty selection moves it as a
    whole or not at all.  If every selected coordinate, shifted by the
    key's one-unit delta, lies within the current layer's bounds, the
    selection becomes the shifted coordinates, every shifted coordinate
    holds a note, every selected coordinate that is not also a
    destination is empty, and the rest of the layer is as before.  If some
    shifted coordinate leaves the grid, the handler returns the state it
    was given. *)
Theorem nudge_atomic (st : State) (layer : list Step) (k : KeyName) (now : Q)
    (Hk : k ∈ [ArrowUp; ArrowDown; ArrowLeft; ArrowRight])
    (Hlayer : getCurrentLayer st = Some layer)
    (Hsel : selectedNotes st <> []) :
  let notes := getSelectedNotesArray st in
  let moved := translate (arrowDelta k).1 (arrowDelta k).2 <$> notes in
  (forallb (inBounds (zlength layer)) moved = true ->
     exists st' layer',
       handleKeydown k now st = Returned st'
       /\ selectedNotes st' = newSet moved
       /\ getCurrentLayer st' = Some layer'
       /\ zlength layer' = zlength layer
       /\ (forall c, c ∈ moved -> cellActive layer' c = true)
       /\ (forall c, c ∈ notes -> c ∉ moved -> cellActive layer' c = false)
       /\ (forall c, c ∉ notes -> c ∉ moved -> cellActive layer' c = cellActive layer c))
  /\ (forallb (inBounds (zlength layer)) moved = false ->
        handleKeydown k now st = Returned st).
Proof.
  intros notes moved. rewrite (handleKeydown_arrow k now st Hk Hsel).
  destruct (selection_nonempty st Hsel) as [_ Hne]. split.
  - intros Hin.
    destruct (moveSelectedNotes_accept _ _ st layer Hlayer Hne Hin) as (Hst & Hnew & Hcell).
    eexists _, _. split; [reflexivity|]. split; [by rewrite Hst|].
    split; [exact Hnew|]. fold notes in Hcell. fold moved in Hcell.
    split; [by rewrite foldl_setOne_length, foldl_clearOne_length|].
    split_and!; intros c.
    + intros Hc. rewrite Hcell, (bool_decide_eq_true_2 _ Hc). apply orb_true_r.
    + intros Hc Hnc. rewrite Hcell, (bool_decide_eq_true_2 _ Hc),
        (bool_decide_eq_false_2 _ Hnc). by rewrite andb_false_r.
    + intros Hc Hnc. rewrite Hcell, (bool_decide_eq_false_2 _ Hc),
        (bool_decide_eq_false_2 _ Hnc). by rewrite andb_true_r, orb_false_r.
  - intros Hout. f_equal. by apply (moveSelectedNotes_reject _ _ st layer).
Qed.

Lemma nudge_atomic_witness :
  (exists st', handleKeydown ArrowRight 0 oneNote = Returned st'
               /\ selectedNotes st' = [(1, 71)])
  /\ handleKeydown ArrowDown 0 oneNote = Returned oneNote.
Proof.
  destruct (nudge_atomic oneNote noteLayer ArrowRight 0) as [Hmove _].
  { repeat constructor. }
  { vm_compute. reflexivity. }
  { discriminate. }
  destruct (nudge_atomic oneNote noteLayer ArrowDown 0) as [_ Hstay].
  { repeat constructor. }
  { vm_compute. reflexivity. }
  { discriminate. }
  split.
  - destruct Hmove as (st' & layer' & Hst' & Hsel' & _); [vm_compute; reflexivity|].
    exists st'. split; [exact Hst'|exact Hsel'].
  - apply Hstay. vm_compute. reflexivity.
Defined.

Lemma clearNotesAt_frame (ps : list Cell) (st : State) :
  clearNotesAt ps st = set_patterns (patterns (clearNotesAt ps st)) st.
Proof.
  unfold clearNotesAt. destruct (getCurrentLayer st); [done|].
  by rewrite set_patterns_same.
Qed.

Lemma setNotesAt_frame (ps : list Cell) (st : State) :
  setNotesAt ps st = set_patterns (patterns (setNotesAt ps st)) st.
Proof.
  unfold setNotesAt. destruct (getCurrentLayer st); [done|].
  by rewrite set_patterns_same.
Qed.

(** C10: an in-bounds arrow-key nudge of a non-empty selection leaves the
    layer that results from clearing the selected cells and then setting
    every destination cell.  A destination that held an unselected note
    simply holds a note afterwards and joins the selection: the handler
    changes nothing but the pattern store and the selection, so nothing
    records that a note was there.  The destinations are set also when
    "allow non-scale notes" is off and a destination's pitch is out of
    scale. *)
Theorem nudge_overwrites (st : State) (layer : list Step) (k : KeyName) (now : Q)
    (Hk : k ∈ [ArrowUp; ArrowDown; ArrowLeft; ArrowRight])
    (Hlayer : getCurrentLayer st = Some layer)
    (Hsel : selectedNotes st <> [])
    (Hin : forallb (inBounds (zlength layer))
             (translate (arrowDelta k).1 (arrowDelta k).2 <$> getSelectedNotesArray st)
           = true) :
  let notes := getSelectedNotesArray st in
  let moved := translate (arrowDelta k).1 (arrowDelta k).2 <$> notes in
  exists st' layer',
    handleKeydown k now st = Returned st'
    /\ getCurrentLayer st' = Some layer'
    /\ layer' = foldl setOne (foldl clearOne layer notes) moved
    /\ (forall c, cellActive layer' c
                  = (cellActive layer c && negb (bool_decide (c ∈ notes)))
                    || bool_decide (c ∈ moved))
    /\ (forall c, c ∈ moved -> c ∉ notes -> cellActive layer c = true ->
                  cellActive layer' c = true /\ c ∈ selectedNotes st')
    /\ (exists ps sel, st' = set_selectedNotes sel (set_patterns ps st))
    /\ dragOverwrittenNotes st' = dragOverwrittenNotes st
    /\ (allowNonScaleNotes st = false ->
        forall c, c ∈ moved -> isInScale st c.2 = false -> cellActive layer' c = true).
Proof.
  intros notes moved. rewrite (handleKeydown_arrow k now st Hk Hsel).
  destruct (selection_nonempty st Hsel) as [_ Hne].
  destruct (moveSelectedNotes_accept _ _ st layer Hlayer Hne Hin) as (Hst & Hnew & Hcell).
  fold notes in Hst, Hnew, Hcell. fold moved in Hst, Hnew, Hcell.
  eexists _, _. split; [reflexivity|]. split; [exact Hnew|]. split; [reflexivity|].
  split; [exact Hcell|].
  assert (Hmoved : forall c, c ∈ moved ->
            cellActive (foldl setOne (foldl clearOne layer notes) moved) c = true).
  { intros c Hc. rewrite Hcell, (bool_decide_eq_true_2 _ Hc). apply orb_true_r. }
  split_and!.
  - intros c Hc _ _. split; [by apply Hmoved|]. rewrite Hst. cbn [selectedNotes set_selectedNotes].
    by apply elem_of_newSet.
  - rewrite Hst, setNotesAt_frame, clearNotesAt_frame. by eexists _, _.
  - rewrite Hst, setNotesAt_frame, clearNotesAt_frame. reflexivity.
  - intros _ c Hc _. by apply Hmoved.
Qed.

Lemma nudge_overwrites_witness :
  exists st' layer',
    handleKeydown ArrowUp 0 lockedNote = Returned st'
    /\ getCurrentLayer st' = Some layer'
    /\ allowNonScaleNotes lockedNote = false
    /\ isInScale lockedNote 70 = false
    /\ cellActive layer' (0, 70) = true.
Proof.
  destruct (nudge_overwrites lockedNote noteLayer ArrowUp 0)
    as (st' & layer' & Hst' & Hlayer' & _ & _ & _ & _ & _ & Hscale).
  { repeat constructor. }
  { vm_compute. reflexivity. }
  { discriminate. }
  { vm_compute. reflexivity. }
  exists st', layer'. split; [exact Hst'|]. split; [exact Hlayer'|].
  split; [reflexivity|]. split; [vm_compute; reflexivity|].
  apply Hscale; [reflexivity|repeat constructor|vm_compute; reflexivity].
Defined.

(** ** Writes outside the grid *)



(** [setCell] itself guards the upper end of the steps only: called at a
    pitch slot beyond the last one it grows the pitch array, and at a
    negative step it throws.  Its two callers pass the indices of a
    button of the grid. *)
Lemma setCell_outside_pitches :
  inBounds 2 (0, 72) = false /\ inBounds 2 (-1, 71) = false
  /\ setCell twoSteps 0 72 true <> Returned twoSteps
  /\ setCell twoSteps (-1) 71 true = Thrown twoSteps.
Proof.
  split; [reflexivity|]. split; [reflexivity|]. split; [|reflexivity].
  intros Heq.
  apply (f_equal (fun o => match o with
                           | Returned st =>
                               (fun l => alen (pitches (default emptyStep (l !! 0%nat))))
                                 <$> getCurrentLayer st
                           | Thrown _ => None
                           end)) in Heq.
  vm_compute in Heq. discriminate.
Qed.

(** ** Rectangle selection *)

Lemma elem_of_fromTo (lo hi z : Z) : z ∈ fromTo lo hi <-> lo <= z <= hi.
Proof. unfold fromTo. rewrite elem_of_seqZ. lia. Qed.

Lemma elem_of_rect_row (layer : list Step) (s : Z) (ps : list Z) (next : list Cell) (c : Cell) :
  c ∈ foldl (fun next p => if cellActive layer (s, p) then setAdd next (s, p) else next)
            next ps
  <-> c ∈ next \/ (c.1 = s /\ c.2 ∈ ps /\ cellActive layer c = true).
Proof.
  revert next. induction ps as [|p ps IH]; intros next; cbn [foldl].
  - rewrite elem_of_nil. tauto.
  - rewrite IH, elem_of_cons. destruct (cellActive layer (s, p)) eqn:Hp.
    + rewrite elem_of_setAdd. split.
      * intros [[?| ->]|?]; [tauto| |tauto]. right. cbn. tauto.
      * intros [?|(Hs & [Hc|?] & Hact)]; [tauto| |tauto].
        left. right. destruct c. cbn in *. congruence.
    + split; [tauto|]. intros [?|(Hs & [Hc|?] & Hact)]; [tauto| |tauto].
      destruct c. cbn in *. congruence.
Qed.

Lemma elem_of_rect (layer : list Step) (ss ps : list Z) (sel : list Cell) (c : Cell) :
  c ∈ foldl (fun next s =>
               foldl (fun next p => if cellActive layer (s, p) then setAdd next (s, p)
                                    else next) next ps)
            sel ss
  <-> c ∈ sel \/ (c.1 ∈ ss /\ c.2 ∈ ps /\ cellActive layer c = true).
Proof.
  revert sel. induction ss as [|s ss IH]; intros sel; cbn [foldl].
  - rewrite elem_of_nil. tauto.
  - rewrite IH, elem_of_rect_row, elem_of_cons. split.
    + intros [[?|(? & ? & ?)]|?]; tauto.
    + intros [?|([?|?] & ? & ?)]; tauto.
Qed.

Lemma addNotesInRectToSelection_spec (rect : Rect) (st : State) (layer : list Step) :
  getCurrentLayer st = Some layer ->
  getCurrentLayer (addNotesInRectToSelection rect st) = Some layer
  /\ forall c, c ∈ selectedNotes (addNotesInRectToSelection rect st)
               <-> c ∈ selectedNotes st
                   \/ (minStep rect <= c.1 <= maxStep rect
                       /\ minPitch rect <= c.2 <= maxPitch rect
                       /\ cellActive layer c = true).
Proof.
  intros Hlayer. unfold addNotesInRectToSelection. rewrite Hlayer. split.
  - rewrite <- Hlayer. by apply getCurrentLayer_sameGrid.
  - intros c. cbn [selectedNotes set_selectedNotes].
    by rewrite elem_of_rect, !elem_of_fromTo.
Qed.

(** ** Scale lock *)

(** C6, as the code has it: while "allow non-scale notes" is off, a paint
    write ([setCell]) at an out-of-scale pitch returns the session
    untouched, pointer-down on such a cell is ignored, and painting
    across it does nothing; a note already in such a cell stays where it
    is and is added to the selection by a rectangle that covers it.
    (Writes made by dragging are outside this statement.) *)
Theorem scale_lock_paint (st : State) (pitch : Z)
    (Hlock : allowNonScaleNotes st = false) (Hout : isInScale st pitch = false) :
  (forall step v, setCell st step pitch v = Returned st)
  /\ (forall step e, dispatch st (CellMousedown step pitch e) = Returned st)
  /\ (forall step, isSelectingRect st = false -> isDragging st = false ->
                   dispatch st (CellMouseenter step pitch) = Returned st)
  /\ (forall layer step rect,
        getCurrentLayer st = Some layer ->
        cellActive layer (step, pitch) = true ->
        minStep rect <= step <= maxStep rect ->
        minPitch rect <= pitch <= maxPitch rect ->
        (step, pitch) ∈ selectedNotes (addNotesInRectToSelection rect st)
        /\ getCurrentLayer (addNotesInRectToSelection rect st) = Some layer).
Proof.
  split_and!.
  - intros step v. unfold setCell. by rewrite Hlock, Hout.
  - intros step e. cbn [dispatch]. unfold onCell.
    destruct (getCurrentLayer st) as [layer|]; [|done].
    destruct (inBounds _ _); [|done].
    unfold handleCellMousedown, cellOpts. cbn [isDisabled]. by rewrite Hlock, Hout.
  - intros step Hrect Hdrag. cbn [dispatch]. unfold onCell.
    destruct (getCurrentLayer st) as [layer|]; [|done].
    destruct (inBounds _ _); [|done].
    unfold handleCellMouseenter, cellOpts. cbn [isDisabled].
    rewrite Hrect, Hdrag, Hlock, Hout. cbn [negb andb]. by rewrite andb_false_r.
  - intros layer step rect Hlayer Hnote Hs Hp.
    destruct (addNotesInRectToSelection_spec rect st layer Hlayer) as [Hsame Hsel].
    split; [|done]. apply Hsel. right. cbn [fst snd]. done.
Qed.

Lemma scale_lock_paint_witness :
  setCell lockedNote 0 70 true = Returned lockedNote
  /\ dispatch lockedNote (CellMousedown 0 70 plainClick) = Returned lockedNote.
Proof.
  destruct (scale_lock_paint lockedNote 70) as (Hpaint & Hdown & _).
  - reflexivity.
  - vm_compute. reflexivity.
  - split; [apply Hpaint|apply Hdown].
Defined.

(** C6 as stated fails for drags: with the lock on, dragging the notes at
    slots 71 and 69 up by two slots writes a note into slot 67, which is
    out of scale. *)
Lemma drag_writes_out_of_scale :
  returned draggedScene = true
  /\ allowNonScaleNotes (sessionOf lockedScene) = false
  /\ isInScale (sessionOf lockedScene) 67 = false
  /\ noteAt (sessionOf lockedScene) (0, 67) = Some false
  /\ noteAt (sessionOf draggedScene) (0, 67) = Some true.
Proof. vm_compute. repeat split. Qed.

(** ** What handlers leave of the selection *)

Lemma clearNotesAt_selected (ps : list Cell) (st : State) :
  selectedNotes (clearNotesAt ps st) = selectedNotes st.
Proof. by rewrite clearNotesAt_frame. Qed.

Lemma setNotesAt_selected (ps : list Cell) (st : State) :
  selectedNotes (setNotesAt ps st) = selectedNotes st.
Proof. by rewrite setNotesAt_frame. Qed.

Lemma setCell_selected (st : State) (step pitch : Z) (v : bool) :
  selectedNotes (sessionOf (setCell st step pitch v)) = selectedNotes st.
Proof.
  unfold setCell. destruct (_ && _); [done|].
  destruct (getCurrentLayer st); [|done].
  destruct (_ <=? _); [done|]. by destruct (zlookup _ _).
Qed.

Lemma dragTo_selected (stepIndex pitchIndex : Z) (anchor : Cell) (st : State) :
  selectedNotes (dragTo stepIndex pitchIndex anchor st) = selectedNotes st.
Proof.
  unfold dragTo. destruct (getCurrentLayer st); [|done].
  cbn [selectedNotes set_dragOverwrittenNotes set_dragLastPositions].
  rewrite !setNotesAt_selected. by repeat case_match; rewrite clearNotesAt_selected.
Qed.

Lemma playStep_frame (now : Q) (step : JsInt) (st : State) :
  exists a, playStep now step st = Returned (set_audio a st)
            \/ playStep now step st = Thrown (set_audio a st).
Proof.
  unfold playStep.
  destruct (getPatternAtStepJs st step) as [at_|];
    [|exists (audio st); left; by rewrite set_audio_same].
  destruct (findPattern _ _) as [pattern|];
    [|exists (audio st); left; by rewrite set_audio_same].
  destruct (playLayers _ _ _ _ _ _ _) as [a|a]; exists a; [by left|by right].
Qed.

Lemma start_selected (now : Q) (st : State) :
  selectedNotes (sessionOf (start now st)) = selectedNotes st.
Proof.
  unfold start. destruct (isPlaying st); [done|].
  destruct (playStep_frame now
              (currentStep (set_currentStep
                 (Int (getStepForSequenceIndex (set_isPlaying true st)
                         (selectedSequenceIndex (set_isPlaying true st))))
                 (set_isPlaying true st)))
              (set_currentStep
                 (Int (getStepForSequenceIndex (set_isPlaying true st)
                         (selectedSequenceIndex (set_isPlaying true st))))
                 (set_isPlaying true st))) as [a [-> | ->]]; done.
Qed.

Lemma tick_selected (now : Q) (st : State) :
  selectedNotes (sessionOf (startPlayingStepsUsingTimeout now st)) = selectedNotes st.
Proof.
  unfold startPlayingStepsUsingTimeout. destruct (negb (isPlaying st)); [done|].
  destruct (playStep_frame now
              (currentStep (set_currentStep (succRem (currentStep st) (totalSteps st)) st))
              (set_currentStep (succRem (currentStep st) (totalSteps st)) st))
    as [a [-> | ->]]; done.
Qed.

Lemma stop_selected (st : State) : selectedNotes (stop st) = selectedNotes st.
Proof. unfold stop. by destruct (negb (isPlaying st)). Qed.

Lemma elem_of_setDelete (s : list Cell) (k c : Cell) : c ∈ setDelete s k -> c ∈ s.
Proof. unfold setDelete. rewrite list_elem_of_filter. tauto. Qed.

Lemma noteAt_sameGrid (st st' : State) (c : Cell) :
  sameGrid st st' -> noteAt st c = noteAt st' c.
Proof. intros H. unfold noteAt. by rewrite (getCurrentLayer_sameGrid st st' H). Qed.

(** Pointer-down adds a coordinate only by shift-click on a cell that
    holds a note. *)
Lemma handleCellMousedown_adds (st : State) (layer : list Step) (stepIndex pitchIndex : Z)
    (e : MouseEvent) (c : Cell) :
  getCurrentLayer st = Some layer ->
  let o := handleCellMousedown stepIndex pitchIndex e
             (cellOpts st layer stepIndex pitchIndex) st in
  c ∈ selectedNotes (sessionOf o) -> c ∉ selectedNotes st ->
  noteAt (sessionOf o) c = Some true.
Proof.
  intros Hlayer o. subst o. unfold handleCellMousedown.
  destruct (isDisabled _); [done|].
  destruct (metaKey e || ctrlKey e); [done|].
  destruct (shiftKey e && hasNote _) eqn:Hshift.
  - apply andb_prop in Hshift as [_ Hnote]. cbn [hasNote cellOpts] in Hnote.
    cbn [sessionOf selectedNotes set_selectedNotes]. intros Hin Hout.
    destruct (setHas _ _).
    + by apply elem_of_setDelete in Hin.
    + apply elem_of_setAdd in Hin as [?| ->]; [done|].
      rewrite (noteAt_sameGrid _ st) by done. unfold noteAt. by rewrite Hlayer, <- Hnote.
  - destruct (noteSelected _ && _).
    + cbn [sessionOf selectedNotes set_isDragging set_isCloning set_dragOverwrittenNotes
           set_dragLastPositions set_dragStartCell set_dragStartNotes set_selectedNotes].
      by intros ?%elem_of_nil.
    + set (st1 := set_paintTargetState _ _).
      pose proof (setCell_selected st1 stepIndex pitchIndex (paintTargetState st1)) as Hsel.
      destruct (setCell st1 _ _ _) as [st2|st2]; cbn [andThen sessionOf] in *.
      * cbn [selectedNotes set_isPainting]. rewrite Hsel. by intros ?%elem_of_nil.
      * rewrite Hsel. by intros ?%elem_of_nil.
Qed.

Lemma handleMouseup_adds (st : State) (c : Cell) :
  c ∈ selectedNotes (handleMouseup st) -> c ∉ selectedNotes st ->
  noteAt (handleMouseup st) c = Some true.
Proof.
  unfold handleMouseup. destruct (isSelectingRect st); [|done].
  destruct (getSelectionRect st) as [rect|]; [|done].
  cbn [selectedNotes set_dragStartCell set_isCloning set_isDragging set_isPainting
       set_isSelectingRect set_selectionRectExtent set_selectionRectAnchor].
  intros Hin Hout. rewrite (noteAt_sameGrid _ (addNotesInRectToSelection rect st)) by done.
  unfold noteAt. destruct (getCurrentLayer st) as [layer|] eqn:Hlayer.
  - destruct (addNotesInRectToSelection_spec rect st layer Hlayer) as [-> Hsel].
    apply Hsel in Hin as [?|(_ & _ & Hact)]; [done|]. by rewrite <- Hact.
  - unfold addNotesInRectToSelection in Hin. by rewrite Hlayer in Hin.
Qed.

Lemma moveSelectedNotes_adds (deltaStep deltaPitch : Z) (st : State) (c : Cell) :
  c ∈ selectedNotes (moveSelectedNotes deltaStep deltaPitch st) -> c ∉ selectedNotes st ->
  noteAt (moveSelectedNotes deltaStep deltaPitch st) c = Some true.
Proof.
  destruct (getCurrentLayer st) as [layer|] eqn:Hlayer;
    [|unfold moveSelectedNotes; by rewrite Hlayer].
  destruct (decide (getSelectedNotesArray st = [])) as [Hnil|Hne].
  { unfold moveSelectedNotes. rewrite Hlayer. by rewrite bool_decide_eq_true_2. }
  destruct (forallb (inBounds (zlength layer))
              (translate deltaStep deltaPitch <$> getSelectedNotesArray st)) eqn:Hin.
  - destruct (moveSelectedNotes_accept _ _ st layer Hlayer Hne Hin) as (Hst & Hnew & Hcell).
    intros Hc _. unfold noteAt. rewrite Hnew. cbn. f_equal.
    rewrite Hst in Hc. cbn [selectedNotes set_selectedNotes] in Hc.
    apply (proj1 (elem_of_newSet _ _)) in Hc.
    rewrite Hcell, (bool_decide_eq_true_2 _ Hc). apply orb_true_r.
  - by rewrite (moveSelectedNotes_reject _ _ st layer Hlayer Hin).
Qed.

Lemma handleKeydown_adds (k : KeyName) (now : Q) (st : State) (c : Cell) :
  c ∈ selectedNotes (sessionOf (handleKeydown k now st)) -> c ∉ selectedNotes st ->
  noteAt (sessionOf (handleKeydown k now st)) c = Some true.
Proof.
  assert (Hnudge : forall k', c ∈ selectedNotes (nudge k' st) -> c ∉ selectedNotes st ->
                              noteAt (nudge k' st) c = Some true).
  { intros k'. unfold nudge. destruct (0 <? _); [apply moveSelectedNotes_adds|done]. }
  assert (Hdelete : c ∈ selectedNotes (deleteSelection st) -> c ∉ selectedNotes st ->
                    noteAt (deleteSelection st) c = Some true).
  { unfold deleteSelection. destruct (0 <? _); [|done]. by intros ?%elem_of_nil. }
  destruct k; cbn [handleKeydown sessionOf]; try done; try apply Hnudge.
  - destruct (_ || _); [|done]. by intros ?%elem_of_nil.
  - destruct (isPlaying st); cbn [sessionOf].
    + by rewrite stop_selected.
    + by rewrite start_selected.
Qed.

(** Whatever event the page handles, a coordinate that enters the
    selection names a cell of the current layer that holds a note once
    the handler is done. *)
Theorem selection_adds_notes (st : State) (ev : Event) (c : Cell)
    (Hnew : c ∈ selectedNotes (sessionOf (dispatch st ev)))
    (Hold : c ∉ selectedNotes st) :
  noteAt (sessionOf (dispatch st ev)) c = Some true.
Proof.
  revert Hnew Hold.
  destruct ev as [stepIndex pitchIndex e|stepIndex pitchIndex| |k now|now| |idx|seqIndex
                 |seqIndex up|seqIndex forward| | |value|value| | |value|value|k|s
                 |checked|checked]; cbn [dispatch].
  - unfold onCell. destruct (getCurrentLayer st) as [layer|] eqn:Hlayer; [|done].
    destruct (inBounds _ _); [|done]. by apply handleCellMousedown_adds.
  - unfold onCell. destruct (getCurrentLayer st) as [layer|] eqn:Hlayer; [|done].
    destruct (inBounds _ _); [|done]. unfold handleCellMouseenter.
    destruct (isSelectingRect st); [done|].
    destruct (isDragging st), (dragStartCell st); cbn [sessionOf];
      rewrite ?dragTo_selected; try done.
    all: destruct (isPainting st && _); [by rewrite setCell_selected|done].
  - apply handleMouseup_adds.
  - apply handleKeydown_adds.
  - destruct (timeoutId st); [by rewrite tick_selected|done].
  - cbn [sessionOf]. unfold clearPattern. by destruct (findPattern _ _).
  - destruct (_ && _); [|done]. by intros ?%elem_of_nil.
  - by destruct (_ && _).
  - destruct (_ && _); [|done]. cbn [sessionOf]. unfold cyclePatternAtPosition.
    by repeat case_match.
  - destruct (_ && _); [|done]. cbn [sessionOf]. unfold movePatternInSequence.
    by repeat case_match.
  - cbn [sessionOf]. unfold addToSequence. by case_match.
  - cbn [sessionOf]. unfold removeLast. by repeat case_match.
  - done.
  - done.
  - done.
  - done.
  - done.
  - done.
  - done.
  - done.
  - done.
  - done.
Qed.

Lemma selection_adds_notes_witness :
  noteAt (sessionOf (dispatch lockedNote (WindowKeydown ArrowRight 0))) (1, 71) = Some true.
Proof.
  apply selection_adds_notes.
  - apply (bool_decide_unpack _). vm_compute. exact I.
  - apply (bool_decide_unpack _). vm_compute. exact I.
Defined.

Lemma empty_selected_cell_invalid (st : State) (c : Cell) :
  c ∈ selectedNotes st -> noteAt st c = Some false -> ~ SelectionValid st.
Proof.
  intros Hin Hnote Hvalid. destruct (Hvalid c Hin) as (layer & Hlayer & Hact).
  unfold noteAt in Hnote. rewrite Hlayer in Hnote. cbn in Hnote. congruence.
Qed.

(** C8 does not hold of the code: paint a note, select it with a
    shift-click and clear the pattern; the coordinate is still selected
    and its cell is empty.  [clearPattern] leaves [selectedNotes] alone,
    where the handler that switches the synth empties it. *)
Lemma selection_survives_clear :
  returned clearedScene = true
  /\ (0, 71) ∈ selectedNotes (sessionOf clearedScene)
  /\ noteAt (sessionOf clearedScene) (0, 71) = Some false
  /\ ~ SelectionValid (sessionOf clearedScene).
Proof.
  assert (Hin : (0, 71) ∈ selectedNotes (sessionOf clearedScene)).
  { apply (bool_decide_unpack _). vm_compute. exact I. }
  assert (Hnote : noteAt (sessionOf clearedScene) (0, 71) = Some false).
  { vm_compute. reflexivity. }
  split; [vm_compute; reflexivity|]. split; [exact Hin|]. split; [exact Hnote|].
  exact (empty_selected_cell_invalid _ _ Hin Hnote).
Qed.

(** ** Dense layers *)

Lemma wfStepb_spec (s : Step) :
  wfStepb s = true <->
  alen (pitches s) = NUM_PITCHES
  /\ forall p, is_Some (arrGet (pitches s) p) <-> 0 <= p < NUM_PITCHES.
Proof.
  unfold wfStepb, arrGet. rewrite andb_true_iff, Z.eqb_eq, bool_decide_eq_true.
  split; intros [Hlen Hdom]; (split; [done|]).
  - intros p. rewrite <- elem_of_dom, Hdom, elem_of_list_to_set, elem_of_seqZ. lia.
  - apply set_eq. intros p.
    rewrite elem_of_dom, Hdom, elem_of_list_to_set, elem_of_seqZ. lia.
Qed.

Lemma wfLayerb_lookup (layer : list Step) (i : Z) (s : Step) :
  wfLayerb layer = true -> zlookup layer i = Some s -> wfStepb s = true.
Proof.
  unfold wfLayerb. rewrite forallb_forall. intros Hall [_ Hs]%zlookup_Some.
  apply Hall, list_elem_of_In. by eapply list_elem_of_lookup_2.
Qed.

Lemma wfStepb_arrSet (s : Step) (p : Z) (v : bool) :
  wfStepb s = true -> 0 <= p < NUM_PITCHES -> wfStepb (mkStep (arrSet (pitches s) p v)) = true.
Proof.
  intros [Hlen Hdom]%wfStepb_spec Hp. apply wfStepb_spec. cbn [pitches]. split.
  - unfold arrSet, isArrayIndex. cbn [alen]. unfold NUM_PITCHES, NUM_OCTAVES in *.
    destruct (Z.leb_spec 0 p), (Z.ltb_spec p 4294967295); cbn [andb]; lia.
  - intros q. rewrite <- Hdom. unfold arrGet, arrSet. cbn [elems].
    rewrite lookup_insert. case_decide as Hq; [|done].
    subst q. split; [intros _|by eexists]. by apply Hdom.
Qed.

Lemma wfLayerb_writeCell (layer : list Step) (step pitch : Z) (v : bool) :
  wfLayerb layer = true -> 0 <= pitch < NUM_PITCHES ->
  wfLayerb (writeCell step pitch v layer) = true.
Proof.
  intros Hwf Hp. unfold wfLayerb. apply forallb_forall. intros s Hs.
  apply list_elem_of_In, list_elem_of_lookup in Hs as [i Hi].
  assert (Hz : zlookup (writeCell step pitch v layer) (Z.of_nat i) = Some s).
  { apply zlookup_Some. split; [lia|]. by rewrite Nat2Z.id. }
  unfold writeCell in Hz. rewrite zlookup_zalter in Hz. case_decide.
  - destruct (zlookup layer (Z.of_nat i)) as [s0|] eqn:Hs0; [|done].
    injection Hz as <-. apply wfStepb_arrSet; [|done]. by eapply wfLayerb_lookup.
  - by eapply wfLayerb_lookup.
Qed.

Lemma inGrid_pitch (layer : list Step) (c : Cell) :
  inGrid layer c = true -> 0 <= c.2 < NUM_PITCHES.
Proof.
  unfold inGrid, inBounds. intros H. repeat (apply andb_prop in H as [H ?]). lia.
Qed.

Lemma wfLayerb_setOne (layer : list Step) (c : Cell) :
  wfLayerb layer = true -> wfLayerb (setOne layer c) = true.
Proof.
  intros Hwf. unfold setOne. destruct (inGrid layer c) eqn:Hc; [|done].
  apply wfLayerb_writeCell; [done|]. by apply inGrid_pitch in Hc.
Qed.

Lemma wfLayerb_clearOne (layer : list Step) (c : Cell) :
  wfLayerb layer = true -> inGrid layer c = true -> wfLayerb (clearOne layer c) = true.
Proof.
  intros Hwf Hc. unfold clearOne. destruct (zlookup _ _); [|done].
  apply wfLayerb_writeCell; [done|]. by apply inGrid_pitch in Hc.
Qed.

Lemma wfLayerb_foldl_setOne (ps : list Cell) (layer : list Step) :
  wfLayerb layer = true -> wfLayerb (foldl setOne layer ps) = true.
Proof.
  revert layer. induction ps as [|c ps IH]; intros layer Hwf; cbn [foldl]; [done|].
  by apply IH, wfLayerb_setOne.
Qed.

Lemma wfLayerb_foldl_clearOne (ps : list Cell) (layer : list Step) :
  wfLayerb layer = true -> forallb (inGrid layer) ps = true ->
  wfLayerb (foldl clearOne layer ps) = true.
Proof.
  revert layer. induction ps as [|c ps IH]; intros layer Hwf Hps; cbn [foldl]; [done|].
  cbn [forallb] in Hps. apply andb_prop in Hps as [Hc Hps].
  apply IH; [by apply wfLayerb_clearOne|].
  unfold inGrid in *. by rewrite clearOne_length.
Qed.

(** In a dense layer the cells that hold a note lie within the grid. *)
Lemma wfLayerb_active_inGrid (layer : list Step) (c : Cell) :
  wfLayerb layer = true -> cellActive layer c = true -> inGrid layer c = true.
Proof.
  intros Hwf. unfold cellActive, inGrid, inBounds.
  destruct (zlookup layer c.1) as [s|] eqn:Hs; [|done]. intros Hact.
  assert (is_Some (zlookup layer c.1)) as Hrow%zlookup_is_Some by by eexists.
  apply (wfLayerb_lookup _ _ _ Hwf), wfStepb_spec in Hs as [_ Hdom].
  assert (is_Some (arrGet (pitches s) c.2)) as Hp%Hdom.
  { unfold arrTruthy in Hact. by destruct (arrGet _ _); [eexists|]. }
  destruct (Z.leb_spec 0 c.1), (Z.ltb_spec c.1 (zlength layer)),
           (Z.leb_spec 0 c.2), (Z.ltb_spec c.2 NUM_PITCHES); cbn [andb]; try done; lia.
Qed.

(** Dense layers of one length that agree on every cell are the same
    layer. *)
Lemma wfLayerb_ext (l1 l2 : list Step) :
  wfLayerb l1 = true -> wfLayerb l2 = true -> zlength l1 = zlength l2 ->
  (forall c, cellActive l1 c = cellActive l2 c) -> l1 = l2.
Proof.
  intros Hwf1 Hwf2 Hlen Hcells. apply list_eq. intros i.
  destruct (l1 !! i) as [s1|] eqn:H1, (l2 !! i) as [s2|] eqn:H2.
  - f_equal.
    assert (Hz1 : zlookup l1 (Z.of_nat i) = Some s1)
      by (apply zlookup_Some; split; [lia|by rewrite Nat2Z.id]).
    assert (Hz2 : zlookup l2 (Z.of_nat i) = Some s2)
      by (apply zlookup_Some; split; [lia|by rewrite Nat2Z.id]).
    pose proof (wfLayerb_lookup _ _ _ Hwf1 Hz1) as [Ha1 Hd1]%wfStepb_spec.
    pose proof (wfLayerb_lookup _ _ _ Hwf2 Hz2) as [Ha2 Hd2]%wfStepb_spec.
    destruct s1 as [[m1 n1]], s2 as [[m2 n2]]. cbn [pitches alen] in *. subst n1 n2.
    f_equal. f_equal. apply map_eq. intros p.
    specialize (Hcells (Z.of_nat i, p)). unfold cellActive in Hcells.
    cbn [fst snd] in Hcells. rewrite Hz1, Hz2 in Hcells.
    unfold arrTruthy, arrGet in *. cbn [pitches elems] in *.
    specialize (Hd1 p). specialize (Hd2 p).
    destruct (m1 !! p) as [b1|], (m2 !! p) as [b2|]; cbn in Hcells; try congruence.
    + exfalso. apply (is_Some_None (A := bool)). apply Hd2, Hd1. by eexists.
    + exfalso. apply (is_Some_None (A := bool)). apply Hd1, Hd2. by eexists.
  - apply lookup_lt_Some in H1. apply lookup_ge_None in H2. unfold zlength in Hlen. lia.
  - apply lookup_lt_Some in H2. apply lookup_ge_None in H1. unfold zlength in Hlen. lia.
  - done.
Qed.

(** ** Dragging *)

Lemma clearNotesAt_dragFields (ps : list Cell) (st : State) :
  dragFields (clearNotesAt ps st) = dragFields st.
Proof. by rewrite clearNotesAt_frame. Qed.

Lemma setNotesAt_dragFields (ps : list Cell) (st : State) :
  dragFields (setNotesAt ps st) = dragFields st.
Proof. by rewrite setNotesAt_frame. Qed.

Lemma dragTo_spec (stepIndex pitchIndex : Z) (anchor : Cell) (st : State) (layer : list Step) :
  getCurrentLayer st = Some layer ->
  let restored := foldl setOne (foldl clearOne layer (dragCleared st))
                        (dragOverwrittenNotes st) in
  let targets :=
    List.filter (inBounds (zlength layer))
                (translate (stepIndex - anchor.1) (pitchIndex - anchor.2)
                   <$> dragStartNotes st) in
  let st' := dragTo stepIndex pitchIndex anchor st in
  getCurrentLayer st' = Some (foldl setOne restored targets)
  /\ dragLastPositions st' = targets
  /\ dragOverwrittenNotes st' = List.filter (cellActive restored) targets
  /\ isSelectingRect st' = isSelectingRect st
  /\ isDragging st' = isDragging st
  /\ dragStartCell st' = dragStartCell st
  /\ isCloning st' = isCloning st
  /\ dragStartNotes st' = dragStartNotes st.
Proof.
  intros Hlayer restored targets st'. subst st'. unfold dragTo. rewrite Hlayer.
  set (st1 := if isCloning st then _ else _).
  assert (Hst1 : st1 = clearNotesAt (dragCleared st) st).
  { subst st1. unfold dragCleared. by repeat case_match. }
  clearbody st1. subst st1.
  destruct (clearNotesAt_layer (dragCleared st) st layer Hlayer) as [_ Hcleared].
  pose proof (clearNotesAt_dragFields (dragCleared st) st) as Hf1.
  injection Hf1 as Hrect1 Hdrag1 Hcell1 Hclone1 Hstart1 Hlast1 Hover1.
  rewrite Hover1.
  destruct (setNotesAt_layer (dragOverwrittenNotes st) _ _ Hcleared) as [_ Hrestored].
  fold restored in Hrestored. rewrite Hrestored. cbn [default].
  pose proof (setNotesAt_dragFields (dragOverwrittenNotes st)
                (clearNotesAt (dragCleared st) st)) as Hf2.
  injection Hf2 as Hrect2 Hdrag2 Hcell2 Hclone2 Hstart2 Hlast2 Hover2.
  rewrite Hstart2, Hstart1. fold targets.
  destruct (setNotesAt_layer targets _ _ Hrestored) as [_ Hset].
  pose proof (setNotesAt_dragFields targets
                (setNotesAt (dragOverwrittenNotes st)
                   (clearNotesAt (dragCleared st) st))) as Hf3.
  injection Hf3 as Hrect3 Hdrag3 Hcell3 Hclone3 Hstart3 Hlast3 Hover3.
  split; [rewrite <- Hset; by apply getCurrentLayer_sameGrid|].
  split; [reflexivity|]. split; [reflexivity|].
  cbn [isSelectingRect isDragging dragStartCell isCloning dragStartNotes
       set_dragOverwrittenNotes set_dragLastPositions].
  split; [congruence|]. split; [congruence|]. split; [congruence|].
  split; congruence.
Qed.

Lemma elem_of_List_filter {A : Type} (f : A -> bool) (l : list A) (x : A) :
  x ∈ List.filter f l <-> x ∈ l /\ f x = true.
Proof. rewrite !list_elem_of_In. apply filter_In. Qed.

Lemma forallb_elem_of {A : Type} (f : A -> bool) (l : list A) (x : A) :
  forallb f l = true -> x ∈ l -> f x = true.
Proof. rewrite forallb_forall. intros H Hx. by apply H, list_elem_of_In. Qed.

Lemma forallb_filter_inBounds (layer : list Step) (n : Z) (l : list Cell) :
  n = zlength layer -> forallb (inGrid layer) (List.filter (inBounds n) l) = true.
Proof.
  intros ->. apply forallb_forall. intros c Hc. by apply filter_In in Hc as [_ Hc].
Qed.

(** Clearing what the last move wrote and setting back what it overwrote
    restores the base. *)
Lemma drag_restores_base (layer0 : list Step) (grabbed : list Cell) (cloning : bool)
    (anchor : Cell) (st : State) (layer : list Step) (c : Cell) :
  DragInProgress layer0 grabbed cloning anchor st ->
  getCurrentLayer st = Some layer ->
  cellActive (foldl setOne (foldl clearOne layer (dragCleared st)) (dragOverwrittenNotes st)) c
  = dragBase layer0 grabbed cloning c.
Proof.
  intros (_ & _ & _ & Hclone & Hstart & layer' & Hlayer' & _ & Hlen & Hgrid & Hcase) Hlayer.
  rewrite Hlayer in Hlayer'. injection Hlayer' as <-.
  rewrite cellActive_foldl_setOne, cellActive_foldl_clearOne.
  rewrite (inGrid_length layer) by apply foldl_clearOne_length.
  unfold dragCleared, dragBase. rewrite Hclone, Hstart.
  destruct Hcase as [(Hlast & Hover & ->)|[Hover Hcells]].
  - rewrite Hlast, Hover. cbn [zlength length Z.of_nat Z.ltb Z.compare].
    rewrite (bool_decide_eq_false_2 (c ∈ [])) by apply not_elem_of_nil.
    rewrite andb_false_l, orb_false_r. by destruct cloning.
  - rewrite Hcells, Hover.
    assert (Hin : c ∈ dragLastPositions st -> inGrid layer c = true).
    { intros Hc. rewrite (inGrid_length layer0) by done. by eapply forallb_elem_of. }
    assert (Hmem : bool_decide (c ∈ List.filter (dragBase layer0 grabbed cloning)
                                      (dragLastPositions st))
                   = bool_decide (c ∈ dragLastPositions st)
                     && dragBase layer0 grabbed cloning c).
    { apply eq_true_iff_eq. rewrite andb_true_iff, !bool_decide_eq_true.
      apply elem_of_List_filter. }
    rewrite Hmem. unfold dragBase.
    destruct cloning; cbn [orb].
    + destruct (bool_decide (c ∈ dragLastPositions st)) eqn:Hc.
      * apply bool_decide_eq_true_1 in Hc. rewrite (Hin Hc).
        by destruct (cellActive layer0 c).
      * by destruct (cellActive layer0 c).
    + destruct (0 <? zlength (dragLastPositions st)) eqn:Hpos.
      * destruct (bool_decide (c ∈ dragLastPositions st)) eqn:Hc.
        -- apply bool_decide_eq_true_1 in Hc. rewrite (Hin Hc).
           by destruct (cellActive layer0 c), (bool_decide (c ∈ grabbed)).
        -- by destruct (cellActive layer0 c), (bool_decide (c ∈ grabbed)).
      * assert (dragLastPositions st = []) as ->.
        { destruct (dragLastPositions st); [done|]. unfold zlength in Hpos.
          apply Z.ltb_ge in Hpos. simpl in Hpos. lia. }
        rewrite (bool_decide_eq_false_2 (c ∈ [])) by apply not_elem_of_nil.
        by destruct (cellActive layer0 c), (bool_decide (c ∈ grabbed)).
Qed.

Lemma dragCleared_inGrid (layer0 : list Step) (grabbed : list Cell) (cloning : bool)
    (anchor : Cell) (st : State) :
  DragInProgress layer0 grabbed cloning anchor st ->
  forallb (inGrid layer0) grabbed = true ->
  forallb (inGrid layer0) (dragCleared st) = true.
Proof.
  intros (_ & _ & _ & _ & Hstart & layer & _ & _ & _ & Hgrid & _) Hgrabbed.
  unfold dragCleared. rewrite Hstart. by repeat case_match.
Qed.

(** One drag move keeps the drag invariant. *)
Lemma dragTo_invariant (layer0 : list Step) (grabbed : list Cell) (cloning : bool)
    (anchor : Cell) (st : State) (stepIndex pitchIndex : Z) :
  forallb (inGrid layer0) grabbed = true ->
  DragInProgress layer0 grabbed cloning anchor st ->
  DragInProgress layer0 grabbed cloning anchor (dragTo stepIndex pitchIndex anchor st)
  /\ dragLastPositions (dragTo stepIndex pitchIndex anchor st)
     = List.filter (inBounds (zlength layer0))
         (translate (stepIndex - anchor.1) (pitchIndex - anchor.2) <$> grabbed)
  /\ forall layer', getCurrentLayer (dragTo stepIndex pitchIndex anchor st) = Some layer' ->
       forall c, cellActive layer' c
                 = dragBase layer0 grabbed cloning c
                   || bool_decide (c ∈ dragLastPositions (dragTo stepIndex pitchIndex anchor st)).
Proof.
  intros Hgrabbed Hinv.
  pose proof (dragCleared_inGrid _ _ _ _ _ Hinv Hgrabbed) as Hcleared.
  pose proof Hinv as (Hrect & Hdrag & Hcell & Hclone & Hstart & layer & Hlayer & Hwf
                      & Hlen & Hgrid & Hcase).
  pose proof (fun c => drag_restores_base _ _ _ _ _ _ c Hinv Hlayer) as Hrestored.
  destruct (dragTo_spec stepIndex pitchIndex anchor st layer Hlayer)
    as (Hlayer' & Hlast' & Hover' & Hrect' & Hdrag' & Hcell' & Hclone' & Hstart').
  rewrite Hstart, Hlen in Hlast'.
  set (restored := foldl setOne (foldl clearOne layer (dragCleared st))
                         (dragOverwrittenNotes st)) in *.
  assert (Hrlen : zlength restored = zlength layer0).
  { subst restored. by rewrite foldl_setOne_length, foldl_clearOne_length. }
  assert (Hcells : forall c,
            cellActive (foldl setOne restored (dragLastPositions
                          (dragTo stepIndex pitchIndex anchor st))) c
            = dragBase layer0 grabbed cloning c
              || bool_decide (c ∈ dragLastPositions (dragTo stepIndex pitchIndex anchor st))).
  { intros c. rewrite cellActive_foldl_setOne, Hrestored. f_equal.
    destruct (bool_decide _) eqn:Hc; [|done]. apply bool_decide_eq_true_1 in Hc.
    rewrite Hlast' in Hc. apply elem_of_List_filter in Hc as [_ Hc].
    unfold inGrid. by rewrite Hrlen. }
  rewrite Hstart, Hlen in Hlayer', Hover'. rewrite <- Hlast' in Hlayer', Hover'.
  split_and!; [|done|].
  - unfold DragInProgress. split_and!; try congruence.
    exists (foldl setOne restored (dragLastPositions (dragTo stepIndex pitchIndex anchor st))).
    split_and!.
    + done.
    + apply wfLayerb_foldl_setOne, wfLayerb_foldl_setOne, wfLayerb_foldl_clearOne; [done|].
      unfold inGrid in *. by rewrite Hlen.
    + by rewrite foldl_setOne_length.
    + rewrite Hlast'. by apply forallb_filter_inBounds.
    + right. split; [|done]. rewrite Hover'. apply filter_ext. intros c. apply Hrestored.
  - intros layer' Hl'. rewrite Hlayer' in Hl'. injection Hl' as <-. apply Hcells.
Qed.

Lemma runEvents_thrown (evs : list Event) (st : State) :
  foldl (fun o ev => andThen o (fun st => dispatch st ev)) (Thrown st) evs = Thrown st.
Proof. induction evs as [|ev evs IH]; [done|]. cbn [foldl andThen]. apply IH. Qed.

Lemma runEvents_cons (ev : Event) (evs : list Event) (st : State) :
  runEvents (ev :: evs) st = andThen (dispatch st ev) (runEvents evs).
Proof.
  unfold runEvents. cbn [foldl andThen].
  destruct (dispatch st ev) as [st'|st']; cbn [andThen]; [done|apply runEvents_thrown].
Qed.

Lemma runEvents_app (evs1 evs2 : list Event) (st : State) :
  runEvents (evs1 ++ evs2) st = andThen (runEvents evs1 st) (runEvents evs2).
Proof.
  unfold runEvents. rewrite foldl_app.
  destruct (foldl _ (Returned st) evs1) as [st'|st']; cbn [andThen];
    [done|apply runEvents_thrown].
Qed.

Lemma List_filter_all {A : Type} (f : A -> bool) (l : list A) :
  forallb f l = true -> List.filter f l = l.
Proof.
  induction l as [|x l IH]; [done|]. cbn [forallb List.filter].
  intros [-> Hl]%andb_prop. by rewrite IH.
Qed.

Lemma translate_zero (c : Cell) (z w : Z) : translate (z - z) (w - w) c = c.
Proof. destruct c as [s p]. unfold translate. cbn [fst snd]. f_equal; lia. Qed.

Lemma parseKey_inGrid (layer : list Step) (l : list Cell) :
  forallb (inGrid layer) l = true -> parseKey <$> l = l.
Proof.
  induction l as [|c l IH]; [done|]. cbn [forallb]. intros [Hc Hl]%andb_prop.
  rewrite fmap_cons, IH by done. f_equal. unfold parseKey.
  unfold inGrid, inBounds in Hc. repeat (apply andb_prop in Hc as [Hc ?]).
  destruct (Z.ltb_spec c.1 0), (Z.ltb_spec c.2 0); try done; lia.
Qed.

(** Pointer-enter during a drag returns and keeps the drag invariant. *)
Lemma enter_keeps_drag (layer0 : list Step) (grabbed : list Cell) (cloning : bool)
    (anchor : Cell) (st : State) (c : Cell) :
  forallb (inGrid layer0) grabbed = true ->
  DragInProgress layer0 grabbed cloning anchor st ->
  exists st', dispatch st (CellMouseenter c.1 c.2) = Returned st'
              /\ DragInProgress layer0 grabbed cloning anchor st'.
Proof.
  intros Hgrabbed Hinv.
  pose proof Hinv as (Hrect & Hdrag & Hcell & _ & _ & layer & Hlayer & _).
  cbn [dispatch]. unfold onCell. rewrite Hlayer.
  destruct (inBounds _ _); [|by exists st].
  unfold handleCellMouseenter. rewrite Hrect, Hdrag, Hcell.
  eexists. split; [reflexivity|]. by apply dragTo_invariant.
Qed.

Lemma enters_keep_drag (layer0 : list Step) (grabbed : list Cell) (cloning : bool)
    (anchor : Cell) (cells : list Cell) (st : State) :
  forallb (inGrid layer0) grabbed = true ->
  DragInProgress layer0 grabbed cloning anchor st ->
  exists st', runEvents (enterCells cells) st = Returned st'
              /\ DragInProgress layer0 grabbed cloning anchor st'.
Proof.
  intros Hgrabbed. revert st. induction cells as [|c cells IH]; intros st Hinv.
  - by exists st.
  - unfold enterCells. rewrite fmap_cons, runEvents_cons.
    destruct (enter_keeps_drag _ _ _ _ st c Hgrabbed Hinv) as (st1 & -> & Hinv1).
    cbn [andThen]. by apply IH.
Qed.

(** Pointer-down without modifiers (or with alt alone) on a selected,
    enabled note starts a drag of the whole selection. *)
Lemma mousedown_starts_drag (st : State) (layer : list Step) (anchor : Cell) (e : MouseEvent) :
  getCurrentLayer st = Some layer ->
  wfLayerb layer = true ->
  metaKey e || ctrlKey e || shiftKey e = false ->
  allowNonScaleNotes st || isInScale st anchor.2 = true ->
  anchor ∈ selectedNotes st ->
  forallb (inGrid layer) (selectedNotes st) = true ->
  exists st', dispatch st (CellMousedown anchor.1 anchor.2 e) = Returned st'
              /\ isSelectingRect st' = isSelectingRect st
              /\ getCurrentLayer st' = Some layer
              /\ (isSelectingRect st = false ->
                  DragInProgress layer (selectedNotes st) (altKey e) anchor st').
Proof.
  intros Hlayer Hwf Hmods Henabled Hanchor Hgrid.
  destruct anchor as [s p]. cbn [fst snd] in *.
  apply orb_false_elim in Hmods as [[Hmeta Hctrl]%orb_false_elim Hshift].
  pose proof (forallb_elem_of _ _ _ Hgrid Hanchor) as Hin.
  cbn [dispatch]. unfold onCell. rewrite Hlayer. unfold inGrid in Hin. rewrite Hin.
  unfold handleCellMousedown, cellOpts. cbn [isDisabled hasNote noteSelected].
  assert (negb (allowNonScaleNotes st) && negb (isInScale st p) = false) as ->.
  { by destruct (allowNonScaleNotes st), (isInScale st p). }
  rewrite Hmeta, Hctrl, Hshift. cbn [orb andb].
  unfold isNoteSelected, setHas. rewrite (bool_decide_eq_true_2 _ Hanchor).
  assert ((0 <? zlength (selectedNotes st)) = true) as ->.
  { apply selection_nonempty. by intros Heq; rewrite Heq in Hanchor; apply elem_of_nil in Hanchor. }
  cbn [andb]. eexists. split; [reflexivity|].
  assert (Hsame : getCurrentLayer
            (set_isDragging true
               (set_isCloning (altKey e)
                  (set_dragOverwrittenNotes []
                     (set_dragLastPositions []
                        (set_dragStartCell (Some (s, p))
                           (set_dragStartNotes (getSelectedNotesArray st)
                              (set_selectedNotes [] st))))))) = Some layer).
  { rewrite <- Hlayer. by apply getCurrentLayer_sameGrid. }
  split; [done|]. split; [exact Hsame|]. intros Hrect.
  unfold DragInProgress.
  cbn [isSelectingRect isDragging dragStartCell isCloning dragStartNotes dragLastPositions
       dragOverwrittenNotes set_isDragging set_isCloning set_dragOverwrittenNotes
       set_dragLastPositions set_dragStartCell set_dragStartNotes set_selectedNotes].
  split_and!; try done.
  - unfold getSelectedNotesArray. by apply (parseKey_inGrid layer).
  - exists layer. split_and!; try done. by left.
Qed.

(** While a rectangle is being drawn, pointer-enter only moves its
    corner. *)
Lemma enters_keep_rect (layer : list Step) (cells : list Cell) (st : State) :
  isSelectingRect st = true -> getCurrentLayer st = Some layer ->
  exists st', runEvents (enterCells cells) st = Returned st'
              /\ isSelectingRect st' = true /\ getCurrentLayer st' = Some layer.
Proof.
  revert st. induction cells as [|c cells IH]; intros st Hrect Hlayer.
  - by exists st.
  - unfold enterCells. rewrite fmap_cons, runEvents_cons. cbn [dispatch].
    unfold onCell. rewrite Hlayer.
    destruct (inBounds _ _); cbn [andThen]; [|by apply IH].
    unfold handleCellMouseenter. rewrite Hrect. cbn [andThen].
    apply IH; [done|]. rewrite <- Hlayer. by apply getCurrentLayer_sameGrid.
Qed.

Lemma handleMouseup_layer (st : State) : getCurrentLayer (handleMouseup st) = getCurrentLayer st.
Proof.
  apply getCurrentLayer_sameGrid. unfold handleMouseup.
  destruct (isSelectingRect st); [|done].
  destruct (getSelectionRect st) as [rect|]; [|done].
  unfold addNotesInRectToSelection. by destruct (getCurrentLayer st).
Qed.

(** Grab a selection whose coordinates all hold notes, move the pointer
    over any cells and bring it back to the cell the drag began on: the
    current layer is then exactly the layer as it was before the drag,
    and stays so when the button is released.  This holds for moving and
    for cloning drags.  (The layer's pitch arrays are as
    [createStepLayer] builds them.) *)
Theorem drag_zero_offset (st : State) (layer : list Step) (anchor : Cell) (e : MouseEvent)
    (moves : list Cell)
    (Hlayer : getCurrentLayer st = Some layer)
    (Hwf : wfLayerb layer = true)
    (Hmods : metaKey e || ctrlKey e || shiftKey e = false)
    (Henabled : allowNonScaleNotes st || isInScale st anchor.2 = true)
    (Hanchor : anchor ∈ selectedNotes st)
    (Hnotes : forallb (cellActive layer) (selectedNotes st) = true) :
  exists st',
    runEvents (CellMousedown anchor.1 anchor.2 e
               :: enterCells moves ++ [CellMouseenter anchor.1 anchor.2]) st
    = Returned st'
    /\ getCurrentLayer st' = Some layer
    /\ getCurrentLayer (handleMouseup st') = Some layer.
Proof.
  assert (Hgrid : forallb (inGrid layer) (selectedNotes st) = true).
  { apply forallb_forall. intros c Hc%list_elem_of_In.
    apply wfLayerb_active_inGrid; [done|]. by eapply forallb_elem_of. }
  destruct (mousedown_starts_drag st layer anchor e)
    as (st1 & Hdown & Hrect1 & Hlayer1 & Hinv1); try done.
  rewrite runEvents_cons, Hdown. cbn [andThen].
  destruct (isSelectingRect st) eqn:Hrect.
  { assert (enterCells moves ++ [CellMouseenter anchor.1 anchor.2]
            = enterCells (moves ++ [anchor])) as ->
      by (unfold enterCells; by rewrite fmap_app).
    destruct (enters_keep_rect layer (moves ++ [anchor]) st1 Hrect1 Hlayer1)
      as (st2 & -> & _ & Hlayer2).
    exists st2. split; [done|]. split; [done|]. by rewrite handleMouseup_layer. }
  specialize (Hinv1 eq_refl).
  destruct (enters_keep_drag _ _ _ _ moves st1 Hgrid Hinv1) as (st2 & Hmoves & Hinv2).
  rewrite runEvents_app, Hmoves. cbn [andThen].
  rewrite runEvents_cons.
  pose proof Hinv2 as (Hrect2 & Hdrag2 & Hcell2 & _ & _ & layer2 & Hlayer2 & _ & Hlen2 & _).
  pose proof (forallb_elem_of _ _ _ Hgrid Hanchor) as Hin.
  cbn [dispatch]. unfold onCell. rewrite Hlayer2.
  assert (inBounds (zlength layer2) (anchor.1, anchor.2) = true) as ->.
  { rewrite Hlen2. by destruct anchor. }
  unfold handleCellMouseenter. rewrite Hrect2, Hdrag2, Hcell2.
  cbn [andThen runEvents foldl].
  destruct (dragTo_invariant _ _ _ _ st2 anchor.1 anchor.2 Hgrid Hinv2)
    as (Hinv3 & Hlast3 & Hcells3).
  destruct Hinv3 as (_ & _ & _ & _ & _ & layer3 & Hlayer3 & Hwf3 & Hlen3 & _).
  assert (Hsame : layer3 = layer).
  { apply wfLayerb_ext; try done. intros c. rewrite (Hcells3 layer3 Hlayer3), Hlast3.
    erewrite list_fmap_ext; [|intros ? ? _; apply translate_zero].
    rewrite list_fmap_id, List_filter_all by done. unfold dragBase.
    destruct (bool_decide (c ∈ selectedNotes st)) eqn:Hc.
    - apply bool_decide_eq_true_1 in Hc.
      rewrite (forallb_elem_of _ _ _ Hnotes Hc). by destruct (altKey e).
    - by destruct (cellActive layer c), (altKey e). }
  subst layer3. eexists. split; [reflexivity|]. split; [done|].
  by rewrite handleMouseup_layer.
Qed.

Lemma drag_zero_offset_witness :
  exists st',
    runEvents (CellMousedown 0 71 plainClick
               :: enterCells [(1, 71); (1, 70)] ++ [CellMouseenter 0 71]) lockedPair
    = Returned st'
    /\ getCurrentLayer st' = Some pairLayer.
Proof.
  destruct (drag_zero_offset lockedPair pairLayer (0, 71) plainClick [(1, 71); (1, 70)])
    as (st' & Hrun & Hsame & _).
  - vm_compute. reflexivity.
  - vm_compute. reflexivity.
  - reflexivity.
  - vm_compute. reflexivity.
  - repeat constructor.
  - vm_compute. reflexivity.
  - exists st'. split; [exact Hrun|exact Hsame].
Defined.

(** C9 fails where the selection holds a coordinate whose note is gone:
    after a note is painted, selected and cleared with the pattern, a
    drag of the selection from its cell one step to the right and back
    leaves a note in the cell that was empty when the drag began, and
    releasing the button keeps it. *)
Lemma stale_selection_drag_adds_note :
  returned staleDragScene = true
  /\ (0, 71) ∈ selectedNotes (sessionOf clearedScene)
  /\ noteAt (sessionOf clearedScene) (0, 71) = Some false
  /\ noteAt (sessionOf staleDragScene) (0, 71) = Some true
  /\ noteAt (handleMouseup (sessionOf staleDragScene)) (0, 71) = Some true.
Proof.
  split; [vm_compute; reflexivity|].
  split; [apply (bool_decide_unpack _); vm_compute; exact I|].
  split; [vm_compute; reflexivity|].
  split; vm_compute; reflexivity.
Qed.

(** * Further properties of the page *)

(** ** What each handler leaves alone *)

Lemma clearNotesAt_transportView (ps : list Cell) (st : State) :
  transportView (clearNotesAt ps st) = transportView st.
Proof. by rewrite clearNotesAt_frame. Qed.

Lemma setNotesAt_transportView (ps : list Cell) (st : State) :
  transportView (setNotesAt ps st) = transportView st.
Proof. by rewrite setNotesAt_frame. Qed.

Lemma setCell_transportView (st : State) (step pitch : Z) (v : bool) :
  transportView (sessionOf (setCell st step pitch v)) = transportView st.
Proof.
  unfold setCell. destruct (_ && _); [done|].
  destruct (getCurrentLayer st); [|done].
  destruct (_ <=? _); [done|]. by destruct (zlookup _ _).
Qed.

Lemma dragTo_transportView (stepIndex pitchIndex : Z) (anchor : Cell) (st : State) :
  transportView (dragTo stepIndex pitchIndex anchor st) = transportView st.
Proof.
  unfold dragTo. destruct (getCurrentLayer st); [|done].
  change (transportView (set_dragOverwrittenNotes ?a (set_dragLastPositions ?b ?x)))
    with (transportView x).
  rewrite !setNotesAt_transportView. by repeat case_match; rewrite clearNotesAt_transportView.
Qed.

Lemma moveSelectedNotes_transportView (deltaStep deltaPitch : Z) (st : State) :
  transportView (moveSelectedNotes deltaStep deltaPitch st) = transportView st.
Proof.
  unfold moveSelectedNotes. repeat case_match; try done.
  change (transportView (set_selectedNotes ?a ?x)) with (transportView x).
  by rewrite setNotesAt_transportView, clearNotesAt_transportView.
Qed.

Lemma handleCellMousedown_transportView (stepIndex pitchIndex : Z) (e : MouseEvent)
    (opts : CellOpts) (st : State) :
  transportView (sessionOf (handleCellMousedown stepIndex pitchIndex e opts st))
  = transportView st.
Proof.
  unfold handleCellMousedown. repeat case_match; try done.
  set (st1 := set_paintTargetState _ _).
  pose proof (setCell_transportView st1 stepIndex pitchIndex (paintTargetState st1)) as Hf.
  by destruct (setCell st1 _ _ _).
Qed.

Lemma handleCellMouseenter_transportView (stepIndex pitchIndex : Z) (disabled : bool)
    (st : State) :
  transportView (sessionOf (handleCellMouseenter stepIndex pitchIndex disabled st))
  = transportView st.
Proof.
  unfold handleCellMouseenter. repeat case_match; cbn [sessionOf];
    rewrite ?dragTo_transportView, ?setCell_transportView; done.
Qed.

Lemma handleMouseup_transportView (st : State) :
  transportView (handleMouseup st) = transportView st.
Proof.
  unfold handleMouseup, addNotesInRectToSelection. by repeat case_match.
Qed.

Lemma deleteSelection_transportView (st : State) :
  transportView (deleteSelection st) = transportView st.
Proof.
  unfold deleteSelection. case_match; [|done].
  change (transportView (set_selectedNotes ?a ?x)) with (transportView x).
  by rewrite clearNotesAt_transportView.
Qed.

Lemma nudge_transportView (k : KeyName) (st : State) :
  transportView (nudge k st) = transportView st.
Proof. unfold nudge. case_match; [apply moveSelectedNotes_transportView|done]. Qed.

Lemma clearPattern_transportView (st : State) :
  transportView (clearPattern st) = transportView st.
Proof. unfold clearPattern. by case_match. Qed.

(** Every event but those of the sequence strip and of the transport
    leaves sequence, selected index, play state and playhead as they
    were. *)
Lemma dispatch_transportView (st : State) (ev : Event) :
  editsSequence ev = false -> movesPlayhead ev = false ->
  transportView (sessionOf (dispatch st ev)) = transportView st.
Proof.
  intros Hseq Hplay.
  destruct ev as [stepIndex pitchIndex e|stepIndex pitchIndex| |k now|now| |idx|seqIndex
                 |seqIndex up|seqIndex forward| | |value|value| | |value|value|k|s
                 |checked|checked]; try discriminate; cbn [dispatch].
  - unfold onCell. repeat case_match; try done. apply handleCellMousedown_transportView.
  - unfold onCell. repeat case_match; try done. apply handleCellMouseenter_transportView.
  - apply handleMouseup_transportView.
  - destruct k; try discriminate; cbn [handleKeydown sessionOf];
      rewrite ?deleteSelection_transportView, ?nudge_transportView; try done.
    by case_match.
  - apply clearPattern_transportView.
  - by case_match.
  - done.
  - done.
  - done.
  - done.
  - done.
  - done.
  - done.
  - done.
  - done.
  - done.
Qed.

(** The transport handlers change nothing the editor works on. *)
Lemma playStep_editorView (now : Q) (step : JsInt) (st : State) :
  editorView (sessionOf (playStep now step st)) = editorView st.
Proof. by destruct (playStep_frame now step st) as [a [-> | ->]]. Qed.

Lemma start_editorView (now : Q) (st : State) :
  editorView (sessionOf (start now st)) = editorView st.
Proof.
  unfold start. destruct (isPlaying st); [done|].
  set (st2 := set_currentStep _ _).
  pose proof (playStep_editorView now (currentStep st2) st2) as H.
  by destruct (playStep now (currentStep st2) st2).
Qed.

Lemma tick_editorView (now : Q) (st : State) :
  editorView (sessionOf (startPlayingStepsUsingTimeout now st)) = editorView st.
Proof.
  unfold startPlayingStepsUsingTimeout. destruct (negb (isPlaying st)); [done|].
  set (st1 := set_currentStep _ _).
  pose proof (playStep_editorView now (currentStep st1) st1) as H.
  by destruct (playStep now (currentStep st1) st1).
Qed.

Lemma stop_editorView (st : State) : editorView (stop st) = editorView st.
Proof. unfold stop. by case_match. Qed.

Lemma dispatch_editorView (st : State) (ev : Event) :
  movesPlayhead ev = true -> editorView (sessionOf (dispatch st ev)) = editorView st.
Proof.
  destruct ev as [| | |k now|now| | | | | | | | | | | | | | | | |]; try discriminate.
  - destruct k; try discriminate. intros _. cbn [dispatch handleKeydown].
    case_match; [apply stop_editorView|apply start_editorView].
  - intros _. cbn [dispatch]. case_match; [apply tick_editorView|done].
Qed.

(** ** The sequence strip *)

Lemma runEvents_invariant (P : State -> Prop) :
  (forall st ev, P st -> P (sessionOf (dispatch st ev))) ->
  forall evs st, P st -> P (sessionOf (runEvents evs st)).
Proof.
  intros Hstep. induction evs as [|ev evs IH]; intros st HP; [done|].
  rewrite runEvents_cons. specialize (Hstep st ev HP).
  destruct (dispatch st ev) as [st'|st']; cbn [andThen sessionOf] in *; [by apply IH|done].
Qed.

Lemma SequenceOk_view (st st' : State) :
  sequence st' = sequence st -> selectedSequenceIndex st' = selectedSequenceIndex st ->
  SequenceOk st -> SequenceOk st'.
Proof. unfold SequenceOk. by intros -> ->. Qed.

Lemma cyclePatternAtPosition_length (seqIndex direction : Z) (st : State) :
  zlength (sequence (cyclePatternAtPosition seqIndex direction st)) = zlength (sequence st).
Proof.
  unfold cyclePatternAtPosition. repeat case_match; try done.
  cbn [sequence set_selectedSequenceIndex set_sequence]. apply zalter_length.
Qed.

Lemma dispatch_SequenceOk (st : State) (ev : Event) :
  SequenceOk st -> SequenceOk (sessionOf (dispatch st ev)).
Proof.
  intros Hok. destruct (editsSequence ev) eqn:Hedit.
  - pose proof Hok as [Hlen Hsel]. unfold SequenceOk.
    destruct ev; try discriminate; cbn [dispatch].
    + destruct (_ && _) eqn:Hidx; [|done]. cbn [sessionOf sequence selectedSequenceIndex
        set_selectedSequenceIndex]. apply andb_prop in Hidx as [?%Z.leb_le ?%Z.ltb_lt]. lia.
    + destruct (_ && _) eqn:Hidx; [|done]. cbn [sessionOf].
      apply andb_prop in Hidx as [?%Z.leb_le ?%Z.ltb_lt].
      rewrite cyclePatternAtPosition_length. split; [done|].
      unfold cyclePatternAtPosition. repeat case_match; try done;
        try (cbn [selectedSequenceIndex set_selectedSequenceIndex]; lia).
    + destruct (_ && _) eqn:Hidx; [|done]. cbn [sessionOf].
      apply andb_prop in Hidx as [?%Z.leb_le ?%Z.ltb_lt].
      unfold movePatternInSequence.
      destruct ((_ =? -1) && _) eqn:Hfirst; [done|].
      destruct ((_ =? 1) && _) eqn:Hlast; [done|].
      destruct (zlookup (sequence st) seqIndex) as [a|]; [|done].
      destruct (zlookup (sequence st) _) as [b|]; [|done].
      cbn [sequence selectedSequenceIndex set_selectedSequenceIndex set_sequence].
      rewrite !zalter_length. split; [done|].
      destruct forward; cbn [Z.eqb] in *.
      * apply andb_false_iff in Hlast as [?|?%Z.leb_gt]; [done|]. lia.
      * apply andb_false_iff in Hfirst as [?|?%Z.eqb_neq]; [done|]. lia.
    + cbn [sessionOf]. unfold addToSequence.
      destruct (Z.ltb_spec (zlength (sequence st)) MAX_MEASURES); [|done].
      cbn [sequence selectedSequenceIndex set_sequence]. unfold zlength in *.
      rewrite length_app. cbn [length]. lia.
    + cbn [sessionOf]. unfold removeLast.
      destruct (Z.ltb_spec 1 (zlength (sequence st))); [|done].
      cbn [sequence selectedSequenceIndex set_sequence].
      assert (Hcut : zlength (take (length (sequence st) - 1) (sequence st))
                     = zlength (sequence st) - 1).
      { unfold zlength in *. rewrite length_take. lia. }
      destruct (Z.leb_spec (zlength (take (length (sequence st) - 1) (sequence st)))
                  (selectedSequenceIndex st));
        cbn [sequence selectedSequenceIndex set_selectedSequenceIndex set_sequence];
        rewrite Hcut in *; [|lia].
      destruct (Z.ltb_spec (zlength (sequence st) - 1 - 1) 0); lia.
  - destruct (movesPlayhead ev) eqn:Hmove.
    + pose proof (dispatch_editorView st ev Hmove) as Hview.
      injection Hview as _ Hseq Hsel _ _ _ _ _. by apply (SequenceOk_view st).
    + pose proof (dispatch_transportView st ev Hedit Hmove) as Hview.
      injection Hview as Hseq Hsel _ _. by apply (SequenceOk_view st).
Qed.

(** X1: whatever events arrive, the sequence keeps between one and
    [MAX_MEASURES] entries and [selectedSequenceIndex] keeps naming one of
    them. *)
Theorem sequence_stays_valid (st : State) (evs : list Event) (Hok : SequenceOk st) :
  SequenceOk (sessionOf (runEvents evs st)).
Proof. by apply (runEvents_invariant SequenceOk); [apply dispatch_SequenceOk|]. Qed.

Lemma SequenceOk_reset : SequenceOk reset.
Proof.
  unfold SequenceOk. cbn [reset sequence selectedSequenceIndex].
  unfold zlength, MAX_MEASURES. simpl length. lia.
Qed.

Lemma sequence_stays_valid_witness :
  SequenceOk (sessionOf (runEvents [ClickAddToSequence; CyclePattern 1 true;
                                    ClickSequenceCell 1; ClickRemoveLast] reset)).
Proof. apply sequence_stays_valid. exact SequenceOk_reset. Defined.

(** ** No handler throws *)







(** ** Clamping and step duration *)

Lemma Qltb_inject_Z (a b : Z) : Qltb (inject_Z a) (inject_Z b) = (a <? b).
Proof.
  unfold Qltb. destruct (Z.ltb_spec a b) as [Hlt|Hge].
  - apply negb_true_iff. destruct (Qle_bool _ _) eqn:Hle; [|done].
    apply Qle_bool_iff in Hle. rewrite <- Zle_Qle in Hle. lia.
  - apply negb_false_iff, Qle_bool_iff. by rewrite <- Zle_Qle.
Qed.

Lemma mathTrunc_inject_Z (n : Z) : mathTrunc (inject_Z n) = n.
Proof. unfold mathTrunc, inject_Z. cbn [Qnum Qden]. apply Z.quot_1_r. Qed.

Lemma clampBeatsPerMeasure_ofInt (n : Z) :
  MIN_BEATS_PER_MEASURE <= n <= MAX_BEATS_PER_MEASURE -> clampBeatsPerMeasure (ofInt n) = n.
Proof.
  intros Hn. unfold clampBeatsPerMeasure, ofInt. rewrite !Qltb_inject_Z.
  destruct (Z.ltb_spec n MIN_BEATS_PER_MEASURE); [lia|].
  destruct (Z.ltb_spec MAX_BEATS_PER_MEASURE n); [lia|]. apply mathTrunc_inject_Z.
Qed.

Lemma clampStepsPerBeat_ofInt (n : Z) :
  MIN_STEPS_PER_BEAT <= n <= MAX_STEPS_PER_BEAT -> clampStepsPerBeat (ofInt n) = n.
Proof.
  intros Hn. unfold clampStepsPerBeat, ofInt. rewrite !Qltb_inject_Z.
  destruct (Z.ltb_spec n MIN_STEPS_PER_BEAT); [lia|].
  destruct (Z.ltb_spec MAX_STEPS_PER_BEAT n); [lia|]. apply mathTrunc_inject_Z.
Qed.

(** X3: the meter clamps answer an integer between 1 and 16 for every
    input, finite or not, and clamping a clamped value changes nothing:
    what the blur handlers store back is a fixed point. *)
Theorem clamp_meter_fixed_point (value : JsNum) :
  1 <= clampBeatsPerMeasure value <= 16
  /\ 1 <= clampStepsPerBeat value <= 16
  /\ clampBeatsPerMeasure (ofInt (clampBeatsPerMeasure value)) = clampBeatsPerMeasure value
  /\ clampStepsPerBeat (ofInt (clampStepsPerBeat value)) = clampStepsPerBeat value.
Proof.
  pose proof (clampBeatsPerMeasure_range value) as Hb.
  pose proof (clampStepsPerBeat_range value) as Hs.
  split; [exact Hb|]. split; [exact Hs|].
  split; [by apply clampBeatsPerMeasure_ofInt|by apply clampStepsPerBeat_ofInt].
Qed.

Lemma Qltb_true_lt (a b : Q) : Qltb a b = true -> (a < b)%Q.
Proof.
  unfold Qltb. rewrite negb_true_iff. intros H. apply Qnot_le_lt. intros Hle.
  apply Qle_bool_iff in Hle. congruence.
Qed.

Lemma clampBpm_range (value : JsNum) :
  (inject_Z MIN_BPM <= clampBpm value <= inject_Z MAX_BPM)%Q.
Proof.
  unfold clampBpm. destruct value as [|q].
  - split; [apply Qle_refl|]. by rewrite <- Zle_Qle.
  - destruct (Qltb q _) eqn:Hlo.
    + split; [apply Qle_refl|]. by rewrite <- Zle_Qle.
    + destruct (Qltb _ q) eqn:Hhi.
      * split; [by rewrite <- Zle_Qle|apply Qle_refl].
      * split; by apply Qltb_false_le.
Qed.

(** X4: whatever the tempo and grid inputs hold, the clamped tempo lies
    between 40 and 300 and the step duration between 1/80 s and 3/2 s: the
    timer is always armed a positive, bounded time ahead. *)
Theorem stepDuration_bounds (st : State) :
  (40 <= clampBpm (bpm st) <= 300)%Q
  /\ (1 / 80 <= stepDurationSeconds st <= 3 / 2)%Q
  /\ (0 < stepDurationSeconds st * 1000)%Q.
Proof.
  pose proof (clampBpm_range (bpm st)) as [Hlo Hhi].
  pose proof (clampStepsPerBeat_range (stepsPerBeat st)) as [Hs1 Hs2].
  change (inject_Z MIN_BPM) with 40%Q in Hlo. change (inject_Z MAX_BPM) with 300%Q in Hhi.
  rewrite Zle_Qle in Hs1, Hs2.
  change (inject_Z MIN_STEPS_PER_BEAT) with 1%Q in Hs1.
  change (inject_Z MAX_STEPS_PER_BEAT) with 16%Q in Hs2.
  unfold stepDurationSeconds.
  set (b := clampBpm (bpm st)) in *.
  set (s := inject_Z (clampStepsPerBeat (stepsPerBeat st))) in *.
  clearbody b s.
  assert (Hmin : (40 <= b * s)%Q) by nra.
  assert (Hmax : (b * s <= 4800)%Q) by nra.
  assert (Hpos : (0 < b * s)%Q) by lra.
  set (x := (b * s)%Q) in *. clearbody x.
  assert (Hd : (1 / 80 <= 60 / x <= 3 / 2)%Q).
  { change (1 / 80)%Q with (1 # 80)%Q. change (3 / 2)%Q with (3 # 2)%Q. split.
    - apply Qle_shift_div_l; [done|]. lra.
    - apply Qle_shift_div_r; [done|]. lra. }
  split; [done|]. split; [done|]. destruct Hd as [Hd _].
  change (1 / 80)%Q with (1 # 80)%Q in Hd. lra.
Qed.

(** ** Scale theory *)

Lemma noteInOctave_range (p : Z) :
  0 <= p < NUM_PITCHES ->
  0 <= Z.rem (NUM_PITCHES - 1 - p) 12 < 12
  /\ Z.rem (NUM_PITCHES - 1 - p) 12 = (NUM_PITCHES - 1 - p) mod 12.
Proof.
  unfold NUM_PITCHES, NUM_OCTAVES. intros Hp.
  rewrite Z.rem_mod_nonneg by lia. split; [apply Z.mod_pos_bound; lia|done].
Qed.

Lemma getChromaticIndex_spec (k : string) :
  k ∈ chromatic ->
  0 <= getChromaticIndex k < 12 /\ zlookup chromatic (getChromaticIndex k) = Some k.
Proof.
  intros H. unfold chromatic in H.
  repeat (apply elem_of_cons in H as [->|H]); [..|by apply elem_of_nil in H];
    (split; [by vm_compute|reflexivity]).
Qed.

Local Ltac zcases r :=
  let H := fresh in
  assert (H : r = 0 \/ r = 1 \/ r = 2 \/ r = 3 \/ r = 4 \/ r = 5 \/ r = 6
              \/ r = 7 \/ r = 8 \/ r = 9 \/ r = 10 \/ r = 11) by lia;
  destruct_or! H; subst r.

Lemma relativeInterval_fifth (r : Z) :
  0 <= r < 12 -> Z.rem (Z.rem (r + 7) 12 - r + 12) 12 = 7.
Proof. intros Hr. zcases r; reflexivity. Qed.

Lemma relativeInterval_range (n r : Z) :
  0 <= n < 12 -> 0 <= r < 12 -> 0 <= Z.rem (n - r + 12) 12 < 12.
Proof. intros Hn Hr. rewrite Z.rem_mod_nonneg by lia. apply Z.mod_pos_bound. lia. Qed.

Lemma noteInOctave_octave (p : Z) :
  0 <= p -> p + 12 < NUM_PITCHES ->
  Z.rem (NUM_PITCHES - 1 - (p + 12)) 12 = Z.rem (NUM_PITCHES - 1 - p) 12.
Proof.
  unfold NUM_PITCHES, NUM_OCTAVES. intros H0 H1.
  rewrite !Z.rem_mod_nonneg by lia.
  replace (6 * 12 - 1 - p) with (6 * 12 - 1 - (p + 12) + 1 * 12) by lia.
  by rewrite Z.mod_add.
Qed.

Lemma isRootNote_isInScale (st : State) (p : Z) :
  isRootNote st p = true -> isInScale st p = true.
Proof.
  unfold isRootNote, isInScale. cbv zeta. intros Heq%Z.eqb_eq. rewrite Heq.
  replace (getChromaticIndex (key st) - getChromaticIndex (key st) + 12) with 12 by lia.
  by destruct (scale st).
Qed.

Lemma isFifthNote_isInScale (st : State) (p : Z) :
  key st ∈ chromatic -> isFifthNote st p = true ->
  (isInScale st p = true <-> scale st <> Locrian).
Proof.
  intros Hkey. destruct (getChromaticIndex_spec _ Hkey) as [Hr _].
  unfold isFifthNote, isInScale. cbv zeta.
  intros Heq%Z.eqb_eq. rewrite Heq, relativeInterval_fifth by done.
  destruct (scale st); split; try done; intros _; by vm_compute.
Qed.

(** X5: with the key taken from the key menu, a root cell is a scale cell
    in every scale; a fifth is a scale cell in every scale but Locrian; no
    cell is both root and fifth; the chromatic scale holds every cell; and
    the three tests repeat every twelve slots. *)
Theorem scale_theory (st : State) (p : Z)
    (Hkey : key st ∈ chromatic) (Hp : 0 <= p < NUM_PITCHES) :
  (isRootNote st p = true -> isInScale st p = true)
  /\ (isFifthNote st p = true -> (isInScale st p = true <-> scale st <> Locrian))
  /\ isRootNote st p && isFifthNote st p = false
  /\ (scale st = Chromatic -> isInScale st p = true)
  /\ (p + 12 < NUM_PITCHES ->
      isInScale st (p + 12) = isInScale st p
      /\ isRootNote st (p + 12) = isRootNote st p
      /\ isFifthNote st (p + 12) = isFifthNote st p).
Proof.
  destruct (getChromaticIndex_spec _ Hkey) as [Hr _].
  destruct (noteInOctave_range p Hp) as [Hn _].
  split; [apply isRootNote_isInScale|]. split; [by apply isFifthNote_isInScale|].
  unfold isRootNote, isFifthNote, isInScale. cbv zeta.
  split_and!.
  - set (n := Z.rem _ 12) in *. set (r := getChromaticIndex _) in *. clearbody n r.
    destruct (n =? r) eqn:E1; [|done]. apply Z.eqb_eq in E1. subst n.
    zcases r; reflexivity.
  - intros ->. pose proof (relativeInterval_range _ _ Hn Hr) as Hi.
    set (i := Z.rem (_ - _ + 12) 12) in *. clearbody i. zcases i; reflexivity.
  - intros Hq. by rewrite noteInOctave_octave by lia.
Qed.

Lemma scale_theory_witness :
  isInScale reset 71 = true /\ isRootNote reset 59 = isRootNote reset 71.
Proof.
  assert (Hkey : key reset ∈ chromatic) by (apply elem_of_cons; by left).
  assert (Hp : 0 <= 59 < NUM_PITCHES) by (unfold NUM_PITCHES, NUM_OCTAVES; lia).
  destruct (scale_theory reset 59 Hkey Hp) as (_ & _ & _ & _ & Hoct).
  destruct Hoct as (_ & Hroot & _); [unfold NUM_PITCHES, NUM_OCTAVES; lia|].
  split; [reflexivity|]. symmetry. exact Hroot.
Defined.

(** X7: the label of a slot is dimmed exactly when the slot is outside the
    scale, and the style of a fifth outside the scale is met in Locrian
    only. *)
Theorem label_classes (st : State) (p : Z) (Hkey : key st ∈ chromatic) :
  (isInScale st p = false <->
   getNoteLabelClasses st p = "text-purple-600"%string
   \/ getNoteLabelClasses st p = "text-slate-500"%string)
  /\ (getNoteLabelClasses st p = "text-purple-600"%string -> scale st = Locrian).
Proof.
  pose proof (isRootNote_isInScale st p) as Hroot.
  pose proof (isFifthNote_isInScale st p Hkey) as Hfifth.
  unfold getNoteLabelClasses, isFifthInScale.
  destruct (isRootNote st p), (isFifthNote st p) eqn:Ef, (isInScale st p) eqn:Es;
    cbn [andb]; try (specialize (Hroot eq_refl); discriminate);
    (split; [split; [try done; intros _; by (left + right) | by intros [?|?]] |]);
    try done.
  intros _. destruct (Hfifth eq_refl) as [_ H].
  destruct (scale st); try done; exfalso; (assert (false = true) by (by apply H)); done.
Qed.

Lemma label_classes_witness :
  getNoteLabelClasses reset 70 = "text-slate-500"%string /\ isInScale reset 70 = false.
Proof.
  assert (Hkey : key reset ∈ chromatic) by (apply elem_of_cons; by left).
  pose proof (proj1 (label_classes reset 70 Hkey)) as [_ H].
  split; [reflexivity|]. apply H. by right.
Defined.

(** ** Note labels *)

Lemma chromatic_lookup_inj (i j : Z) (x : string) :
  zlookup chromatic i = Some x -> zlookup chromatic j = Some x -> i = j.
Proof.
  intros [Hi Hli]%zlookup_Some [Hj Hlj]%zlookup_Some.
  assert (Hnd : NoDup chromatic) by (by apply (bool_decide_unpack (NoDup chromatic))).
  pose proof (NoDup_lookup _ _ _ _ Hnd Hli Hlj). lia.
Qed.

(** X6: every slot of the grid has a label, a name of the chromatic list
    with an octave from 1 to 6; no two slots share a label; the name is the
    pitch class of the MIDI note the slot plays; and the slots flagged as
    root are those labelled with the key. *)
Theorem note_labels (st : State) (p : Z) (Hp : 0 <= p < NUM_PITCHES) :
  (exists note, getNoteName p = (Some note, (getNoteName p).2)
                /\ note ∈ chromatic /\ 1 <= (getNoteName p).2 <= 6)
  /\ (forall q, 0 <= q < NUM_PITCHES -> getNoteName q = getNoteName p -> q = p)
  /\ (getNoteName p).1 = zlookup chromatic (midiOfPitch p mod 12)
  /\ (key st ∈ chromatic ->
      (isRootNote st p = true <-> (getNoteName p).1 = Some (key st))).
Proof.
  destruct (noteInOctave_range p Hp) as [Hn Hmod].
  unfold getNoteName. cbv zeta. cbn [fst snd].
  split_and!.
  - destruct (zlookup chromatic (Z.rem (NUM_PITCHES - 1 - p) 12)) as [note|] eqn:E.
    + exists note. split; [done|]. split.
      * apply zlookup_Some in E as [_ E]. by eapply list_elem_of_lookup_2.
      * unfold START_OCTAVE, NUM_PITCHES, NUM_OCTAVES in *.
        assert (0 <= (6 * 12 - 1 - p) / 12 < 6); [|lia].
        split; [apply Z.div_pos; lia|apply Z.div_lt_upper_bound; lia].
    + apply zlookup_None in E. unfold zlength in E. simpl in E. lia.
  - intros q Hq Heq. destruct (noteInOctave_range q Hq) as [Hnq Hmodq].
    injection Heq as Hnote Hoct.
    destruct (zlookup chromatic (Z.rem (NUM_PITCHES - 1 - p) 12)) as [note|] eqn:E.
    + pose proof (chromatic_lookup_inj _ _ _ Hnote E) as Hrem.
      rewrite Hmod, Hmodq in Hrem. unfold START_OCTAVE, NUM_PITCHES, NUM_OCTAVES in *.
      pose proof (Z.div_mod (6 * 12 - 1 - p) 12). pose proof (Z.div_mod (6 * 12 - 1 - q) 12).
      lia.
    + apply zlookup_None in E. unfold zlength in E. simpl in E. lia.
  - f_equal. rewrite Hmod. unfold midiOfPitch, BASE_MIDI_NOTE.
    replace (48 + (NUM_PITCHES - 1 - p)) with (NUM_PITCHES - 1 - p + 4 * 12) by lia.
    by rewrite Z.mod_add.
  - intros Hkey. destruct (getChromaticIndex_spec _ Hkey) as [Hr Hl].
    unfold isRootNote. cbv zeta. rewrite Z.eqb_eq. split.
    + by intros ->.
    + intros E. by eapply chromatic_lookup_inj.
Qed.

Lemma note_labels_witness :
  getNoteName 71 = (Some "C"%string, 1) /\ (forall q, 0 <= q < NUM_PITCHES -> getNoteName q = getNoteName 71 -> q = 71).
Proof.
  assert (Hp : 0 <= 71 < NUM_PITCHES) by (unfold NUM_PITCHES, NUM_OCTAVES; lia).
  split; [reflexivity|]. exact (proj1 (proj2 (note_labels reset 71 Hp))).
Defined.

(** ** The timeline, both ways *)

Lemma getPatternAtStepFrom_hit (st : State) (pre rest : list Z) (pid k acc i : Z) :
  0 <= k < stepsPerPattern st pid ->
  getPatternAtStepFrom st (acc + sumSteps st pre + k) acc i (pre ++ pid :: rest)
  = Some {| patternIndex := i + zlength pre; stepInPattern := k; patternId := pid |}.
Proof.
  intros Hk. revert acc i. induction pre as [|x pre IH]; intros acc i.
  - cbn [app getPatternAtStepFrom]. unfold sumSteps, zlength. cbn [foldl length].
    destruct (Z.ltb_spec (acc + 0 + k) (acc + stepsPerPattern st pid)); [|lia].
    f_equal. f_equal; lia.
  - cbn [app getPatternAtStepFrom]. rewrite sumSteps_cons.
    pose proof (sumSteps_nonneg st pre).
    destruct (Z.ltb_spec (acc + (stepsPerPattern st x + sumSteps st pre) + k)
                         (acc + stepsPerPattern st x)); [lia|].
    replace (acc + (stepsPerPattern st x + sumSteps st pre) + k)
      with (acc + stepsPerPattern st x + sumSteps st pre + k) by lia.
    rewrite IH. f_equal. unfold zlength. cbn [length]. f_equal. lia.
Qed.

Lemma sequence_split (st : State) (i pid : Z) :
  zlookup (sequence st) i = Some pid ->
  0 <= i
  /\ sequence st = take (Z.to_nat i) (sequence st) ++ pid :: drop (S (Z.to_nat i)) (sequence st)
  /\ zlength (take (Z.to_nat i) (sequence st)) = i.
Proof.
  intros [Hi Hl]%zlookup_Some. split; [done|]. split.
  - symmetry. by apply take_drop_middle.
  - unfold zlength. rewrite length_take. apply lookup_lt_Some in Hl. lia.
Qed.

Lemma getPatternAtStep_entry (st : State) (i pid k : Z) :
  zlookup (sequence st) i = Some pid -> 0 <= k < stepsPerPattern st pid ->
  getPatternAtStep st (getStepForSequenceIndex st i + k)
  = Some {| patternIndex := i; stepInPattern := k; patternId := pid |}.
Proof.
  intros Hi Hk. destruct (sequence_split st i pid Hi) as (H0 & Hsplit & Hlen).
  unfold getPatternAtStep. rewrite Hsplit at 1.
  change (getStepForSequenceIndex st i) with (sumSteps st (take (Z.to_nat i) (sequence st))).
  pose proof (getPatternAtStepFrom_hit st (take (Z.to_nat i) (sequence st))
                (drop (S (Z.to_nat i)) (sequence st)) pid k 0 0 Hk) as Hhit.
  rewrite Hlen in Hhit. cbn in Hhit. rewrite Z.add_0_l in Hhit. exact Hhit.
Qed.

(** X8: [getPatternAtStep] inverts [getStepForSequenceIndex]: the [k]-th
    step after the first step of sequence entry [i] is located at entry
    [i], local step [k]; consecutive entries start one pattern length
    apart; and an index at or past the end of the sequence maps to the
    length of the loop. *)
Theorem timeline_round_trip (st : State) (i pid k : Z)
    (Hi : zlookup (sequence st) i = Some pid)
    (Hk : 0 <= k < stepsPerPattern st pid) :
  getPatternAtStep st (getStepForSequenceIndex st i + k)
  = Some {| patternIndex := i; stepInPattern := k; patternId := pid |}
  /\ getStepForSequenceIndex st (i + 1)
     = getStepForSequenceIndex st i + stepsPerPattern st pid
  /\ getStepForSequenceIndex st (i + 1) <= totalSteps st
  /\ forall j, zlength (sequence st) <= j -> getStepForSequenceIndex st j = totalSteps st.
Proof.
  split; [by apply getPatternAtStep_entry|].
  destruct (sequence_split st i pid Hi) as (H0 & Hsplit & Hlen).
  assert (Hnext : take (Z.to_nat (i + 1)) (sequence st)
                  = take (Z.to_nat i) (sequence st) ++ [pid]).
  { replace (Z.to_nat (i + 1)) with (S (Z.to_nat i)) by lia.
    apply zlookup_Some in Hi as [_ Hl]. by apply take_S_r. }
  split_and!.
  - unfold getStepForSequenceIndex. rewrite Hnext.
    fold (sumSteps st (take (Z.to_nat i) (sequence st) ++ [pid])).
    rewrite sumSteps_app, sumSteps_cons. unfold sumSteps. cbn [foldl]. lia.
  - change (sumSteps st (take (Z.to_nat (i + 1)) (sequence st)) <= sumSteps st (sequence st)).
    rewrite <- (take_drop (Z.to_nat (i + 1)) (sequence st)) at 2.
    rewrite sumSteps_app. pose proof (sumSteps_nonneg st (drop (Z.to_nat (i + 1)) (sequence st))).
    lia.
  - intros j Hj. unfold getStepForSequenceIndex, totalSteps.
    rewrite take_ge; [done|]. unfold zlength in Hj. lia.
Qed.

Lemma timeline_round_trip_witness :
  getPatternAtStep threeEntries (getStepForSequenceIndex threeEntries 1 + 5)
  = Some {| patternIndex := 1; stepInPattern := 5; patternId := 1 |}.
Proof.
  refine (proj1 (timeline_round_trip threeEntries 1 1 5 _ _)); [reflexivity|].
  by vm_compute.
Defined.

Lemma getPatternAtStep_view (st st' : State) (g : Z) :
  patterns st' = patterns st -> sequence st' = sequence st ->
  getPatternAtStep st' g = getPatternAtStep st g.
Proof.
  intros Hp Hs. unfold getPatternAtStep. rewrite Hs.
  apply getPatternAtStepFrom_meters. by rewrite Hp.
Qed.

Lemma getStepForSequenceIndex_view (st st' : State) (i : Z) :
  patterns st' = patterns st -> sequence st' = sequence st ->
  getStepForSequenceIndex st' i = getStepForSequenceIndex st i.
Proof.
  intros Hp Hs. unfold getStepForSequenceIndex. rewrite Hs.
  generalize (take (Z.to_nat i) (sequence st)). intros l. generalize 0.
  induction l as [|x l IH]; intros a; [done|]. cbn [foldl].
  rewrite (stepsPerPattern_meters st' st x) by (by rewrite Hp). apply IH.
Qed.

(** X9: starting playback does not change what the grid shows: from a
    stopped session with a valid sequence, [start] returns, the playhead
    stands on the first step of the selected entry, and the displayed
    pattern and the current layer are those shown before. *)
Theorem start_keeps_display (st : State) (now : Q)
    (Hstopped : isPlaying st = false) (Hok : SequenceOk st) :
  exists st',
    start now st = Returned st'
    /\ isPlaying st' = true
    /\ getPatternAtStepJs st' (currentStep st')
       = Some {| patternIndex := selectedSequenceIndex st; stepInPattern := 0;
                 patternId := selectedPatternId st |}
    /\ displayedPatternId st' = displayedPatternId st
    /\ getCurrentLayer st' = getCurrentLayer st.
Proof.
  destruct (start_returns now st Hstopped) as [a Hst]. eexists. split; [exact Hst|].
  destruct Hok as [_ Hsel].
  destruct (proj2 (zlookup_is_Some (sequence st) (selectedSequenceIndex st)) Hsel) as [pid Hpid].
  set (st' := armTimer _).
  assert (Hloc : getPatternAtStepJs st' (currentStep st')
                 = Some {| patternIndex := selectedSequenceIndex st; stepInPattern := 0;
                           patternId := selectedPatternId st |}).
  { cbn -[getPatternAtStep getStepForSequenceIndex].
    rewrite (getPatternAtStep_view st st') by done.
    pose proof (stepsPerPattern_pos st pid).
    pose proof (getPatternAtStep_entry st (selectedSequenceIndex st) pid 0 Hpid) as Hent.
    rewrite Z.add_0_r in Hent. rewrite Hent by lia.
    unfold selectedPatternId. by rewrite Hpid. }
  assert (Hdisp : displayedPatternId st' = displayedPatternId st).
  { unfold displayedPatternId at 1. rewrite Hloc. cbn [isPlaying st' armTimer patternId].
    unfold displayedPatternId. rewrite Hstopped. by destruct st. }
  split; [done|]. split; [done|]. split; [done|].
  unfold getCurrentLayer. rewrite Hdisp. done.
Qed.

Lemma start_keeps_display_witness :
  exists st', start 0 threeEntries = Returned st'
              /\ displayedPatternId st' = displayedPatternId threeEntries.
Proof.
  destruct (start_keeps_display threeEntries 0) as (st' & H1 & _ & _ & H2 & _).
  - reflexivity.
  - unfold SequenceOk. by vm_compute.
  - by exists st'.
Defined.

(** ** Editing the sequence strip *)

Lemma zalter_zalter {A : Type} (f g : A -> A) (i : Z) (l : list A) :
  zalter f i (zalter g i l) = zalter (fun x => f (g x)) i l.
Proof. unfold zalter. case_match; [done|]. by rewrite list_alter_alter_eq. Qed.

Lemma cycle_next_id (pid : Z) (up : bool) :
  0 <= pid < MAX_PATTERNS ->
  Z.rem (pid - MIN_PATTERN_ID + (if up then 1 else -1) + MAX_PATTERNS) MAX_PATTERNS
  + MIN_PATTERN_ID
  = (pid + (if up then 1 else -1)) mod MAX_PATTERNS.
Proof.
  unfold MIN_PATTERN_ID, MAX_PATTERNS. intros Hpid.
  rewrite Z.rem_mod_nonneg by (destruct up; lia).
  replace (pid - 0 + (if up then 1 else -1) + 8)
    with (pid + (if up then 1 else -1) + 1 * 8) by lia.
  rewrite Z.mod_add by lia. lia.
Qed.

Lemma cycle_back (pid : Z) (up : bool) :
  0 <= pid < MAX_PATTERNS ->
  ((pid + (if up then 1 else -1)) mod MAX_PATTERNS + (if negb up then 1 else -1))
    mod MAX_PATTERNS = pid.
Proof.
  unfold MAX_PATTERNS. intros Hpid.
  assert (Hc : pid = 0 \/ pid = 1 \/ pid = 2 \/ pid = 3 \/ pid = 4 \/ pid = 5
               \/ pid = 6 \/ pid = 7) by lia.
  destruct_or! Hc; subst pid; by destruct up.
Qed.

Lemma dispatch_cycle (st : State) (i pid : Z) (up : bool) :
  zlookup (sequence st) i = Some pid -> 0 <= pid < MAX_PATTERNS ->
  dispatch st (CyclePattern i up)
  = Returned (set_selectedSequenceIndex i
               (set_sequence
                  (zalter (fun _ => (pid + (if up then 1 else -1)) mod MAX_PATTERNS) i
                          (sequence st)) st)).
Proof.
  intros Hi Hpid. pose proof (proj1 (zlookup_is_Some _ _) (mk_is_Some _ _ Hi)) as Hr.
  cbn [dispatch]. destruct (Z.leb_spec 0 i); [|lia].
  destruct (Z.ltb_spec i (zlength (sequence st))); [|lia]. cbn [andb].
  unfold cyclePatternAtPosition. destruct (Z.leb_spec (zlength (sequence st)) i); [lia|].
  rewrite Hi. by rewrite cycle_next_id.
Qed.

(** X10: the arrows of a sequence cell step its pattern id around the
    eight patterns: the entry becomes the id one up or one down modulo 8,
    stays a valid id, the cell becomes the selected one, no other entry
    and no pattern changes, and the opposite arrow restores the
    sequence. *)
Theorem cycle_pattern (st : State) (i pid : Z) (up : bool)
    (Hi : zlookup (sequence st) i = Some pid) (Hpid : 0 <= pid < MAX_PATTERNS) :
  exists st' st'',
    dispatch st (CyclePattern i up) = Returned st'
    /\ selectedSequenceIndex st' = i
    /\ zlookup (sequence st') i = Some ((pid + (if up then 1 else -1)) mod MAX_PATTERNS)
    /\ 0 <= (pid + (if up then 1 else -1)) mod MAX_PATTERNS < MAX_PATTERNS
    /\ (forall j, j <> i -> zlookup (sequence st') j = zlookup (sequence st) j)
    /\ patterns st' = patterns st
    /\ dispatch st' (CyclePattern i (negb up)) = Returned st''
    /\ sequence st'' = sequence st.
Proof.
  eexists. eexists. split; [by apply dispatch_cycle|].
  assert (Hrange : 0 <= (pid + (if up then 1 else -1)) mod MAX_PATTERNS < MAX_PATTERNS)
    by (apply Z.mod_pos_bound; unfold MAX_PATTERNS; lia).
  assert (Hnew : zlookup (zalter (fun _ => (pid + (if up then 1 else -1)) mod MAX_PATTERNS) i
                                 (sequence st)) i
                 = Some ((pid + (if up then 1 else -1)) mod MAX_PATTERNS)).
  { rewrite zlookup_zalter. rewrite decide_True by done. by rewrite Hi. }
  split; [by destruct st|]. split; [by destruct st|]. split; [done|].
  split. { intros j Hj. destruct st; cbn. rewrite zlookup_zalter. by rewrite decide_False. }
  split; [by destruct st|].
  split.
  - apply dispatch_cycle; [by destruct st|done].
  - destruct st; cbn. rewrite zalter_zalter. rewrite cycle_back by done.
    by apply (zalter_same _ _ _ pid).
Qed.

Lemma cycle_pattern_witness :
  exists st' st'',
    dispatch threeEntries (CyclePattern 0 false) = Returned st'
    /\ zlookup (sequence st') 0 = Some 7
    /\ dispatch st' (CyclePattern 0 true) = Returned st''
    /\ sequence st'' = sequence threeEntries.
Proof.
  destruct (cycle_pattern threeEntries 0 0 false) as (st' & st'' & H1 & _ & H2 & _ & _ & _ & H3 & H4).
  - reflexivity.
  - unfold MAX_PATTERNS. lia.
  - by exists st', st''.
Defined.

Lemma alter_swap_adjacent {A : Type} (l : list A) (n : nat) (x y : A) :
  l !! n = Some x -> l !! S n = Some y ->
  exists pre rest,
    l = pre ++ x :: y :: rest /\ length pre = n
    /\ alter (fun _ => x) (S n) (alter (fun _ => y) n l) = pre ++ y :: x :: rest
    /\ alter (fun _ => y) n (alter (fun _ => x) (S n) l) = pre ++ y :: x :: rest.
Proof.
  revert n. induction l as [|a l IH]; intros n Hx Hy; [done|].
  destruct n as [|n].
  - destruct l as [|b l]; [done|]. cbn in Hx, Hy. injection Hx as ->. injection Hy as ->.
    by exists [], l.
  - cbn in Hx, Hy. destruct (IH n Hx Hy) as (pre & rest & Hl & Hlen & H1 & H2).
    exists (a :: pre), rest. cbn. rewrite H1, H2, Hlen. by rewrite Hl at 1.
Qed.

Lemma zalter_swap_adjacent (l : list Z) (lo : Z) (x y : Z) :
  zlookup l lo = Some x -> zlookup l (lo + 1) = Some y ->
  exists pre rest,
    l = pre ++ x :: y :: rest /\ zlength pre = lo
    /\ zalter (fun _ => x) (lo + 1) (zalter (fun _ => y) lo l) = pre ++ y :: x :: rest
    /\ zalter (fun _ => y) lo (zalter (fun _ => x) (lo + 1) l) = pre ++ y :: x :: rest.
Proof.
  intros [H0 Hx]%zlookup_Some [_ Hy]%zlookup_Some.
  replace (Z.to_nat (lo + 1)) with (S (Z.to_nat lo)) in Hy by lia.
  destruct (alter_swap_adjacent l _ x y Hx Hy) as (pre & rest & Hl & Hlen & H1 & H2).
  exists pre, rest. unfold zalter, zlength.
  destruct (Z.ltb_spec lo 0); [lia|]. destruct (Z.ltb_spec (lo + 1) 0); [lia|].
  replace (Z.to_nat (lo + 1)) with (S (Z.to_nat lo)) by lia.
  split; [done|]. split; [lia|]. by split.
Qed.

Lemma sumSteps_swap (st : State) (pre rest : list Z) (x y : Z) :
  sumSteps st (pre ++ y :: x :: rest) = sumSteps st (pre ++ x :: y :: rest).
Proof. rewrite !sumSteps_app, !sumSteps_cons. lia. Qed.

Lemma sumSteps_view (st st' : State) (l : list Z) :
  patterns st' = patterns st -> sumSteps st' l = sumSteps st l.
Proof.
  intros Hp. unfold sumSteps. generalize 0.
  induction l as [|x l IH]; intros a; [done|]. cbn [foldl].
  rewrite (stepsPerPattern_meters st' st x) by (by rewrite Hp). apply IH.
Qed.

(** X11: the left and right arrows of a sequence cell swap it with its
    neighbour and move the selection along: the sequence stays a
    permutation of itself with the same loop length, the two entries trade
    places and no other entry moves, the opposite arrow on the moved cell
    undoes the swap, and at either end of the strip nothing happens. *)
Theorem move_pattern (st : State) (i : Z) (forward : bool)
    (Hi : 0 <= i < zlength (sequence st)) :
  let d := if forward then 1 else -1 in
  exists st',
    dispatch st (MovePattern i forward) = Returned st'
    /\ sequence st' ≡ₚ sequence st
    /\ totalSteps st' = totalSteps st
    /\ patterns st' = patterns st
    /\ (0 <= i + d < zlength (sequence st) ->
        selectedSequenceIndex st' = i + d
        /\ zlookup (sequence st') (i + d) = zlookup (sequence st) i
        /\ zlookup (sequence st') i = zlookup (sequence st) (i + d)
        /\ (forall j, j <> i -> j <> i + d ->
                      zlookup (sequence st') j = zlookup (sequence st) j)
        /\ exists st'',
             dispatch st' (MovePattern (i + d) (negb forward)) = Returned st''
             /\ sequence st'' = sequence st /\ selectedSequenceIndex st'' = i)
    /\ (~ 0 <= i + d < zlength (sequence st) -> st' = st).
Proof.
  intros d.
  assert (Hshown : forall s j f, 0 <= j < zlength (sequence s) ->
            dispatch s (MovePattern j f)
            = Returned (movePatternInSequence j (if f then 1 else -1) s)).
  { intros s j f Hj. cbn [dispatch]. destruct (Z.leb_spec 0 j); [|lia].
    by destruct (Z.ltb_spec j (zlength (sequence s))); [|lia]. }
  eexists. split; [by apply Hshown|].
  destruct (decide (0 <= i + d < zlength (sequence st))) as [Hin|Hout].
  - destruct (proj2 (zlookup_is_Some (sequence st) i) Hi) as [a Ha].
    destruct (proj2 (zlookup_is_Some (sequence st) (i + d)) Hin) as [b Hb].
    assert (Hmove : movePatternInSequence i d st
                    = set_selectedSequenceIndex (i + d)
                        (set_sequence (zalter (fun _ => a) (i + d)
                                         (zalter (fun _ => b) i (sequence st))) st)).
    { unfold movePatternInSequence. subst d.
      destruct forward; cbn [Z.eqb andb].
      - destruct (Z.leb_spec (zlength (sequence st) - 1) i); [lia|]. by rewrite Ha, Hb.
      - destruct (Z.eqb_spec i 0); [lia|]. cbn [Z.eqb andb]. by rewrite Ha, Hb. }
    fold d. rewrite Hmove.
    assert (Hsw : exists pre rest x y,
               sequence st = pre ++ x :: y :: rest
               /\ zalter (fun _ => a) (i + d) (zalter (fun _ => b) i (sequence st))
                  = pre ++ y :: x :: rest
               /\ ((i = zlength pre /\ i + d = zlength pre + 1)
                   \/ (i + d = zlength pre /\ i = zlength pre + 1))).
    { subst d. destruct forward.
      - destruct (zalter_swap_adjacent _ _ _ _ Ha Hb) as (pre & rest & Hl & Hlen & H1 & H2).
        exists pre, rest, a, b. split; [done|]. split; [done|]. left. lia.
      - replace i with (i + -1 + 1) in Ha by lia.
        destruct (zalter_swap_adjacent _ _ _ _ Hb Ha) as (pre & rest & Hl & Hlen & H1 & H2).
        exists pre, rest, b, a. split; [done|]. split.
        + replace (i + -1 + 1) with i in H2 by lia. done.
        + right. lia. }
    destruct Hsw as (pre & rest & x & y & Hl & Hres & Hpos).
    split_and!.
    + destruct st; cbn in *. rewrite Hres, Hl. apply Permutation_app_head, perm_swap.
    + unfold totalSteps. fold (sumSteps (set_selectedSequenceIndex (i + d)
        (set_sequence (zalter (fun _ => a) (i + d) (zalter (fun _ => b) i (sequence st))) st))
        (sequence (set_selectedSequenceIndex (i + d)
        (set_sequence (zalter (fun _ => a) (i + d) (zalter (fun _ => b) i (sequence st))) st)))).
      fold (sumSteps st (sequence st)).
      rewrite (sumSteps_view st) by (by destruct st).
      replace (sequence (set_selectedSequenceIndex (i + d) (set_sequence
                 (zalter (fun _ => a) (i + d) (zalter (fun _ => b) i (sequence st))) st)))
        with (pre ++ y :: x :: rest) by (by destruct st).
      rewrite Hl. apply sumSteps_swap.
    + by destruct st.
    + intros _.
      assert (Hseq' : sequence (set_selectedSequenceIndex (i + d) (set_sequence
                 (zalter (fun _ => a) (i + d) (zalter (fun _ => b) i (sequence st))) st))
                = zalter (fun _ => a) (i + d) (zalter (fun _ => b) i (sequence st)))
        by (by destruct st).
      rewrite Hseq'.
      assert (Hlk : forall j, zlookup (zalter (fun _ => a) (i + d)
                                 (zalter (fun _ => b) i (sequence st))) j
                    = if decide (j = i + d) then Some a
                      else if decide (j = i) then Some b else zlookup (sequence st) j).
      { intros j. rewrite !zlookup_zalter.
        assert (i <> i + d) by (subst d; destruct forward; lia).
        repeat case_decide; subst; try lia; try done; by rewrite ?Ha, ?Hb. }
      split; [by destruct st|]. split; [by rewrite Hlk, decide_True, Ha|].
      split. { rewrite Hlk, decide_False, decide_True, Hb by (subst d; destruct forward; lia). done. }
      split. { intros j Hj1 Hj2. by rewrite Hlk, !decide_False. }
      eexists. split.
      { apply Hshown. rewrite Hseq'. rewrite !zalter_length. done. }
      assert (Hback : (if negb forward then 1 else -1) = - d) by (subst d; by destruct forward).
      rewrite Hback.
      assert (Hmove' : forall s, sequence s = zalter (fun _ => a) (i + d)
                                               (zalter (fun _ => b) i (sequence st)) ->
                movePatternInSequence (i + d) (- d) s
                = set_selectedSequenceIndex i
                    (set_sequence (zalter (fun _ => a) i
                                     (zalter (fun _ => b) (i + d) (sequence s))) s)).
      { intros s Hs. unfold movePatternInSequence.
        replace (i + d + - d) with i by lia.
        rewrite Hs, !zalter_length, !Hlk.
        rewrite (decide_True (P := i + d = i + d)) by done.
        rewrite (decide_False (P := i = i + d)) by (subst d; destruct forward; lia).
        rewrite (decide_True (P := i = i)) by done.
        subst d. destruct forward.
        - change (- (1) =? -1) with true. change (- (1) =? 1) with false.
          destruct (Z.eqb_spec (i + 1) 0); [lia|]. done.
        - change (- (-1) =? -1) with false. change (- (-1) =? 1) with true.
          destruct (Z.leb_spec (zlength (sequence st) - 1) (i + -1)); [lia|]. done. }
      rewrite Hmove' by done.
      split; [|by destruct st].
      replace (sequence (set_selectedSequenceIndex i _)) with
        (zalter (fun _ => a) i (zalter (fun _ => b) (i + d)
           (zalter (fun _ => a) (i + d) (zalter (fun _ => b) i (sequence st)))))
        by reflexivity.
      rewrite zalter_zalter.
      assert (Hcomm : forall (l : list Z), zalter (fun _ => b) (i + d) (zalter (fun _ => b) i l)
                                           = zalter (fun _ => b) i (zalter (fun _ => b) (i + d) l)).
      { intros l. unfold zalter.
        destruct (Z.ltb_spec i 0), (Z.ltb_spec (i + d) 0); try done.
        apply list_alter_alter_ne. subst d. destruct forward; lia. }
      rewrite Hcomm, zalter_zalter.
      rewrite (zalter_same _ (i + d) _ b) by done.
      by apply (zalter_same _ _ _ a).
    + done.
  - assert (Hst : movePatternInSequence i d st = st).
    { unfold movePatternInSequence. subst d. destruct forward; cbn [Z.eqb andb].
      - by destruct (Z.leb_spec (zlength (sequence st) - 1) i); [|lia].
      - by destruct (Z.eqb_spec i 0); [|lia]. }
    fold d. rewrite Hst. by split_and!.
Qed.

Lemma move_pattern_witness :
  exists st',
    dispatch threeEntries (MovePattern 0 true) = Returned st'
    /\ sequence st' ≡ₚ sequence threeEntries
    /\ totalSteps st' = totalSteps threeEntries.
Proof.
  destruct (move_pattern threeEntries 0 true) as (st' & H1 & H2 & H3 & _).
  - by vm_compute.
  - by exists st'.
Defined.

(** X12: the "+" button appends the selected pattern to the sequence and
    lengthens the loop by that pattern's steps, and "−" right after it
    gives back the session as it was; "+" does nothing on a full strip and
    "−" nothing on a strip of one; "−" drops the last entry and pulls a
    selection that pointed at it back onto the new last entry. *)
Theorem add_remove_last (st : State) (Hok : SequenceOk st) :
  (zlength (sequence st) < MAX_MEASURES ->
   exists st1,
     dispatch st ClickAddToSequence = Returned st1
     /\ sequence st1 = sequence st ++ [selectedPatternId st]
     /\ Some (selectedPatternId st) = zlookup (sequence st) (selectedSequenceIndex st)
     /\ totalSteps st1 = totalSteps st + stepsPerPattern st (selectedPatternId st)
     /\ dispatch st1 ClickRemoveLast = Returned st)
  /\ (MAX_MEASURES <= zlength (sequence st) -> dispatch st ClickAddToSequence = Returned st)
  /\ (zlength (sequence st) <= 1 -> dispatch st ClickRemoveLast = Returned st)
  /\ (1 < zlength (sequence st) ->
      exists st2,
        dispatch st ClickRemoveLast = Returned st2
        /\ sequence st2 = take (length (sequence st) - 1) (sequence st)
        /\ selectedSequenceIndex st2
           = Z.min (selectedSequenceIndex st) (zlength (sequence st) - 2)).
Proof.
  destruct Hok as [Hlen Hsel]. cbn [dispatch]. unfold addToSequence, removeLast.
  split_and!.
  - intros Hroom. destruct (Z.ltb_spec (zlength (sequence st)) MAX_MEASURES); [|lia].
    eexists. split; [done|]. split; [by destruct st|].
    split.
    { unfold selectedPatternId.
      by destruct (proj2 (zlookup_is_Some (sequence st) (selectedSequenceIndex st)) Hsel)
        as [pid ->]. }
    split.
    { unfold totalSteps. fold (sumSteps st (sequence st)).
      replace (sequence (set_sequence (sequence st ++ [selectedPatternId st]) st))
        with (sequence st ++ [selectedPatternId st]) by (by destruct st).
      match goal with |- foldl _ 0 ?l = _ =>
        change (sumSteps (set_sequence (sequence st ++ [selectedPatternId st]) st) l
                = sumSteps st (sequence st) + stepsPerPattern st (selectedPatternId st)) end.
      rewrite (sumSteps_view st) by (by destruct st).
      rewrite sumSteps_app, sumSteps_cons. change (sumSteps st []) with 0. lia. }
    replace (sequence (set_sequence (sequence st ++ [selectedPatternId st]) st))
      with (sequence st ++ [selectedPatternId st]) by (by destruct st).
    assert (Hl : zlength (sequence st ++ [selectedPatternId st]) = zlength (sequence st) + 1).
    { unfold zlength. rewrite length_app. cbn [length]. lia. }
    rewrite Hl. destruct (Z.ltb_spec 1 (zlength (sequence st) + 1)); [|lia].
    assert (Htake : take (length (sequence st ++ [selectedPatternId st]) - 1)
                         (sequence st ++ [selectedPatternId st]) = sequence st).
    { rewrite length_app. cbn [length].
      replace (length (sequence st) + 1 - 1)%nat with (length (sequence st)) by lia.
      by rewrite take_app_length. }
    rewrite Htake.
    replace (sequence (set_sequence (sequence st) (set_sequence (sequence st ++ [selectedPatternId st]) st)))
      with (sequence st) by (by destruct st).
    replace (selectedSequenceIndex (set_sequence (sequence st) (set_sequence (sequence st ++ [selectedPatternId st]) st)))
      with (selectedSequenceIndex st) by (by destruct st).
    destruct (Z.leb_spec (zlength (sequence st)) (selectedSequenceIndex st)); [lia|].
    by destruct st.
  - intros Hfull. by destruct (Z.ltb_spec (zlength (sequence st)) MAX_MEASURES); [lia|].
  - intros Hone. by destruct (Z.ltb_spec 1 (zlength (sequence st))); [lia|].
  - intros Hmore. destruct (Z.ltb_spec 1 (zlength (sequence st))); [|lia].
    eexists. split; [done|].
    set (seq' := take (length (sequence st) - 1) (sequence st)).
    assert (Hl : zlength seq' = zlength (sequence st) - 1).
    { unfold seq', zlength in *. rewrite length_take. lia. }
    replace (sequence (set_sequence seq' st)) with seq' by (by destruct st).
    replace (selectedSequenceIndex (set_sequence seq' st)) with (selectedSequenceIndex st)
      by (by destruct st).
    rewrite Hl.
    destruct (Z.leb_spec (zlength (sequence st) - 1) (selectedSequenceIndex st)).
    + destruct (Z.ltb_spec (zlength (sequence st) - 1 - 1) 0); [lia|].
      split; [by destruct st|]. destruct st; cbn in *. lia.
    + split; [by destruct st|]. destruct st; cbn in *. lia.
Qed.

Lemma add_remove_last_witness :
  exists st1,
    dispatch reset ClickAddToSequence = Returned st1
    /\ sequence st1 = [0; 0]
    /\ dispatch st1 ClickRemoveLast = Returned reset.
Proof.
  destruct (add_remove_last reset) as [Hadd _].
  - unfold SequenceOk. by vm_compute.
  - destruct Hadd as (st1 & H1 & H2 & _ & _ & H3); [by vm_compute|].
    exists st1. split; [exact H1|]. split; [exact H2|exact H3].
Defined.

(** ** Clearing a pattern *)

Lemma wfStepb_emptyStep : wfStepb emptyStep = true.
Proof. by vm_compute. Qed.

Lemma createStepLayer_spec (n : Z) :
  zlength (createStepLayer n) = Z.max 0 n
  /\ wfLayerb (createStepLayer n) = true
  /\ forall c, cellActive (createStepLayer n) c = false.
Proof.
  unfold createStepLayer. split_and!.
  - unfold zlength. rewrite length_replicate. lia.
  - unfold wfLayerb. induction (Z.to_nat n) as [|m IH]; [done|].
    cbn [replicate forallb]. by rewrite wfStepb_emptyStep, IH.
  - intros c. unfold cellActive.
    destruct (zlookup (replicate (Z.to_nat n) emptyStep) c.1) as [s|] eqn:E; [|done].
    apply zlookup_Some in E as [_ E]. apply lookup_replicate in E as [-> _].
    apply emptyStep_inactive.
Qed.

Lemma findPattern_updateFirst_id (d x : Z) (g : Pattern.t -> Pattern.t)
    (ps : list Pattern.t) :
  (forall p, Pattern.id p = d -> Pattern.id (g p) = d) ->
  findPattern (updateFirst (fun p => Pattern.id p =? d) g ps) x
  = if decide (x = d) then g <$> findPattern ps d else findPattern ps x.
Proof.
  intros Hg. unfold findPattern. induction ps as [|p ps IH].
  - by destruct (decide (x = d)).
  - cbn [updateFirst List.find]. destruct (Z.eqb_spec (Pattern.id p) d) as [Hd|Hd].
    + cbn [List.find]. rewrite (Hg p Hd). destruct (decide (x = d)) as [->|Hx].
      * by rewrite Z.eqb_refl.
      * destruct (Z.eqb_spec d x); [congruence|].
        destruct (Z.eqb_spec (Pattern.id p) x); [congruence|done].
    + cbn [List.find]. destruct (Z.eqb_spec (Pattern.id p) x) as [Hx|Hx].
      * destruct (decide (x = d)); [congruence|done].
      * apply IH.
Qed.

Lemma findPattern_id (ps : list Pattern.t) (x : Z) (p : Pattern.t) :
  findPattern ps x = Some p -> Pattern.id p = x /\ p ∈ ps.
Proof.
  unfold findPattern. intros H. apply find_some in H as [Hin Heq].
  split; [by apply Z.eqb_eq|by apply list_elem_of_In].
Qed.

Lemma getPatternAtStepFrom_steps (st st' : State) (g acc i : Z) (rest : list Z) :
  (forall x, stepsPerPattern st' x = stepsPerPattern st x) ->
  getPatternAtStepFrom st' g acc i rest = getPatternAtStepFrom st g acc i rest.
Proof.
  intros H. revert acc i. induction rest as [|x rest IH]; intros acc i; [done|].
  cbn [getPatternAtStepFrom]. rewrite H, IH. done.
Qed.

Lemma displayedPatternId_steps (st st' : State) :
  (forall x, stepsPerPattern st' x = stepsPerPattern st x) ->
  transportView st' = transportView st ->
  displayedPatternId st' = displayedPatternId st.
Proof.
  intros H Hv. injection Hv as Hs Hi Hp Hc.
  unfold displayedPatternId, selectedPatternId, getPatternAtStepJs, getPatternAtStep.
  rewrite Hs, Hi, Hp, Hc. destruct (isPlaying st); [|done].
  destruct (currentStep st); [done|]. by rewrite (getPatternAtStepFrom_steps st st').
Qed.

Lemma clearPattern_steps (st : State) (x : Z) :
  stepsPerPattern (clearPattern st) x = stepsPerPattern st x.
Proof.
  unfold clearPattern.
  destruct (findPattern (patterns st) (displayedPatternId st)) as [pattern|] eqn:Hfind; [|done].
  unfold stepsPerPattern. cbn [patterns set_patterns].
  rewrite findPattern_updateFirst_id by done.
  destruct (decide (x = displayedPatternId st)) as [->|Hx]; [|done].
  rewrite Hfind. cbn [fmap option_fmap option_map createPattern Pattern.beatsPerMeasure
                      Pattern.stepsPerBeat].
  rewrite clampBeatsPerMeasure_ofInt by apply clampBeatsPerMeasure_range.
  by rewrite clampStepsPerBeat_ofInt by apply clampStepsPerBeat_range.
Qed.

(** X13: "Clear" replaces the displayed pattern by a fresh one of the same
    id with two layers: every cell of both is empty, the layers have the
    step count the pattern had and are dense; the displayed pattern, the
    step count of every pattern, every other pattern and the selection are
    as before. *)
Theorem clearPattern_empties (st : State) (pattern : Pattern.t)
    (Hfind : findPattern (patterns st) (displayedPatternId st) = Some pattern) :
  exists st' p',
    dispatch st ClickClear = Returned st'
    /\ displayedPatternId st' = displayedPatternId st
    /\ findPattern (patterns st') (displayedPatternId st) = Some p'
    /\ Pattern.id p' = displayedPatternId st
    /\ length (Pattern.layers p') = 2%nat
    /\ (forall layer, layer ∈ Pattern.layers p' ->
          zlength layer = stepsPerPattern st (displayedPatternId st)
          /\ wfLayerb layer = true
          /\ forall c, cellActive layer c = false)
    /\ (forall layer c, getCurrentLayer st' = Some layer -> cellActive layer c = false)
    /\ (forall x, stepsPerPattern st' x = stepsPerPattern st x)
    /\ (forall x, x <> displayedPatternId st ->
                  findPattern (patterns st') x = findPattern (patterns st) x)
    /\ length (patterns st') = length (patterns st)
    /\ selectedNotes st' = selectedNotes st.
Proof.
  exists (clearPattern st),
         (createPattern (displayedPatternId st) (Pattern.beatsPerMeasure pattern)
                        (Pattern.stepsPerBeat pattern)).
  split; [done|].
  assert (Hdisp : displayedPatternId (clearPattern st) = displayedPatternId st).
  { apply displayedPatternId_steps; [apply clearPattern_steps|apply clearPattern_transportView]. }
  assert (Hfind' : forall x,
             findPattern (patterns (clearPattern st)) x
             = if decide (x = displayedPatternId st)
               then Some (createPattern (displayedPatternId st)
                            (Pattern.beatsPerMeasure pattern) (Pattern.stepsPerBeat pattern))
               else findPattern (patterns st) x).
  { intros x. unfold clearPattern. rewrite Hfind. cbn [patterns set_patterns].
    rewrite findPattern_updateFirst_id by done. by rewrite Hfind. }
  assert (Hlayers : forall layer,
             layer ∈ Pattern.layers (createPattern (displayedPatternId st)
                        (Pattern.beatsPerMeasure pattern) (Pattern.stepsPerBeat pattern)) ->
             zlength layer = stepsPerPattern st (displayedPatternId st)
             /\ wfLayerb layer = true /\ forall c, cellActive layer c = false).
  { intros layer Hin. cbn [createPattern Pattern.layers] in Hin.
    assert (layer = createStepLayer (clampBeatsPerMeasure (Pattern.beatsPerMeasure pattern)
                                     * clampStepsPerBeat (Pattern.stepsPerBeat pattern))) as ->.
    { apply elem_of_cons in Hin as [->|Hin]; [done|].
      apply elem_of_cons in Hin as [->|Hin]; [done|]. by apply elem_of_nil in Hin. }
    destruct (createStepLayer_spec (clampBeatsPerMeasure (Pattern.beatsPerMeasure pattern)
                                    * clampStepsPerBeat (Pattern.stepsPerBeat pattern)))
      as (Hlen & Hwf & Hempty).
    split; [|done]. rewrite Hlen. unfold stepsPerPattern. rewrite Hfind.
    pose proof (clampBeatsPerMeasure_range (Pattern.beatsPerMeasure pattern)).
    pose proof (clampStepsPerBeat_range (Pattern.stepsPerBeat pattern)).
    unfold MIN_BEATS_PER_MEASURE, MIN_STEPS_PER_BEAT in *. nia. }
  split_and!; try done.
  - by rewrite Hfind', decide_True.
  - intros layer c Hcur. apply getCurrentLayer_Some in Hcur as (p & Hp & Hl).
    rewrite Hdisp, Hfind', decide_True in Hp by done. injection Hp as <-.
    apply zlookup_Some in Hl as [_ Hl]. apply list_elem_of_lookup_2 in Hl.
    by apply Hlayers.
  - apply clearPattern_steps.
  - intros x Hx. by rewrite Hfind', decide_False.
  - unfold clearPattern. rewrite Hfind. cbn [patterns set_patterns].
    generalize (patterns st). intros ps. induction ps as [|q ps IH]; [done|].
    cbn [updateFirst]. case_match; cbn [length]; [done|]. by rewrite IH.
  - unfold clearPattern. by rewrite Hfind.
Qed.

Lemma clearPattern_empties_witness :
  exists st',
    dispatch oneNote ClickClear = Returned st'
    /\ (forall layer c, getCurrentLayer st' = Some layer -> cellActive layer c = false)
    /\ selectedNotes st' = [(0, 71)].
Proof.
  destruct (clearPattern_empties oneNote (withLayers (zalter (fun _ => noteLayer) 0)
                                            (createPattern 0 (ofInt 1) (ofInt 2))))
    as (st' & p' & H1 & _ & _ & _ & _ & _ & H2 & _ & _ & _ & H3).
  - reflexivity.
  - exists st'. split; [exact H1|]. split; [exact H2|exact H3].
Defined.

(** ** The resize effect *)

Lemma fmap_id_on {A : Type} (f : A -> A) (l : list A) :
  (forall x, x ∈ l -> f x = x) -> f <$> l = l.
Proof.
  induction l as [|a l IH]; intros H; [done|]. cbn [fmap list_fmap].
  rewrite H by (apply elem_of_cons; by left).
  f_equal. apply IH. intros x Hx. apply H. apply elem_of_cons. by right.
Qed.

Lemma resizeEffect_meters (st : State) :
  meterOf <$> patterns (resizeEffect st) = meterOf <$> patterns st.
Proof.
  unfold resizeEffect. cbn [patterns set_patterns]. rewrite <- list_fmap_compose.
  by apply list_fmap_ext.
Qed.

Lemma resizeEffect_steps (st : State) (x : Z) :
  stepsPerPattern (resizeEffect st) x = stepsPerPattern st x.
Proof. apply stepsPerPattern_meters, resizeEffect_meters. Qed.

Lemma resizeEffect_fits (st : State) : LayersFit (resizeEffect st).
Proof.
  intros p' layer' Hp' Hl'. rewrite resizeEffect_steps.
  unfold resizeEffect in Hp'. cbn [patterns set_patterns] in Hp'.
  apply list_elem_of_fmap in Hp' as (p & -> & Hp).
  cbn [withLayers Pattern.layers Pattern.id] in *.
  apply list_elem_of_fmap in Hl' as (layer & -> & Hl).
  pose proof (stepsPerPattern_pos st (Pattern.id p)).
  by destruct (resizeLayer_spec (stepsPerPattern st (Pattern.id p)) layer) as [-> _]; [lia|].
Qed.

Lemma resizeEffect_fixed (st : State) : LayersFit st -> resizeEffect st = st.
Proof.
  intros Hfit. unfold resizeEffect. rewrite fmap_id_on; [apply set_patterns_same|].
  intros p Hp. apply withLayers_same. apply fmap_id_on. intros layer Hl.
  unfold resizeLayer. by rewrite (Hfit p layer Hp Hl), Z.eqb_refl.
Qed.

Lemma cellActive_length (layer : list Step) (c : Cell) :
  cellActive layer c = true -> 0 <= c.1 < zlength layer.
Proof.
  unfold cellActive. destruct (zlookup layer c.1) eqn:E; [|done]. intros _.
  apply zlookup_is_Some. by rewrite E.
Qed.

Lemma cellActive_resizeLayer (n : Z) (layer : list Step) (c : Cell) :
  0 <= n -> cellActive (resizeLayer n layer) c = cellActive layer c && (c.1 <? n).
Proof.
  intros Hn. unfold resizeLayer.
  destruct (Z.eqb_spec (zlength layer) n) as [Heq|Hne].
  - destruct (cellActive layer c) eqn:E; [|done].
    apply cellActive_length in E. symmetry. apply Z.ltb_lt. lia.
  - destruct (Z.ltb_spec (zlength layer) n) as [Hlt|Hge].
    + unfold cellActive, zlookup. destruct (Z.ltb_spec c.1 0); [done|].
      destruct (decide (c.1 < zlength layer)) as [Hin|Hout].
      * rewrite lookup_app_l by (unfold zlength in Hin; lia).
        destruct (Z.ltb_spec c.1 n); [|lia]. by rewrite andb_true_r.
      * rewrite lookup_app_r by (unfold zlength in Hout; lia).
        rewrite (lookup_ge_None_2 layer) by (unfold zlength in Hout; lia).
        destruct (replicate _ _ !! _) as [s|] eqn:E; [|done].
        apply lookup_replicate in E as [-> _]. apply emptyStep_inactive.
    + unfold cellActive, zlookup. destruct (Z.ltb_spec c.1 0); [done|].
      destruct (Z.ltb_spec c.1 n).
      * rewrite lookup_take_lt by lia. by rewrite andb_true_r.
      * rewrite lookup_take_ge by lia. by rewrite andb_false_r.
Qed.

(** X14: the resize effect settles in one run: after it every layer has
    its pattern's step count, a second run changes nothing, a session whose
    layers already fit is left as it is, and no pattern's step count is
    touched; in a resized layer the notes at the steps that remain are
    kept and the steps beyond are empty, so shrinking a layer and growing
    it back loses the notes past the cut. *)
Theorem resizeEffect_settles (st : State) :
  LayersFit (resizeEffect st)
  /\ resizeEffect (resizeEffect st) = resizeEffect st
  /\ (LayersFit st -> resizeEffect st = st)
  /\ (forall x, stepsPerPattern (resizeEffect st) x = stepsPerPattern st x)
  /\ (forall n layer c, 0 <= n ->
        cellActive (resizeLayer n layer) c = cellActive layer c && (c.1 <? n))
  /\ (forall n m layer c, 0 <= n <= m ->
        cellActive (resizeLayer m (resizeLayer n layer)) c
        = cellActive layer c && (c.1 <? n)).
Proof.
  split_and!.
  - apply resizeEffect_fits.
  - apply resizeEffect_fixed, resizeEffect_fits.
  - apply resizeEffect_fixed.
  - apply resizeEffect_steps.
  - intros n layer c Hn. by apply cellActive_resizeLayer.
  - intros n m layer c Hnm. rewrite !cellActive_resizeLayer by lia.
    destruct (Z.ltb_spec c.1 n), (Z.ltb_spec c.1 m); try lia;
      by rewrite ?andb_true_r, ?andb_false_r.
Qed.

Lemma resizeEffect_settles_witness :
  resizeEffect (resizeEffect retimed) = resizeEffect retimed
  /\ cellActive (resizeLayer 2 (resizeLayer 0 noteLayer)) (0, 71) = false.
Proof.
  destruct (resizeEffect_settles retimed) as (_ & H1 & _ & _ & _ & H2).
  split; [exact H1|]. rewrite H2 by lia. by rewrite andb_false_r.
Defined.

(** ** Deleting the selection *)

Lemma set_selectedNotes_layer (sel : list Cell) (st : State) :
  getCurrentLayer (set_selectedNotes sel st) = getCurrentLayer st.
Proof. by apply getCurrentLayer_sameGrid. Qed.

(** X15: Delete and Backspace clear exactly the selected cells of the
    current layer and empty the selection; the layer keeps its length,
    every other cell and every other variable of the session are as
    before; with nothing selected the keys do nothing. *)
Theorem delete_selection (st : State) (layer : list Step) (k : KeyName) (now : Q)
    (Hk : k ∈ [KeyDelete; KeyBackspace])
    (Hlayer : getCurrentLayer st = Some layer) :
  (selectedNotes st = [] -> dispatch st (WindowKeydown k now) = Returned st)
  /\ (selectedNotes st <> [] ->
      exists st' layer',
        dispatch st (WindowKeydown k now) = Returned st'
        /\ selectedNotes st' = []
        /\ getCurrentLayer st' = Some layer'
        /\ layer' = foldl clearOne layer (getSelectedNotesArray st)
        /\ zlength layer' = zlength layer
        /\ (forall c, cellActive layer' c
                      = cellActive layer c
                        && negb (bool_decide (c ∈ getSelectedNotesArray st)))
        /\ exists ps, st' = set_selectedNotes [] (set_patterns ps st)).
Proof.
  assert (Hd : dispatch st (WindowKeydown k now) = Returned (deleteSelection st)).
  { apply elem_of_cons in Hk as [->|Hk]; [done|].
    apply elem_of_cons in Hk as [->|Hk]; [done|]. by apply elem_of_nil in Hk. }
  rewrite Hd. unfold deleteSelection. split.
  - intros ->. done.
  - intros Hsel. destruct (selection_nonempty st Hsel) as [-> _].
    destruct (clearNotesAt_layer (getSelectedNotesArray st) st layer Hlayer) as [Hc Hl].
    eexists. eexists. split; [reflexivity|]. split; [done|].
    split; [by rewrite set_selectedNotes_layer|]. split; [done|].
    split; [apply foldl_clearOne_length|]. split; [apply cellActive_foldl_clearOne|].
    exists (patterns (clearNotesAt (getSelectedNotesArray st) st)).
    by rewrite <- clearNotesAt_frame.
Qed.

Lemma delete_selection_witness :
  exists st' layer',
    dispatch oneNote (WindowKeydown KeyDelete 0) = Returned st'
    /\ selectedNotes st' = []
    /\ getCurrentLayer st' = Some layer'
    /\ cellActive layer' (0, 71) = false.
Proof.
  destruct (delete_selection oneNote noteLayer KeyDelete 0) as [_ H].
  - apply elem_of_cons. by left.
  - reflexivity.
  - destruct H as (st' & layer' & H1 & H2 & H3 & _ & _ & H4 & _); [done|].
    exists st', layer'. split; [exact H1|]. split; [exact H2|]. split; [exact H3|].
    rewrite H4. reflexivity.
Defined.

(** ** Clicks on a cell *)

Lemma onCell_inGrid (st : State) (layer : list Step) (c : Cell)
    (handler : CellOpts -> Outcome State) :
  getCurrentLayer st = Some layer -> inGrid layer c = true ->
  onCell st c.1 c.2 handler = handler (cellOpts st layer c.1 c.2).
Proof.
  intros Hlayer Hin. unfold onCell. rewrite Hlayer.
  unfold inGrid in Hin. destruct c as [s p]. cbn [fst snd]. by rewrite Hin.
Qed.

Lemma cellOpts_enabled (st : State) (layer : list Step) (c : Cell) :
  isDisabled (cellOpts st layer c.1 c.2) = negb (enabledAt st c.2).
Proof.
  unfold cellOpts, enabledAt. cbn [isDisabled].
  by destruct (allowNonScaleNotes st), (isInScale st c.2).
Qed.

Lemma elem_of_setDelete_iff (s : list Cell) (k c : Cell) :
  c ∈ setDelete s k <-> c ∈ s /\ c <> k.
Proof. unfold setDelete. by rewrite list_elem_of_filter, (comm and). Qed.

Lemma dispatch_shift_click (st : State) (layer : list Step) (c : Cell) (e : MouseEvent) :
  getCurrentLayer st = Some layer -> inGrid layer c = true ->
  cellActive layer c = true -> enabledAt st c.2 = true ->
  metaKey e || ctrlKey e = false -> shiftKey e = true ->
  dispatch st (CellMousedown c.1 c.2 e)
  = Returned (set_selectedNotes
                (if setHas (selectedNotes st) c then setDelete (selectedNotes st) c
                 else setAdd (selectedNotes st) c) st).
Proof.
  intros Hlayer Hin Hnote Hen Hmod Hshift. cbn [dispatch].
  rewrite (onCell_inGrid st layer c) by done.
  unfold handleCellMousedown. rewrite cellOpts_enabled, Hen, Hmod, Hshift. cbn [negb andb].
  unfold cellOpts. cbn [hasNote]. destruct c as [s p]. cbn [fst snd] in *. by rewrite Hnote.
Qed.

(** X16: a shift-click on a note of an enabled row toggles that note in
    the selection and nothing else: the layer stays, no paint stroke or
    drag begins, the other members of the selection stay, and a second
    shift-click on the same note gives back the selection as a set. *)
Theorem shift_click_toggles (st : State) (layer : list Step) (c : Cell) (e : MouseEvent)
    (Hlayer : getCurrentLayer st = Some layer)
    (Hin : inGrid layer c = true)
    (Hnote : cellActive layer c = true)
    (Henabled : enabledAt st c.2 = true)
    (Hmod : metaKey e || ctrlKey e = false)
    (Hshift : shiftKey e = true) :
  exists st' st'',
    dispatch st (CellMousedown c.1 c.2 e) = Returned st'
    /\ (c ∈ selectedNotes st' <-> c ∉ selectedNotes st)
    /\ (forall x, x <> c -> (x ∈ selectedNotes st' <-> x ∈ selectedNotes st))
    /\ getCurrentLayer st' = Some layer
    /\ (exists sel, st' = set_selectedNotes sel st)
    /\ dispatch st' (CellMousedown c.1 c.2 e) = Returned st''
    /\ (forall x, x ∈ selectedNotes st'' <-> x ∈ selectedNotes st).
Proof.
  assert (Htoggle : forall sel x,
            x ∈ (if setHas sel c then setDelete sel c else setAdd sel c)
            <-> (x ∈ sel /\ x <> c) \/ (x = c /\ c ∉ sel)).
  { intros sel x. unfold setHas. case_bool_decide as Hc.
    - rewrite elem_of_setDelete_iff. tauto.
    - rewrite elem_of_setAdd. destruct (decide (x = c)) as [->|]; tauto. }
  eexists. eexists. split; [by apply (dispatch_shift_click _ layer)|].
  cbn [selectedNotes set_selectedNotes].
  split. { rewrite Htoggle. tauto. }
  split. { intros x Hx. rewrite Htoggle. tauto. }
  split; [by rewrite set_selectedNotes_layer|].
  split; [by eexists|].
  split. { apply (dispatch_shift_click _ layer); try done. by rewrite set_selectedNotes_layer. }
  intros x. cbn [selectedNotes set_selectedNotes]. rewrite !Htoggle.
  destruct (decide (x = c)) as [->|]; [|tauto].
  destruct (decide (c ∈ selectedNotes st)); tauto.
Qed.

Lemma shift_click_toggles_witness :
  exists st',
    dispatch oneNote (CellMousedown 0 71 shiftClick) = Returned st'
    /\ ((0, 71) ∈ selectedNotes st' <-> (0, 71) ∉ selectedNotes oneNote).
Proof.
  destruct (shift_click_toggles oneNote noteLayer (0, 71) shiftClick)
    as (st' & _ & H1 & H2 & _); try reflexivity.
  by exists st'.
Defined.

Lemma setCell_writes (st : State) (layer : list Step) (c : Cell) (v : bool) :
  getCurrentLayer st = Some layer -> inGrid layer c = true -> enabledAt st c.2 = true ->
  setCell st c.1 c.2 v = Returned (updateCurrentLayer (writeCell c.1 c.2 v) st)
  /\ getCurrentLayer (updateCurrentLayer (writeCell c.1 c.2 v) st)
     = Some (writeCell c.1 c.2 v layer)
  /\ forall x, cellActive (writeCell c.1 c.2 v layer) x
               = if decide (x = c) then v else cellActive layer x.
Proof.
  intros Hlayer Hin Hen.
  pose proof (inGrid_row layer c Hin) as Hrow.
  pose proof (proj1 (zlookup_is_Some _ _) Hrow) as Hr.
  split_and!.
  - unfold setCell. unfold enabledAt in Hen.
    assert (negb (allowNonScaleNotes st) && negb (isInScale st c.2) = false) as ->
      by (by destruct (allowNonScaleNotes st), (isInScale st c.2)).
    rewrite Hlayer. destruct (Z.leb_spec (zlength layer) c.1); [lia|].
    by destruct Hrow as [s ->].
  - by apply getCurrentLayer_update.
  - intros x. rewrite cellActive_writeCell by done. by destruct c.
Qed.

Lemma updateCurrentLayer_frame (f : list Step -> list Step) (st : State) :
  updateCurrentLayer f st = set_patterns (patterns (updateCurrentLayer f st)) st.
Proof. by destruct st. Qed.

Lemma dispatch_paint_click (st : State) (layer : list Step) (c : Cell) (e : MouseEvent) :
  getCurrentLayer st = Some layer -> inGrid layer c = true -> enabledAt st c.2 = true ->
  metaKey e || ctrlKey e = false -> shiftKey e && cellActive layer c = false ->
  c ∉ selectedNotes st ->
  let v := negb (cellActive layer c) in
  let st1 := set_paintTargetState v (set_selectedNotes [] st) in
  dispatch st (CellMousedown c.1 c.2 e)
  = Returned (set_isPainting true (updateCurrentLayer (writeCell c.1 c.2 v) st1))
  /\ getCurrentLayer (set_isPainting true (updateCurrentLayer (writeCell c.1 c.2 v) st1))
     = Some (writeCell c.1 c.2 v layer).
Proof.
  intros Hlayer Hin Hen Hmod Hshift Hunsel v st1.
  assert (Hlayer1 : getCurrentLayer st1 = Some layer).
  { rewrite <- Hlayer. by apply getCurrentLayer_sameGrid. }
  destruct (setCell_writes st1 layer c v Hlayer1 Hin Hen) as (Hset & Hget & _).
  split.
  - cbn [dispatch]. rewrite (onCell_inGrid st layer c) by done.
    unfold handleCellMousedown. rewrite cellOpts_enabled, Hen, Hmod. cbn [negb].
    unfold cellOpts. cbn [hasNote noteSelected].
    replace (cellActive layer (c.1, c.2)) with (cellActive layer c) by (by destruct c).
    rewrite Hshift. unfold isNoteSelected, setHas.
    replace (c.1, c.2) with c by (by destruct c).
    rewrite bool_decide_eq_false_2 by done. cbn [andb].
    change (paintTargetState (set_paintTargetState (negb (cellActive layer c))
                                (set_selectedNotes [] st))) with v.
    fold v. fold st1. by rewrite Hset.
  - rewrite <- Hget. by apply getCurrentLayer_sameGrid.
Qed.

(** X17: a click without Ctrl or Cmd on an enabled cell that is not in the
    selection (a shift-click only on an empty one) toggles the cell: a
    note appears where there was none and disappears where there was one,
    no other cell changes, the selection is emptied, and a paint stroke
    with the new value of the cell begins. *)
Theorem click_toggles_cell (st : State) (layer : list Step) (c : Cell) (e : MouseEvent)
    (Hlayer : getCurrentLayer st = Some layer)
    (Hin : inGrid layer c = true)
    (Henabled : enabledAt st c.2 = true)
    (Hmod : metaKey e || ctrlKey e = false)
    (Hshift : shiftKey e && cellActive layer c = false)
    (Hunsel : c ∉ selectedNotes st) :
  exists st' layer',
    dispatch st (CellMousedown c.1 c.2 e) = Returned st'
    /\ getCurrentLayer st' = Some layer'
    /\ zlength layer' = zlength layer
    /\ cellActive layer' c = negb (cellActive layer c)
    /\ (forall x, x <> c -> cellActive layer' x = cellActive layer x)
    /\ selectedNotes st' = []
    /\ isPainting st' = true
    /\ paintTargetState st' = negb (cellActive layer c).
Proof.
  destruct (dispatch_paint_click st layer c e Hlayer Hin Henabled Hmod Hshift Hunsel)
    as [Hd Hl].
  eexists. eexists. split; [exact Hd|]. split; [exact Hl|].
  pose proof (inGrid_row layer c Hin) as Hrow.
  split; [apply writeCell_length|].
  split. { rewrite cellActive_writeCell by done. destruct c. by rewrite decide_True. }
  split. { intros x Hx. rewrite cellActive_writeCell by done. destruct c.
           by rewrite decide_False. }
  by rewrite updateCurrentLayer_frame.
Qed.

Lemma click_toggles_cell_witness :
  exists st' layer',
    dispatch twoSteps (CellMousedown 1 70 plainClick) = Returned st'
    /\ getCurrentLayer st' = Some layer'
    /\ cellActive layer' (1, 70) = true.
Proof.
  destruct (click_toggles_cell twoSteps (createStepLayer 2) (1, 70) plainClick)
    as (st' & layer' & H1 & H2 & _ & H3 & _); try reflexivity.
  - apply not_elem_of_nil.
  - exists st', layer'. split; [exact H1|]. split; [exact H2|]. rewrite H3. reflexivity.
Defined.

(** ** Paint strokes *)

Lemma enabledAt_view (st st' : State) (p : Z) :
  scaleView st' = scaleView st -> enabledAt st' p = enabledAt st p.
Proof.
  intros Hv. injection Hv as Hk Hs Ha. unfold enabledAt, isInScale. by rewrite Hk, Hs, Ha.
Qed.

Lemma paint_enter (v : bool) (st : State) (layer : list Step) (c : Cell) :
  Painting v st -> getCurrentLayer st = Some layer ->
  exists st' layer',
    dispatch st (CellMouseenter c.1 c.2) = Returned st'
    /\ Painting v st' /\ getCurrentLayer st' = Some layer'
    /\ scaleView st' = scaleView st /\ zlength layer' = zlength layer
    /\ forall x, cellActive layer' x
                 = if bool_decide (x = c) && inGrid layer c && enabledAt st c.2 then v
                   else cellActive layer x.
Proof.
  intros (Hrect & Hdrag & Hpaint & Hv) Hlayer. cbn [dispatch]. unfold onCell. rewrite Hlayer.
  replace (inBounds (zlength layer) (c.1, c.2)) with (inGrid layer c) by (by destruct c).
  destruct (inGrid layer c) eqn:Hin.
  - unfold handleCellMouseenter. rewrite Hrect, Hdrag, Hpaint, cellOpts_enabled.
    cbn [andb]. destruct (enabledAt st c.2) eqn:Hen; cbn [negb].
    + destruct (setCell_writes st layer c (paintTargetState st) Hlayer Hin Hen)
        as (-> & Hget & Hcells).
      eexists. eexists. split; [reflexivity|].
      split. { unfold Painting. by rewrite updateCurrentLayer_frame. }
      split; [exact Hget|]. split; [by rewrite updateCurrentLayer_frame|].
      split; [apply writeCell_length|].
      intros x. rewrite Hcells, Hv. rewrite andb_true_r.
      by destruct (decide (x = c)) as [->|Hne];
        [rewrite bool_decide_eq_true_2|rewrite bool_decide_eq_false_2].
    + exists st, layer. split_and!; try done. intros x. by rewrite andb_false_r.
  - exists st, layer. split_and!; try done. intros x. by rewrite andb_false_r.
Qed.

Lemma paint_enters (v : bool) (cells : list Cell) (st : State) (layer : list Step) :
  Painting v st -> getCurrentLayer st = Some layer ->
  exists st' layer',
    runEvents (enterCells cells) st = Returned st'
    /\ Painting v st' /\ getCurrentLayer st' = Some layer'
    /\ scaleView st' = scaleView st /\ zlength layer' = zlength layer
    /\ forall x, cellActive layer' x
                 = if bool_decide (x ∈ cells) && inGrid layer x && enabledAt st x.2 then v
                   else cellActive layer x.
Proof.
  revert st layer. induction cells as [|c cells IH]; intros st layer Hp Hlayer.
  - exists st, layer. by split_and!.
  - unfold enterCells. rewrite fmap_cons, runEvents_cons.
    destruct (paint_enter v st layer c Hp Hlayer)
      as (st1 & layer1 & -> & Hp1 & Hl1 & Hv1 & Hlen1 & F1).
    cbn [andThen]. destruct (IH st1 layer1 Hp1 Hl1) as (st' & layer' & Hrun & Hp' & Hl' & Hv' & Hlen' & F2).
    exists st', layer'. split; [exact Hrun|]. split; [done|]. split; [done|].
    split; [by rewrite Hv'|]. split; [by rewrite Hlen'|].
    intros x. rewrite F2, F1, (inGrid_length layer layer1) by done.
    rewrite (enabledAt_view st st1) by done.
    destruct (decide (x = c)) as [->|Hne].
    + rewrite (bool_decide_eq_true_2 (c ∈ c :: cells)) by (apply elem_of_cons; by left).
      rewrite (bool_decide_eq_true_2 (c = c)) by done. cbn [andb].
      by destruct (bool_decide (c ∈ cells)), (inGrid layer c), (enabledAt st c.2).
    + rewrite (bool_decide_eq_false_2 (x = c)) by done. cbn [andb].
      by rewrite (bool_decide_ext (x ∈ c :: cells) (x ∈ cells))
        by (rewrite elem_of_cons; tauto).
Qed.

Lemma idle_enters (cells : list Cell) (st : State) :
  Idle st -> runEvents (enterCells cells) st = Returned st.
Proof.
  intros (Hrect & Hdrag & Hpaint). induction cells as [|c cells IH]; [done|].
  unfold enterCells. rewrite fmap_cons, runEvents_cons.
  assert (dispatch st (CellMouseenter c.1 c.2) = Returned st) as ->.
  { cbn [dispatch]. unfold onCell. destruct (getCurrentLayer st); [|done].
    destruct (inBounds _ _); [|done].
    unfold handleCellMouseenter. by rewrite Hrect, Hdrag, Hpaint. }
  exact IH.
Qed.

Lemma handleMouseup_idle (st : State) : Idle (handleMouseup st).
Proof.
  unfold Idle, handleMouseup. destruct (isSelectingRect st) eqn:E; [done|].
  split; [exact E|done].
Qed.

(** X18: a paint stroke writes one value: after a click that starts
    painting and the pointer entering any cells, every enabled cell of the
    grid the pointer went over holds the value the first cell was toggled
    to, and every other cell is as before; after the button is released no
    gesture is under way and entering further cells changes nothing. *)
Theorem paint_stroke (st : State) (layer : list Step) (c : Cell) (e : MouseEvent)
    (cells more : list Cell)
    (Hlayer : getCurrentLayer st = Some layer)
    (Hin : inGrid layer c = true)
    (Henabled : enabledAt st c.2 = true)
    (Hmod : metaKey e || ctrlKey e = false)
    (Hshift : shiftKey e && cellActive layer c = false)
    (Hunsel : c ∉ selectedNotes st)
    (Hrect : isSelectingRect st = false)
    (Hdrag : isDragging st = false) :
  exists st' layer',
    runEvents (CellMousedown c.1 c.2 e :: enterCells cells ++ [WindowMouseup]) st
    = Returned st'
    /\ getCurrentLayer st' = Some layer'
    /\ (forall x, cellActive layer' x
                  = if bool_decide (x ∈ c :: cells) && inGrid layer x && enabledAt st x.2
                    then negb (cellActive layer c) else cellActive layer x)
    /\ Idle st'
    /\ runEvents (enterCells more) st' = Returned st'.
Proof.
  destruct (dispatch_paint_click st layer c e Hlayer Hin Henabled Hmod Hshift Hunsel)
    as [Hd Hl1].
  set (v := negb (cellActive layer c)) in *.
  set (s1 := set_isPainting true _) in *.
  assert (Hp1 : Painting v s1).
  { unfold Painting, s1. rewrite updateCurrentLayer_frame. by cbn. }
  assert (Hv1 : scaleView s1 = scaleView st).
  { unfold s1. rewrite updateCurrentLayer_frame. by cbn. }
  destruct (paint_enters v cells s1 _ Hp1 Hl1)
    as (sn & layer' & Hrun & Hpn & Hln & Hvn & Hlen & F).
  exists (handleMouseup sn), layer'.
  split.
  { rewrite runEvents_cons, Hd. cbn [andThen]. rewrite runEvents_app, Hrun. done. }
  split; [by rewrite handleMouseup_layer|].
  split.
  { intros x. rewrite F. pose proof (inGrid_row layer c Hin) as Hrow.
    rewrite (inGrid_length layer (writeCell c.1 c.2 v layer)) by apply writeCell_length.
    rewrite (enabledAt_view st s1) by done.
    rewrite cellActive_writeCell by done.
    replace (c.1, c.2) with c by (by destruct c).
    destruct (decide (x = c)) as [->|Hne].
    - rewrite (bool_decide_eq_true_2 (c ∈ c :: cells)) by (apply elem_of_cons; by left).
      rewrite Hin, Henabled. cbn [andb]. by destruct (bool_decide (c ∈ cells)).
    - by rewrite (bool_decide_ext (x ∈ c :: cells) (x ∈ cells))
        by (rewrite elem_of_cons; tauto). }
  split; [apply handleMouseup_idle|]. apply idle_enters, handleMouseup_idle.
Qed.

Lemma paint_stroke_witness :
  exists st' layer',
    runEvents (CellMousedown 0 70 plainClick :: enterCells [(1, 70)] ++ [WindowMouseup])
              twoSteps = Returned st'
    /\ getCurrentLayer st' = Some layer'
    /\ cellActive layer' (1, 70) = true.
Proof.
  destruct (paint_stroke twoSteps (createStepLayer 2) (0, 70) plainClick [(1, 70)] [])
    as (st' & layer' & H1 & H2 & H3 & _); try reflexivity.
  - apply not_elem_of_nil.
  - exists st', layer'. split; [exact H1|]. split; [exact H2|]. rewrite H3. reflexivity.
Defined.

(** ** Rectangle selection, as a gesture *)

Lemma set_selectionRectExtent_twice (x y : option Cell) (st : State) :
  set_selectionRectExtent y (set_selectionRectExtent x st) = set_selectionRectExtent y st.
Proof. by destruct st. Qed.

Lemma set_selectionRectExtent_same (st : State) :
  set_selectionRectExtent (selectionRectExtent st) st = st.
Proof. by destruct st. Qed.

Lemma rect_enter (st : State) (c : Cell) :
  isSelectingRect st = true ->
  exists x,
    dispatch st (CellMouseenter c.1 c.2) = Returned (set_selectionRectExtent x st)
    /\ forall layer, getCurrentLayer st = Some layer -> inGrid layer c = true -> x = Some c.
Proof.
  intros Hrect. cbn [dispatch]. unfold onCell.
  destruct (getCurrentLayer st) as [layer|] eqn:Hlayer.
  - replace (inBounds (zlength layer) (c.1, c.2)) with (inGrid layer c) by (by destruct c).
    destruct (inGrid layer c) eqn:Hin.
    + exists (Some c). unfold handleCellMouseenter. rewrite Hrect.
      split; [by destruct c|done].
    + exists (selectionRectExtent st). rewrite set_selectionRectExtent_same.
      split; [done|]. intros layer' [= <-]. by rewrite Hin.
  - exists (selectionRectExtent st). by rewrite set_selectionRectExtent_same.
Qed.

Lemma rect_enters (cells : list Cell) (st : State) :
  isSelectingRect st = true ->
  exists x, runEvents (enterCells cells) st = Returned (set_selectionRectExtent x st).
Proof.
  revert st. induction cells as [|c cells IH]; intros st Hrect.
  - exists (selectionRectExtent st). by rewrite set_selectionRectExtent_same.
  - unfold enterCells. rewrite fmap_cons, runEvents_cons.
    destruct (rect_enter st c Hrect) as (x & -> & _). cbn [andThen].
    destruct (IH (set_selectionRectExtent x st)) as [y Hy]; [done|].
    exists y. fold (enterCells cells). by rewrite Hy, set_selectionRectExtent_twice.
Qed.

(** X19: a Ctrl- or Cmd-drag selects by rectangle: while the button is
    held the rectangle spans the cell where it went down and the last
    cell entered, whatever the pointer passed in between, and the
    selection is untouched; on release the notes of the current layer
    inside the rectangle join the selection, nothing leaves it, the layer
    is unchanged and the rectangle is gone. *)
Theorem rect_select (st : State) (layer : list Step) (a b : Cell) (e : MouseEvent)
    (moves : list Cell)
    (Hlayer : getCurrentLayer st = Some layer)
    (Ha : inGrid layer a = true) (Hb : inGrid layer b = true)
    (Henabled : enabledAt st a.2 = true)
    (Hmod : metaKey e || ctrlKey e = true) :
  exists mid st',
    runEvents (CellMousedown a.1 a.2 e :: enterCells moves ++ [CellMouseenter b.1 b.2]) st
    = Returned mid
    /\ (forall c, isInSelectionRect mid c.1 c.2 = true
                  <-> Z.min a.1 b.1 <= c.1 <= Z.max a.1 b.1
                      /\ Z.min a.2 b.2 <= c.2 <= Z.max a.2 b.2)
    /\ selectedNotes mid = selectedNotes st
    /\ dispatch mid WindowMouseup = Returned st'
    /\ getCurrentLayer st' = Some layer
    /\ (forall c, c ∈ selectedNotes st'
                  <-> c ∈ selectedNotes st
                      \/ (isInSelectionRect mid c.1 c.2 = true /\ cellActive layer c = true))
    /\ Idle st' /\ getSelectionRect st' = None.
Proof.
  set (s1 := set_isSelectingRect true
               (set_selectionRectExtent (Some a) (set_selectionRectAnchor (Some a) st))).
  assert (Hd : dispatch st (CellMousedown a.1 a.2 e) = Returned s1).
  { cbn [dispatch]. rewrite (onCell_inGrid st layer a) by done.
    unfold handleCellMousedown. rewrite cellOpts_enabled, Henabled, Hmod. cbn [negb].
    by destruct a. }
  assert (Hl1 : getCurrentLayer s1 = Some layer).
  { rewrite <- Hlayer. by apply getCurrentLayer_sameGrid. }
  destruct (rect_enters moves s1) as [x Hx]; [done|].
  destruct (rect_enter (set_selectionRectExtent x s1) b) as (y & Hy & Hyb); [done|].
  assert (y = Some b) as ->.
  { apply (Hyb layer); [|done]. rewrite <- Hl1. by apply getCurrentLayer_sameGrid. }
  rewrite set_selectionRectExtent_twice in Hy.
  set (mid := set_selectionRectExtent (Some b) s1) in *.
  assert (Hlm : getCurrentLayer mid = Some layer).
  { rewrite <- Hl1. by apply getCurrentLayer_sameGrid. }
  assert (Hin : forall c, isInSelectionRect mid c.1 c.2 = true
                          <-> Z.min a.1 b.1 <= c.1 <= Z.max a.1 b.1
                              /\ Z.min a.2 b.2 <= c.2 <= Z.max a.2 b.2).
  { intros c. unfold isInSelectionRect, getSelectionRect, mid, s1.
    cbn [selectionRectAnchor selectionRectExtent set_selectionRectExtent set_isSelectingRect
         set_selectionRectAnchor minStep maxStep minPitch maxPitch].
    rewrite !andb_true_iff, !Z.leb_le. tauto. }
  exists mid, (handleMouseup mid).
  split. { rewrite runEvents_cons, Hd. cbn [andThen]. rewrite runEvents_app, Hx.
           cbn [andThen]. unfold runEvents. cbn [foldl andThen]. exact Hy. }
  split; [exact Hin|]. split; [done|]. split; [done|].
  split; [by rewrite handleMouseup_layer|].
  split.
  { intros c. rewrite Hin. unfold handleMouseup.
    change (isSelectingRect mid) with true. cbn iota.
    change (getSelectionRect mid)
      with (Some {| minStep := Z.min a.1 b.1; maxStep := Z.max a.1 b.1;
                    minPitch := Z.min a.2 b.2; maxPitch := Z.max a.2 b.2 |}).
    cbn iota.
    destruct (addNotesInRectToSelection_spec
                {| minStep := Z.min a.1 b.1; maxStep := Z.max a.1 b.1;
                   minPitch := Z.min a.2 b.2; maxPitch := Z.max a.2 b.2 |} mid layer Hlm)
      as [_ Hsel].
    cbn [selectedNotes set_dragStartCell set_isCloning set_isDragging set_isPainting
         set_isSelectingRect set_selectionRectExtent set_selectionRectAnchor].
    rewrite Hsel. cbn [minStep maxStep minPitch maxPitch]. tauto. }
  split; [apply handleMouseup_idle|].
  unfold getSelectionRect, handleMouseup. change (isSelectingRect mid) with true. done.
Qed.

Lemma rect_select_witness :
  exists mid st',
    runEvents (CellMousedown 0 71 (mkMouseEvent false true false false)
               :: enterCells [(1, 3)] ++ [CellMouseenter 1 70]) twoSteps = Returned mid
    /\ dispatch mid WindowMouseup = Returned st'
    /\ getCurrentLayer st' = Some (createStepLayer 2).
Proof.
  destruct (rect_select twoSteps (createStepLayer 2) (0, 71) (1, 70)
              (mkMouseEvent false true false false) [(1, 3)])
    as (mid & st' & H1 & _ & _ & H2 & H3 & _); try reflexivity.
  exists mid, st'. split; [exact H1|]. split; [exact H2|exact H3].
Defined.

(** ** Dragging, as a gesture *)

Lemma enter_selected (st : State) (s p : Z) :
  selectedNotes (sessionOf (dispatch st (CellMouseenter s p))) = selectedNotes st.
Proof.
  cbn [dispatch]. unfold onCell. destruct (getCurrentLayer st); [|done].
  destruct (inBounds _ _); [|done]. unfold handleCellMouseenter.
  destruct (isSelectingRect st); [done|].
  destruct (isDragging st), (dragStartCell st);
    try apply dragTo_selected; (destruct (isPainting st && _); [apply setCell_selected|done]).
Qed.

Lemma enters_selected (cells : list Cell) (st : State) :
  selectedNotes (sessionOf (runEvents (enterCells cells) st)) = selectedNotes st.
Proof.
  revert st. induction cells as [|c cells IH]; intros st; [done|].
  unfold enterCells. rewrite fmap_cons, runEvents_cons.
  pose proof (enter_selected st c.1 c.2) as H.
  destruct (dispatch st (CellMouseenter c.1 c.2)) as [st1|st1]; cbn [andThen sessionOf] in *.
  - fold (enterCells cells). by rewrite IH.
  - done.
Qed.

Lemma mousedown_drag_selected (st : State) (layer : list Step) (anchor : Cell)
    (e : MouseEvent) :
  getCurrentLayer st = Some layer -> inGrid layer anchor = true ->
  metaKey e || ctrlKey e || shiftKey e = false ->
  enabledAt st anchor.2 = true -> anchor ∈ selectedNotes st ->
  selectedNotes (sessionOf (dispatch st (CellMousedown anchor.1 anchor.2 e))) = [].
Proof.
  intros Hlayer Hin Hmods Hen Hanchor.
  apply orb_false_elim in Hmods as [Hmod Hshift].
  cbn [dispatch]. rewrite (onCell_inGrid st layer anchor) by done.
  unfold handleCellMousedown. rewrite cellOpts_enabled, Hen, Hmod, Hshift. cbn [negb andb].
  unfold cellOpts. cbn [noteSelected]. unfold isNoteSelected, setHas.
  replace (anchor.1, anchor.2) with anchor by (by destruct anchor).
  rewrite (bool_decide_eq_true_2 _ Hanchor).
  assert ((0 <? zlength (selectedNotes st)) = true) as ->.
  { apply selection_nonempty. intros Heq. rewrite Heq in Hanchor. by apply elem_of_nil in Hanchor. }
  done.
Qed.

Lemma handleMouseup_selected (st : State) :
  isSelectingRect st = false -> selectedNotes (handleMouseup st) = selectedNotes st.
Proof. intros H. unfold handleMouseup. by rewrite H. Qed.

(** X20: a drag of the selection ends where the pointer ends: after
    grabbing a selected note, passing over any cells, entering a last cell
    and releasing, the layer holds the notes that were not grabbed (all
    notes when Alt clones) together with the grabbed notes shifted by the
    offset from the grabbed cell to the last cell, as far as they fall
    inside the grid; the cells passed on the way leave no trace, and the
    selection ends empty. *)
Theorem drag_follows_pointer (st : State) (layer : list Step) (anchor target : Cell)
    (e : MouseEvent) (moves : list Cell)
    (Hlayer : getCurrentLayer st = Some layer)
    (Hwf : wfLayerb layer = true)
    (Hmods : metaKey e || ctrlKey e || shiftKey e = false)
    (Henabled : enabledAt st anchor.2 = true)
    (Hanchor : anchor ∈ selectedNotes st)
    (Hgrid : forallb (inGrid layer) (selectedNotes st) = true)
    (Hrect : isSelectingRect st = false)
    (Htarget : inGrid layer target = true) :
  exists st' layer',
    runEvents (CellMousedown anchor.1 anchor.2 e
               :: enterCells moves ++ [CellMouseenter target.1 target.2; WindowMouseup]) st
    = Returned st'
    /\ getCurrentLayer st' = Some layer'
    /\ (forall c, cellActive layer' c
                  = cellActive layer c
                    && (altKey e || negb (bool_decide (c ∈ selectedNotes st)))
                    || bool_decide
                         (c ∈ List.filter (inBounds (zlength layer))
                                (translate (target.1 - anchor.1) (target.2 - anchor.2)
                                   <$> selectedNotes st)))
    /\ selectedNotes st' = []
    /\ Idle st'.
Proof.
  destruct (mousedown_starts_drag st layer anchor e Hlayer Hwf Hmods Henabled Hanchor Hgrid)
    as (s1 & Hd & _ & _ & Hinv1).
  specialize (Hinv1 Hrect).
  pose proof (mousedown_drag_selected st layer anchor e Hlayer
                (forallb_elem_of _ _ _ Hgrid Hanchor) Hmods Henabled Hanchor) as Hsel1.
  rewrite Hd in Hsel1. cbn [sessionOf] in Hsel1.
  destruct (enters_keep_drag layer (selectedNotes st) (altKey e) anchor moves s1 Hgrid Hinv1)
    as (sn & Hrun & Hinvn).
  pose proof (enters_selected moves s1) as Hseln. rewrite Hrun in Hseln. cbn [sessionOf] in Hseln.
  pose proof Hinvn as (Hrectn & Hdragn & Hcelln & _ & _ & layern & Hlayern & _ & Hlenn & _).
  assert (Hlast : dispatch sn (CellMouseenter target.1 target.2)
                  = Returned (dragTo target.1 target.2 anchor sn)).
  { cbn [dispatch]. unfold onCell. rewrite Hlayern, Hlenn.
    replace (inBounds (zlength layer) (target.1, target.2)) with (inGrid layer target)
      by (by destruct target).
    rewrite Htarget. unfold handleCellMouseenter. by rewrite Hrectn, Hdragn, Hcelln. }
  destruct (dragTo_invariant layer (selectedNotes st) (altKey e) anchor sn target.1 target.2
              Hgrid Hinvn) as (Hinvf & Hlastf & Hcells).
  pose proof Hinvf as (Hrectf & _ & _ & _ & _ & layerf & Hlayerf & _).
  exists (handleMouseup (dragTo target.1 target.2 anchor sn)), layerf.
  split.
  { rewrite runEvents_cons, Hd. cbn [andThen]. rewrite runEvents_app, Hrun. cbn [andThen].
    unfold runEvents. cbn [foldl andThen]. rewrite Hlast. done. }
  split; [by rewrite handleMouseup_layer|].
  split. { intros c. rewrite (Hcells layerf Hlayerf c), Hlastf. done. }
  split. { rewrite handleMouseup_selected by done. by rewrite dragTo_selected, Hseln. }
  apply handleMouseup_idle.
Qed.

Lemma drag_follows_pointer_witness :
  exists st' layer',
    runEvents (CellMousedown 0 71 plainClick
               :: enterCells [(1, 3)] ++ [CellMouseenter 1 70; WindowMouseup]) lockedPair
    = Returned st'
    /\ getCurrentLayer st' = Some layer'
    /\ cellActive layer' (1, 70) = true /\ cellActive layer' (0, 71) = false.
Proof.
  destruct (drag_follows_pointer lockedPair pairLayer (0, 71) (1, 70) plainClick [(1, 3)])
    as (st' & layer' & H1 & H2 & H3 & _); try reflexivity.
  - apply elem_of_cons. by left.
  - exists st', layer'. split; [exact H1|]. split; [exact H2|].
    rewrite !H3. split; reflexivity.
Defined.

(** ** The well-formed session *)

Lemma SessionOk_view (st st' : State) :
  okView st' = okView st -> SessionOk st -> SessionOk st'.
Proof.
  intros Hv. injection Hv as Hp Hs Hy Hi Hn Hd1 Hd2 Hd3.
  unfold SessionOk. by rewrite Hp, Hs, Hy, Hi, Hn, Hd1, Hd2, Hd3.
Qed.

Lemma SessionOk_set_patterns (ps : list Pattern.t) (st : State) :
  Pattern.id <$> ps = Pattern.id <$> patterns st -> Forall patternOk ps ->
  SessionOk st -> SessionOk (set_patterns ps st).
Proof.
  intros Hids Hps (Hi & _ & Hrest). unfold SessionOk.
  cbn [patterns set_patterns]. by rewrite Hids.
Qed.

Lemma SessionOk_set_selectedNotes (sel : list Cell) (st : State) :
  Forall cellOk sel -> SessionOk st -> SessionOk (set_selectedNotes sel st).
Proof. intros Hsel Hok. unfold SessionOk in *. cbn. by destruct_and!. Qed.

Lemma SessionOk_set_dragStartNotes (l : list Cell) (st : State) :
  Forall cellOk l -> SessionOk st -> SessionOk (set_dragStartNotes l st).
Proof. intros Hl Hok. unfold SessionOk in *. cbn. by destruct_and!. Qed.

Lemma SessionOk_set_dragLastPositions (l : list Cell) (st : State) :
  Forall cellOk l -> SessionOk st -> SessionOk (set_dragLastPositions l st).
Proof. intros Hl Hok. unfold SessionOk in *. cbn. by destruct_and!. Qed.

Lemma SessionOk_set_dragOverwrittenNotes (l : list Cell) (st : State) :
  Forall cellOk l -> SessionOk st -> SessionOk (set_dragOverwrittenNotes l st).
Proof. intros Hl Hok. unfold SessionOk in *. cbn. by destruct_and!. Qed.

Lemma SessionOk_set_sequence (l : list Z) (st : State) :
  Forall validId l -> SessionOk st -> SessionOk (set_sequence l st).
Proof. intros Hl Hok. unfold SessionOk in *. cbn. by destruct_and!. Qed.

Lemma Forall_updateFirst {A : Type} (P : A -> bool) (g : A -> A) (l : list A)
    (Q : A -> Prop) :
  (forall x, P x = true -> Q x -> Q (g x)) -> Forall Q l -> Forall Q (updateFirst P g l).
Proof.
  intros Hg. induction 1 as [|x l Hx Hl IH]; [done|]. cbn [updateFirst].
  destruct (P x) eqn:E; constructor; auto.
Qed.

Lemma ids_updateFirst (P : Pattern.t -> bool) (g : Pattern.t -> Pattern.t)
    (ps : list Pattern.t) :
  (forall p, P p = true -> Pattern.id (g p) = Pattern.id p) ->
  Pattern.id <$> updateFirst P g ps = Pattern.id <$> ps.
Proof.
  intros Hg. induction ps as [|p ps IH]; [done|]. cbn [updateFirst].
  destruct (P p) eqn:E; rewrite !fmap_cons; [by rewrite Hg|by rewrite IH].
Qed.

Lemma Forall_zalter {A : Type} (f : A -> A) (i : Z) (l : list A) (Q : A -> Prop) :
  (forall x, Q x -> Q (f x)) -> Forall Q l -> Forall Q (zalter f i l).
Proof.
  intros Hf Hl. unfold zalter. destruct (i <? 0); [done|].
  apply Forall_alter; [done|]. intros x _. apply Hf.
Qed.

Lemma length_zalter {A : Type} (f : A -> A) (i : Z) (l : list A) :
  length (zalter f i l) = length l.
Proof. unfold zalter. destruct (i <? 0); [done|]. apply length_alter. Qed.

Lemma patternOk_withLayers (f : list Step -> list Step) (i : Z) (p : Pattern.t) :
  keepsLayers f -> patternOk p -> patternOk (withLayers (zalter f i) p).
Proof.
  intros Hf [Hlen Hall]. unfold patternOk, withLayers. cbn [Pattern.layers].
  split; [by rewrite length_zalter|].
  apply Forall_zalter; [|done]. apply Hf.
Qed.

Lemma SessionOk_updateCurrentLayer (f : list Step -> list Step) (st : State) :
  keepsLayers f -> SessionOk st -> SessionOk (updateCurrentLayer f st).
Proof.
  intros Hf Hok. pose proof Hok as (_ & Hps & _). unfold updateCurrentLayer.
  apply SessionOk_set_patterns; [|by apply Forall_updateFirst;
                                     [intros p _; by apply patternOk_withLayers|]|done].
  by apply ids_updateFirst.
Qed.

Lemma wfLayerb_clearOne_cell (layer : list Step) (c : Cell) :
  wfLayerb layer = true -> cellOk c -> wfLayerb (clearOne layer c) = true.
Proof.
  intros Hwf [_ Hp]. unfold clearOne.
  destruct (zlookup layer c.1); [by apply wfLayerb_writeCell|done].
Qed.

Lemma keepsLayers_clear (ps : list Cell) :
  Forall cellOk ps -> keepsLayers (fun layer => foldl clearOne layer ps).
Proof.
  intros Hps n layer [Hwf Hlen]. split; [|by rewrite foldl_clearOne_length].
  clear Hlen. revert layer Hwf. induction Hps as [|c ps Hc Hps IH]; intros layer Hwf; [done|].
  cbn [foldl]. apply IH. by apply wfLayerb_clearOne_cell.
Qed.

Lemma keepsLayers_set (ps : list Cell) : keepsLayers (fun layer => foldl setOne layer ps).
Proof.
  intros n layer [Hwf Hlen].
  split; [by apply wfLayerb_foldl_setOne|by rewrite foldl_setOne_length].
Qed.

Lemma keepsLayers_write (step pitch : Z) (v : bool) :
  0 <= pitch < NUM_PITCHES -> keepsLayers (writeCell step pitch v).
Proof.
  intros Hp n layer [Hwf Hlen].
  split; [by apply wfLayerb_writeCell|by rewrite writeCell_length].
Qed.

Lemma SessionOk_clearNotesAt (ps : list Cell) (st : State) :
  Forall cellOk ps -> SessionOk st -> SessionOk (clearNotesAt ps st).
Proof.
  intros Hps Hok. unfold clearNotesAt. destruct (getCurrentLayer st); [|done].
  by apply SessionOk_updateCurrentLayer; [apply keepsLayers_clear|].
Qed.

Lemma SessionOk_setNotesAt (ps : list Cell) (st : State) :
  SessionOk st -> SessionOk (setNotesAt ps st).
Proof.
  intros Hok. unfold setNotesAt. destruct (getCurrentLayer st); [|done].
  by apply SessionOk_updateCurrentLayer; [apply keepsLayers_set|].
Qed.

Lemma SessionOk_setCell (st : State) (step pitch : Z) (v : bool) :
  0 <= pitch < NUM_PITCHES -> SessionOk st -> SessionOk (sessionOf (setCell st step pitch v)).
Proof.
  intros Hp Hok. unfold setCell. repeat case_match; try done. cbn [sessionOf].
  by apply SessionOk_updateCurrentLayer; [apply keepsLayers_write|].
Qed.

Lemma inBounds_cellOk (n : Z) (c : Cell) : inBounds n c = true -> cellOk c.
Proof.
  unfold inBounds, cellOk. intros H. repeat (apply andb_prop in H as [H ?]). lia.
Qed.

Lemma Forall_cellOk_filter (n : Z) (l : list Cell) :
  Forall cellOk (List.filter (inBounds n) l).
Proof.
  apply Forall_forall. intros c [_ Hc]%elem_of_List_filter. by apply (inBounds_cellOk n).
Qed.

Lemma Forall_List_filter {A : Type} (f : A -> bool) (Q : A -> Prop) (l : list A) :
  Forall Q l -> Forall Q (List.filter f l).
Proof.
  rewrite !Forall_forall. intros H x [Hx _]%elem_of_List_filter. by apply H.
Qed.

Lemma parseKey_cellOk (l : list Cell) : Forall cellOk l -> parseKey <$> l = l.
Proof.
  induction 1 as [|c l [H1 H2] Hl IH]; [done|]. rewrite fmap_cons, IH. f_equal.
  unfold parseKey. destruct (Z.ltb_spec c.1 0); [lia|]. by destruct (Z.ltb_spec c.2 0); [lia|].
Qed.

Lemma SessionOk_findPattern (st : State) (x : Z) :
  SessionOk st -> validId x ->
  exists p, findPattern (patterns st) x = Some p /\ Pattern.id p = x /\ patternOk p
            /\ stepsPerPattern st x = patternSteps p.
Proof.
  intros (Hids & Hps & _) Hx.
  assert (Hin : x ∈ Pattern.id <$> patterns st).
  { rewrite Hids. apply elem_of_seqZ. unfold validId in Hx. lia. }
  apply list_elem_of_fmap in Hin as (q & Hq & Hqin).
  destruct (findPattern (patterns st) x) as [p|] eqn:Hfind.
  - destruct (findPattern_id _ _ _ Hfind) as [Hid Hpin].
    exists p. split; [done|]. split; [done|].
    split; [by apply (proj1 (Forall_forall _ _) Hps)|].
    unfold stepsPerPattern. by rewrite Hfind.
  - unfold findPattern in Hfind.
    apply list_elem_of_In in Hqin. apply (find_none _ _ Hfind q) in Hqin.
    apply Z.eqb_neq in Hqin. congruence.
Qed.

Lemma displayedPatternId_valid (st : State) :
  Forall validId (sequence st) -> validId (displayedPatternId st).
Proof.
  intros Hseq.
  assert (Hsel : validId (selectedPatternId st)).
  { unfold selectedPatternId.
    destruct (zlookup (sequence st) (selectedSequenceIndex st)) as [x|] eqn:E.
    - apply zlookup_Some in E as [_ E]. apply list_elem_of_lookup_2 in E.
      by apply (proj1 (Forall_forall _ _) Hseq).
    - cbn. unfold validId, MIN_PATTERN_ID, MAX_PATTERNS. lia. }
  unfold displayedPatternId. destruct (isPlaying st); [|done].
  destruct (currentStep st) as [|g]; [done|]. cbn [getPatternAtStepJs].
  destruct (getPatternAtStep st g) as [at_|] eqn:E; [|done].
  assert (Hgen : forall rest acc i at', getPatternAtStepFrom st g acc i rest = Some at' ->
                                        patternId at' ∈ rest).
  { induction rest as [|x rest IH]; intros acc i at' H; [done|].
    cbn [getPatternAtStepFrom] in H. destruct (g <? acc + stepsPerPattern st x).
    - injection H as <-. cbn. apply elem_of_cons. by left.
    - apply elem_of_cons. right. by apply (IH _ _ _ H). }
  apply (proj1 (Forall_forall _ _) Hseq). by apply (Hgen _ _ _ _ E).
Qed.

Lemma SessionOk_layer (st : State) :
  SessionOk st ->
  exists p layer,
    findPattern (patterns st) (displayedPatternId st) = Some p
    /\ getCurrentLayer st = Some layer
    /\ layerOk (stepsPerPattern st (displayedPatternId st)) layer.
Proof.
  intros Hok. pose proof Hok as (_ & _ & Hseq & _ & Hidx & _).
  destruct (SessionOk_findPattern st _ Hok (displayedPatternId_valid st Hseq))
    as (p & Hfind & _ & [Hlen Hall] & Hsteps).
  assert (Hl : is_Some (zlookup (Pattern.layers p) (selectedSynthIndex st))).
  { apply zlookup_is_Some. unfold zlength. lia. }
  destruct Hl as [layer Hl]. exists p, layer. split; [done|].
  split; [apply getCurrentLayer_Some; by exists p|].
  rewrite Hsteps. apply zlookup_Some in Hl as [_ Hl]. apply list_elem_of_lookup_2 in Hl.
  by apply (proj1 (Forall_forall _ _) Hall).
Qed.

Lemma SessionOk_dragTo (stepIndex pitchIndex : Z) (anchor : Cell) (st : State) :
  SessionOk st -> SessionOk (dragTo stepIndex pitchIndex anchor st).
Proof.
  intros Hok. pose proof Hok as (_ & _ & _ & _ & _ & _ & Hds & Hdl & Hdo).
  unfold dragTo. destruct (getCurrentLayer st) as [layer|]; [|done].
  set (st1 := if isCloning st then _ else _).
  assert (Hok1 : SessionOk st1).
  { unfold st1. repeat case_match; by apply SessionOk_clearNotesAt. }
  apply SessionOk_set_dragOverwrittenNotes.
  - apply Forall_List_filter, Forall_cellOk_filter.
  - apply SessionOk_set_dragLastPositions; [apply Forall_cellOk_filter|].
    by do 2 apply SessionOk_setNotesAt.
Qed.

Lemma SessionOk_moveSelectedNotes (deltaStep deltaPitch : Z) (st : State) :
  SessionOk st -> SessionOk (moveSelectedNotes deltaStep deltaPitch st).
Proof.
  intros Hok. pose proof Hok as (_ & _ & _ & _ & _ & Hsel & _).
  unfold moveSelectedNotes. destruct (getCurrentLayer st) as [layer|]; [|done].
  case_bool_decide; [done|]. destruct (forallb _ _) eqn:Hin; [|done].
  apply SessionOk_set_selectedNotes.
  - apply Forall_forall. intros c Hc. apply (proj1 (elem_of_newSet _ _)) in Hc.
    apply (inBounds_cellOk (zlength layer)). by apply (forallb_elem_of _ _ _ Hin).
  - apply SessionOk_setNotesAt, SessionOk_clearNotesAt; [|done].
    unfold getSelectedNotesArray. by rewrite parseKey_cellOk.
Qed.

Lemma SessionOk_mousedown (stepIndex pitchIndex : Z) (e : MouseEvent) (opts : CellOpts)
    (st : State) :
  cellOk (stepIndex, pitchIndex) -> SessionOk st ->
  SessionOk (sessionOf (handleCellMousedown stepIndex pitchIndex e opts st)).
Proof.
  intros Hc Hok. pose proof Hok as (_ & _ & _ & _ & _ & Hsel & _).
  unfold handleCellMousedown. destruct (isDisabled opts); [done|].
  destruct (metaKey e || ctrlKey e); [by apply (SessionOk_view st)|].
  destruct (shiftKey e && hasNote opts).
  { cbn [sessionOf]. apply SessionOk_set_selectedNotes; [|done].
    apply Forall_forall. intros c Hin. destruct (setHas _ _).
    - apply elem_of_setDelete in Hin. by apply (proj1 (Forall_forall _ _) Hsel).
    - apply elem_of_setAdd in Hin as [Hin| ->]; [|done].
      by apply (proj1 (Forall_forall _ _) Hsel). }
  destruct (noteSelected opts && _).
  { cbn [sessionOf].
    apply (SessionOk_view
             (set_dragOverwrittenNotes []
                (set_dragLastPositions []
                   (set_dragStartNotes (getSelectedNotesArray st)
                      (set_selectedNotes [] st))))); [done|].
    apply SessionOk_set_dragOverwrittenNotes; [constructor|].
    apply SessionOk_set_dragLastPositions; [constructor|].
    apply SessionOk_set_dragStartNotes.
    - unfold getSelectedNotesArray. by rewrite parseKey_cellOk.
    - by apply SessionOk_set_selectedNotes; [constructor|]. }
  set (st1 := set_paintTargetState _ _).
  assert (Hok1 : SessionOk st1).
  { apply (SessionOk_view (set_selectedNotes [] st)); [done|].
    by apply SessionOk_set_selectedNotes; [constructor|]. }
  pose proof (SessionOk_setCell st1 stepIndex pitchIndex (paintTargetState st1)
                (proj2 Hc) Hok1) as H.
  destruct (setCell st1 stepIndex pitchIndex (paintTargetState st1)) as [st2|st2];
    cbn [andThen sessionOf] in *; [by apply (SessionOk_view st2)|done].
Qed.

Lemma SessionOk_mouseenter (stepIndex pitchIndex : Z) (disabled : bool) (st : State) :
  cellOk (stepIndex, pitchIndex) -> SessionOk st ->
  SessionOk (sessionOf (handleCellMouseenter stepIndex pitchIndex disabled st)).
Proof.
  intros Hc Hok. unfold handleCellMouseenter.
  destruct (isSelectingRect st); [by apply (SessionOk_view st)|].
  destruct (isDragging st), (dragStartCell st); try (by apply SessionOk_dragTo);
    (destruct (isPainting st && negb disabled); [by apply SessionOk_setCell; [apply Hc|]|done]).
Qed.

Lemma SessionOk_onCell (st : State) (stepIndex pitchIndex : Z)
    (handler : CellOpts -> Outcome State) :
  SessionOk st ->
  (forall opts, cellOk (stepIndex, pitchIndex) -> SessionOk (sessionOf (handler opts))) ->
  SessionOk (sessionOf (onCell st stepIndex pitchIndex handler)).
Proof.
  intros Hok Hh. unfold onCell. destruct (getCurrentLayer st) as [layer|]; [|done].
  destruct (inBounds _ _) eqn:Hin; [|done]. apply Hh. by apply (inBounds_cellOk (zlength layer)).
Qed.

Lemma addNotesInRect_frame (rect : Rect) (st : State) :
  addNotesInRectToSelection rect st
  = set_selectedNotes (selectedNotes (addNotesInRectToSelection rect st)) st.
Proof. unfold addNotesInRectToSelection. destruct (getCurrentLayer st); by destruct st. Qed.

Lemma SessionOk_addNotesInRect (rect : Rect) (st : State) :
  SessionOk st -> SessionOk (addNotesInRectToSelection rect st).
Proof.
  intros Hok. pose proof Hok as (_ & _ & _ & _ & _ & Hselok & _).
  rewrite addNotesInRect_frame. apply SessionOk_set_selectedNotes; [|done].
  destruct (SessionOk_layer st Hok) as (p & layer & _ & Hl & [Hwf _]).
  destruct (addNotesInRectToSelection_spec rect st layer Hl) as [_ Hsel].
  apply Forall_forall. intros c [Hc|(_ & _ & Hact)]%Hsel.
  - by apply (proj1 (Forall_forall _ _) Hselok).
  - apply (inBounds_cellOk (zlength layer)). by apply (wfLayerb_active_inGrid layer c Hwf).
Qed.

Lemma SessionOk_handleMouseup (st : State) : SessionOk st -> SessionOk (handleMouseup st).
Proof.
  intros Hok. unfold handleMouseup. set (st1 := if isSelectingRect st then _ else st).
  assert (Hok1 : SessionOk st1); [|by apply (SessionOk_view st1)].
  unfold st1. destruct (isSelectingRect st); [|done].
  set (st' := match getSelectionRect st with Some _ => _ | None => _ end).
  apply (SessionOk_view st'); [done|]. unfold st'.
  destruct (getSelectionRect st); [by apply SessionOk_addNotesInRect|done].
Qed.

Lemma playStep_okView (now : Q) (step : JsInt) (st : State) :
  okView (sessionOf (playStep now step st)) = okView st.
Proof. by destruct (playStep_frame now step st) as [a [-> | ->]]. Qed.

Lemma start_okView (now : Q) (st : State) : okView (sessionOf (start now st)) = okView st.
Proof.
  unfold start. destruct (isPlaying st); [done|].
  set (st2 := set_currentStep _ _).
  pose proof (playStep_okView now (currentStep st2) st2) as H.
  by destruct (playStep now (currentStep st2) st2).
Qed.

Lemma tick_okView (now : Q) (st : State) :
  okView (sessionOf (startPlayingStepsUsingTimeout now st)) = okView st.
Proof.
  unfold startPlayingStepsUsingTimeout. destruct (negb (isPlaying st)); [done|].
  set (st1 := set_currentStep _ _).
  pose proof (playStep_okView now (currentStep st1) st1) as H.
  by destruct (playStep now (currentStep st1) st1).
Qed.

Lemma stop_okView (st : State) : okView (stop st) = okView st.
Proof. unfold stop. by case_match. Qed.

Lemma SessionOk_handleKeydown (k : KeyName) (now : Q) (st : State) :
  SessionOk st -> SessionOk (sessionOf (handleKeydown k now st)).
Proof.
  intros Hok. pose proof Hok as (_ & _ & _ & _ & _ & Hsel & _).
  assert (Hdel : SessionOk (deleteSelection st)).
  { unfold deleteSelection. case_match; [|done].
    apply SessionOk_set_selectedNotes; [constructor|].
    apply SessionOk_clearNotesAt; [|done]. unfold getSelectedNotesArray.
    by rewrite parseKey_cellOk. }
  assert (Hnudge : forall k', SessionOk (nudge k' st)).
  { intros k'. unfold nudge. case_match; [by apply SessionOk_moveSelectedNotes|done]. }
  destruct k; cbn [handleKeydown sessionOf]; try done.
  - case_match; [|done]. cbn [sessionOf].
    apply (SessionOk_view (set_selectedNotes [] st)); [done|].
    by apply SessionOk_set_selectedNotes; [constructor|].
  - destruct (isPlaying st).
    + by apply (SessionOk_view st); [apply stop_okView|].
    + by apply (SessionOk_view st); [apply start_okView|].
Qed.

Lemma selectedPatternId_valid (st : State) :
  Forall validId (sequence st) -> validId (selectedPatternId st).
Proof.
  intros Hseq. unfold selectedPatternId.
  destruct (zlookup (sequence st) (selectedSequenceIndex st)) as [x|] eqn:E.
  - apply zlookup_Some in E as [_ E]. apply list_elem_of_lookup_2 in E.
    by apply (proj1 (Forall_forall _ _) Hseq).
  - cbn. unfold validId, MIN_PATTERN_ID, MAX_PATTERNS. lia.
Qed.

Lemma Forall_zlookup {A : Type} (Q : A -> Prop) (l : list A) (i : Z) (x : A) :
  Forall Q l -> zlookup l i = Some x -> Q x.
Proof.
  intros Hl [_ E]%zlookup_Some. apply list_elem_of_lookup_2 in E.
  by apply (proj1 (Forall_forall _ _) Hl).
Qed.

Lemma SessionOk_cycle (seqIndex : Z) (up : bool) (st : State) :
  SessionOk st -> SessionOk (cyclePatternAtPosition seqIndex (if up then 1 else -1) st).
Proof.
  intros Hok. pose proof Hok as (_ & _ & Hseq & _).
  unfold cyclePatternAtPosition. case_match; [done|].
  destruct (zlookup (sequence st) seqIndex) as [cur|] eqn:E; [|done].
  pose proof (Forall_zlookup _ _ _ _ Hseq E) as Hcur.
  apply (SessionOk_view (set_sequence
           (zalter (fun _ => Z.rem (cur - MIN_PATTERN_ID + (if up then 1 else -1) + MAX_PATTERNS)
                                   MAX_PATTERNS + MIN_PATTERN_ID) seqIndex (sequence st)) st));
    [done|].
  apply SessionOk_set_sequence; [|done]. apply Forall_zalter; [|done]. intros _ _.
  unfold validId in *. rewrite cycle_next_id by (unfold MIN_PATTERN_ID in *; lia).
  unfold MIN_PATTERN_ID, MAX_PATTERNS.
  pose proof (Z.mod_pos_bound (cur + (if up then 1 else -1)) 8). lia.
Qed.

Lemma SessionOk_move (seqIndex direction : Z) (st : State) :
  SessionOk st -> SessionOk (movePatternInSequence seqIndex direction st).
Proof.
  intros Hok. pose proof Hok as (_ & _ & Hseq & _).
  unfold movePatternInSequence. do 2 (case_match; [done|]).
  destruct (zlookup (sequence st) seqIndex) as [a|] eqn:Ea; [|done].
  destruct (zlookup (sequence st) (seqIndex + direction)) as [b|] eqn:Eb; [|done].
  apply (SessionOk_view (set_sequence
           (zalter (fun _ => a) (seqIndex + direction)
                   (zalter (fun _ => b) seqIndex (sequence st))) st)); [done|].
  apply SessionOk_set_sequence; [|done].
  apply Forall_zalter; [intros _ _; by apply (Forall_zlookup _ _ _ _ Hseq Ea)|].
  apply Forall_zalter; [intros _ _; by apply (Forall_zlookup _ _ _ _ Hseq Eb)|done].
Qed.

Lemma wfLayerb_replicate (n : nat) : wfLayerb (replicate n emptyStep) = true.
Proof.
  unfold wfLayerb. induction n as [|n IH]; [done|].
  cbn [replicate forallb]. by rewrite wfStepb_emptyStep, IH.
Qed.

Lemma wfLayerb_take (n : nat) (layer : list Step) :
  wfLayerb layer = true -> wfLayerb (take n layer) = true.
Proof.
  unfold wfLayerb. revert n. induction layer as [|s layer IH]; intros [|n] H; try done.
  cbn [take forallb] in *. apply andb_prop in H as [-> H]. by apply IH.
Qed.

Lemma wfLayerb_resizeLayer (n : Z) (layer : list Step) :
  wfLayerb layer = true -> wfLayerb (resizeLayer n layer) = true.
Proof.
  intros Hwf. unfold resizeLayer. repeat case_match; [done| |by apply wfLayerb_take].
  unfold wfLayerb. rewrite forallb_app. fold (wfLayerb layer). rewrite Hwf.
  apply wfLayerb_replicate.
Qed.

Lemma patternOk_createPattern (d : Z) (b s : JsNum) : patternOk (createPattern d b s).
Proof.
  assert (Hl : layerOk (patternSteps (createPattern d b s))
                       (createStepLayer (clampBeatsPerMeasure b * clampStepsPerBeat s))).
  { destruct (createStepLayer_spec (clampBeatsPerMeasure b * clampStepsPerBeat s))
      as (Hlen & Hwf & _).
    split; [done|]. rewrite Hlen. unfold patternSteps, createPattern.
    cbn [Pattern.beatsPerMeasure Pattern.stepsPerBeat].
    rewrite clampBeatsPerMeasure_ofInt by apply clampBeatsPerMeasure_range.
    rewrite clampStepsPerBeat_ofInt by apply clampStepsPerBeat_range.
    pose proof (clampBeatsPerMeasure_range b). pose proof (clampStepsPerBeat_range s).
    unfold MIN_BEATS_PER_MEASURE, MIN_STEPS_PER_BEAT in *. nia. }
  split; [done|]. cbn [createPattern Pattern.layers].
  constructor; [exact Hl|]. constructor; [exact Hl|]. constructor.
Qed.

Lemma SessionOk_clearPattern (st : State) : SessionOk st -> SessionOk (clearPattern st).
Proof.
  intros Hok. pose proof Hok as (_ & Hps & _). unfold clearPattern.
  destruct (findPattern (patterns st) (displayedPatternId st)) as [pattern|]; [|done].
  apply SessionOk_set_patterns; [| |done].
  - apply ids_updateFirst. intros p Hp%Z.eqb_eq. by rewrite Hp.
  - apply Forall_updateFirst; [|done]. intros p _ _. apply patternOk_createPattern.
Qed.

Lemma SessionOk_steps (st : State) (p : Pattern.t) :
  Pattern.id <$> patterns st = seqZ MIN_PATTERN_ID MAX_PATTERNS ->
  p ∈ patterns st -> stepsPerPattern st (Pattern.id p) = patternSteps p.
Proof.
  intros Hids [i Hi]%list_elem_of_lookup_1. unfold stepsPerPattern.
  rewrite (findPattern_lookup (patterns st) i p); [done| |done].
  rewrite Hids. apply NoDup_seqZ.
Qed.

Lemma SessionOk_resize (g : Pattern.t -> Pattern.t) (st : State) :
  (forall p, Pattern.id (g p) = Pattern.id p) ->
  (forall p, Pattern.layers (g p) = Pattern.layers p) ->
  SessionOk st -> SessionOk (resizeEffect (writeMeter g st)).
Proof.
  intros Hgid Hgl Hok. pose proof Hok as (Hids & Hps & _).
  set (st1 := writeMeter g st).
  assert (Hids1 : Pattern.id <$> patterns st1 = Pattern.id <$> patterns st).
  { unfold st1, writeMeter. cbn [patterns set_patterns]. by apply ids_updateFirst. }
  assert (Hw : Forall (fun p => length (Pattern.layers p) = 2%nat
                                /\ Forall (fun l => wfLayerb l = true) (Pattern.layers p))
                      (patterns st1)).
  { unfold st1, writeMeter. cbn [patterns set_patterns]. apply Forall_updateFirst.
    - intros p _. by rewrite Hgl.
    - eapply Forall_impl; [exact Hps|]. intros p [Hlen Hall]. split; [done|].
      eapply Forall_impl; [exact Hall|]. by intros l [Hwf _]. }
  unfold resizeEffect. fold st1.
  apply (SessionOk_view (set_patterns
           ((fun pattern => withLayers
               (fmap (resizeLayer (stepsPerPattern st1 (Pattern.id pattern)))) pattern)
              <$> patterns st1) st)); [done|].
  apply SessionOk_set_patterns; [| |done].
  - rewrite <- Hids1, <- list_fmap_compose. by apply list_fmap_ext.
  - apply Forall_fmap, Forall_forall. intros p Hp.
    destruct (proj1 (Forall_forall _ _) Hw p Hp) as [Hlen Hall].
    assert (Hn : stepsPerPattern st1 (Pattern.id p) = patternSteps p).
    { apply SessionOk_steps; [by rewrite Hids1|done]. }
    unfold patternOk. cbn [withLayers Pattern.layers compose].
    split; [by rewrite length_fmap|].
    apply Forall_fmap. eapply Forall_impl; [exact Hall|]. intros l Hwf. cbn [compose].
    split; [by apply wfLayerb_resizeLayer|].
    pose proof (stepsPerPattern_pos st1 (Pattern.id p)).
    destruct (resizeLayer_spec (stepsPerPattern st1 (Pattern.id p)) l) as [Hlen' _]; [lia|].
    rewrite Hlen'. exact Hn.
Qed.

Lemma dispatch_SessionOk (st : State) (ev : Event) :
  SessionOk st -> SessionOk (sessionOf (dispatch st ev)).
Proof.
  intros Hok. pose proof Hok as (Hids & Hps & Hseq & Hsyn & Hidx & Hsel & Hrest).
  destruct ev; cbn [dispatch].
  - apply SessionOk_onCell; [done|]. intros opts Hc. by apply SessionOk_mousedown.
  - apply SessionOk_onCell; [done|]. intros opts Hc. by apply SessionOk_mouseenter.
  - by apply SessionOk_handleMouseup.
  - by apply SessionOk_handleKeydown.
  - destruct (timeoutId st); [|done]. by apply (SessionOk_view st); [apply tick_okView|].
  - by apply SessionOk_clearPattern.
  - destruct (_ && _) eqn:Hshown; [|done]. cbn [sessionOf].
    apply andb_prop in Hshown as [?%Z.leb_le ?%Z.ltb_lt].
    apply SessionOk_set_selectedNotes; [constructor|].
    destruct Hrest as (? & ? & ?). unfold SessionOk.
    cbn [patterns sequence synths selectedSynthIndex selectedNotes dragStartNotes
         dragLastPositions dragOverwrittenNotes set_selectedSynthIndex].
    split_and!; try done; lia.
  - destruct (_ && _); [|done]. by apply (SessionOk_view st).
  - destruct (_ && _); [|done]. by apply SessionOk_cycle.
  - destruct (_ && _); [|done]. by apply SessionOk_move.
  - cbn [sessionOf]. unfold addToSequence. case_match; [|done].
    apply SessionOk_set_sequence; [|done]. apply Forall_app. split; [done|].
    constructor; [by apply selectedPatternId_valid|constructor].
  - cbn [sessionOf]. unfold removeLast. case_match; [|done].
    set (st1 := set_sequence _ st).
    assert (Hok1 : SessionOk st1) by (by apply SessionOk_set_sequence; [apply Forall_take|]).
    case_match; [|done]. by apply (SessionOk_view st1).
  - by apply SessionOk_resize.
  - by apply SessionOk_resize.
  - by apply SessionOk_resize.
  - by apply SessionOk_resize.
  - by apply (SessionOk_view st).
  - by apply (SessionOk_view st).
  - by apply (SessionOk_view st).
  - by apply (SessionOk_view st).
  - cbn [sessionOf]. destruct Hrest as (? & ? & ?). unfold SessionOk.
    cbn [patterns sequence synths selectedSynthIndex selectedNotes dragStartNotes
         dragLastPositions dragOverwrittenNotes set_synths].
    rewrite zalter_length. split_and!; try done; lia.
  - by apply (SessionOk_view st).
Qed.

Lemma SessionOk_reset : SessionOk reset.
Proof.
  unfold SessionOk, reset. cbn. split_and!; try done; try lia.
  - apply Forall_forall. intros p Hp. repeat (apply elem_of_cons in Hp as [->|Hp]);
      [..|by apply elem_of_nil in Hp]; apply patternOk_createPattern.
  - repeat constructor; unfold validId, MIN_PATTERN_ID, MAX_PATTERNS; lia.
Qed.

(** X21: the shape of the session is an invariant of the page: from a
    session with the eight patterns under their ids, two dense layers per
    pattern that fit its meter, pattern ids in the sequence, two synths
    and in-range coordinates in the selection and the drag records, every
    run of events leads to a session of the same shape. *)
Theorem session_stays_well_formed (st : State) (evs : list Event) (Hok : SessionOk st) :
  SessionOk (sessionOf (runEvents evs st)).
Proof. by apply (runEvents_invariant SessionOk); [apply dispatch_SessionOk|]. Qed.

Lemma session_stays_well_formed_witness :
  SessionOk (sessionOf (runEvents [CellMousedown 0 71 plainClick; WindowMouseup;
                                   InputStepsPerBeat (ofInt 3); ClickClear;
                                   ClickAddToSequence; WindowKeydown KeySpace 0] reset)).
Proof. apply session_stays_well_formed. exact SessionOk_reset. Defined.

(** X22: in a session of that shape the guards of the code never fire:
    the displayed pattern is in the store and [getCurrentLayer] returns a
    dense layer with the displayed pattern's step count; every sequence
    entry names a stored pattern, so the default of [stepsPerPattern] is
    not used; every layer fits its meter and the resize effect has nothing
    to do; and reading the selection back from its string keys gives the
    selection itself. *)
Theorem well_formed_session_guards (st : State) (Hok : SessionOk st) :
  (exists p layer,
     findPattern (patterns st) (displayedPatternId st) = Some p
     /\ getCurrentLayer st = Some layer
     /\ wfLayerb layer = true
     /\ zlength layer = stepsPerPattern st (displayedPatternId st))
  /\ (forall x, x ∈ sequence st -> is_Some (findPattern (patterns st) x))
  /\ LayersFit st
  /\ resizeEffect st = st
  /\ getSelectedNotesArray st = selectedNotes st.
Proof.
  pose proof Hok as (Hids & Hps & Hseq & _ & _ & Hsel & _).
  assert (Hfit : LayersFit st).
  { intros p layer Hp Hl. rewrite (SessionOk_steps st p Hids Hp).
    destruct (proj1 (Forall_forall _ _) Hps p Hp) as [_ Hall].
    by destruct (proj1 (Forall_forall _ _) Hall layer Hl). }
  split_and!.
  - destruct (SessionOk_layer st Hok) as (p & layer & Hfind & Hl & Hwf & Hlen).
    by exists p, layer.
  - intros x Hx.
    destruct (SessionOk_findPattern st x Hok (proj1 (Forall_forall _ _) Hseq x Hx))
      as (p & -> & _). done.
  - exact Hfit.
  - by apply resizeEffect_fixed.
  - unfold getSelectedNotesArray. by apply parseKey_cellOk.
Qed.

Lemma well_formed_session_guards_witness :
  resizeEffect reset = reset
  /\ exists layer, getCurrentLayer reset = Some layer /\ zlength layer = 16.
Proof.
  destruct (well_formed_session_guards reset SessionOk_reset)
    as ((p & layer & _ & Hl & _ & Hlen) & _ & _ & Hfix & _).
  split; [exact Hfix|]. exists layer. split; [exact Hl|]. rewrite Hlen. reflexivity.
Defined.

(** ** The registry, entry by entry *)

Lemma mapGet_mapSet_ne m (k k' : NoteKey) v :
  k' <> k -> mapGet (mapSet m k v) k' = mapGet m k'.
Proof.
  intros Hne. induction m as [|[k0 v0] m IH]; cbn [mapSet mapGet].
  - by rewrite decide_False.
  - destruct (decide (k0 = k)) as [->|]; cbn [mapGet].
    + by rewrite !decide_False.
    + destruct (decide (k0 = k')); [done|apply IH].
Qed.

Lemma mapGet_mapDelete_ne m (k k' : NoteKey) :
  k' <> k -> mapGet (mapDelete m k) k' = mapGet m k'.
Proof.
  intros Hne. induction m as [|[k0 v0] m IH]; cbn [mapDelete mapGet]; [done|].
  destruct (decide (k0 = k)) as [->|]; cbn [mapGet].
  - by rewrite decide_False.
  - destruct (decide (k0 = k')); [done|apply IH].
Qed.

Lemma mapGet_elem m (k : NoteKey) v : mapGet m k = Some v -> (k, v) ∈ m.
Proof.
  induction m as [|[k0 v0] m IH]; cbn [mapGet]; [done|].
  destruct (decide (k0 = k)) as [->|].
  - intros [= ->]. apply elem_of_cons. by left.
  - intros H. apply elem_of_cons. right. by apply IH.
Qed.

Lemma mapGet_None m (k : NoteKey) : mapGet m k = None -> k ∉ m.*1.
Proof.
  induction m as [|[k0 v0] m IH]; cbn [mapGet]; [intros _; apply not_elem_of_nil|].
  destruct (decide (k0 = k)); [done|]. intros H. rewrite fmap_cons.
  apply not_elem_of_cons. split; [done|by apply IH].
Qed.

Lemma mapSet_voices_same m (k : NoteKey) (e v : ActiveNote) :
  mapGet m k = Some e -> voice v = voice e ->
  (fun kv : NoteKey * ActiveNote => voice kv.2) <$> mapSet m k v
  = (fun kv : NoteKey * ActiveNote => voice kv.2) <$> m.
Proof.
  intros Hget Hv. induction m as [|[k0 v0] m IH]; cbn [mapGet mapSet] in *; [done|].
  destruct (decide (k0 = k)) as [->|].
  - injection Hget as ->. rewrite !fmap_cons. cbn [snd]. by rewrite Hv.
  - rewrite !fmap_cons. by rewrite IH.
Qed.

Lemma mapSet_absent m (k : NoteKey) v : k ∉ m.*1 -> mapSet m k v = m ++ [(k, v)].
Proof.
  induction m as [|[k0 v0] m IH]; cbn [mapSet]; [done|]. rewrite fmap_cons. cbn [fst].
  intros Hnot. apply not_elem_of_cons in Hnot as [Hne Hnot].
  rewrite decide_False by done. cbn [app]. by rewrite IH.
Qed.

Lemma mapDelete_absent m (k : NoteKey) : k ∉ (mapDelete m k).*1.
Proof. rewrite mapDelete_keys. rewrite list_elem_of_filter. tauto. Qed.

Lemma mapDelete_sublist m (k : NoteKey) : mapDelete m k `sublist_of` m.
Proof.
  induction m as [|[k0 v0] m IH]; cbn [mapDelete]; [done|].
  destruct (decide (k0 = k)); [by apply sublist_cons|by apply sublist_skip].
Qed.

Lemma RegistryOk_fresh (a : Audio) (m : list (NoteKey * ActiveNote)) (k : NoteKey) (t : Q)
    (log : list AudioOp) :
  NoDup m.*1 -> k ∉ m.*1 ->
  NoDup ((fun kv : NoteKey * ActiveNote => voice kv.2) <$> m) ->
  Forall (fun v => (v < nextVoice a)%nat) ((fun kv : NoteKey * ActiveNote => voice kv.2) <$> m) ->
  RegistryOk {| activeNotes := mapSet m k {| voice := nextVoice a; releaseAt := t |};
                nextVoice := S (nextVoice a); audioLog := log |}.
Proof.
  intros Hk Hnot Hv Hlt. unfold RegistryOk, registeredVoices. cbn [activeNotes nextVoice].
  rewrite mapSet_absent by done. rewrite !fmap_app. cbn [fmap list_fmap fst snd voice].
  split_and!.
  - apply NoDup_app. split; [done|]. split; [|apply NoDup_singleton].
    intros x Hx [->|[]%elem_of_nil]%elem_of_cons. done.
  - apply NoDup_app. split; [done|]. split; [|apply NoDup_singleton].
    intros x Hx [->|[]%elem_of_nil]%elem_of_cons.
    pose proof (proj1 (Forall_forall _ _) Hlt _ Hx) as Hlt'. cbn in Hlt'. lia.
  - apply Forall_app. split; [|repeat constructor; lia].
    eapply Forall_impl; [exact Hlt|]. intros v Hvlt. cbn in Hvlt. lia.
Qed.

Lemma startVoice_RegistryOk (midiNote : Z) (time duration : Q) (synth : Synth.t) (a : Audio) :
  (Synth.id synth, midiNote) ∉ (activeNotes a).*1 ->
  RegistryOk a -> RegistryOk (startVoice midiNote time duration synth a).
Proof.
  intros Hnot (Hk & Hv & Hlt). unfold startVoice. cbn [createVoice].
  destruct (Synth.legatoSameNote synth).
  - unfold set_activeNotes, emit. cbn [activeNotes nextVoice audioLog].
    by apply (RegistryOk_fresh a).
  - unfold RegistryOk, registeredVoices, emit. cbn [activeNotes nextVoice].
    split; [done|]. split; [done|].
    eapply Forall_impl; [exact Hlt|]. intros v Hvlt. cbn in Hvlt. lia.
Qed.

Lemma playCall_RegistryOk (a : Audio) (c : NoteCall) :
  RegistryOk a -> RegistryOk (playCall a c).
Proof.
  intros Hok. pose proof Hok as (Hk & Hv & Hlt).
  unfold playCall, playNote.
  destruct (Synth.legatoSameNote (callSynth c)) eqn:Hleg.
  - destruct (mapGet (activeNotes a) (Synth.id (callSynth c), callMidi c)) as [e|] eqn:Hget.
    + destruct (Qltb _ _).
      * unfold RegistryOk, registeredVoices, set_activeNotes, emit.
        cbn [activeNotes nextVoice audioLog].
        rewrite (mapSet_voices_same _ _ e) by done.
        split; [by apply mapSet_NoDup|done].
      * unfold startVoice. cbn [createVoice]. rewrite Hleg.
        unfold set_activeNotes, emit. cbn [activeNotes nextVoice audioLog].
        apply (RegistryOk_fresh a).
        -- by apply mapDelete_NoDup.
        -- apply mapDelete_absent.
        -- eapply sublist_NoDup; [exact Hv|]. apply fmap_sublist, mapDelete_sublist.
        -- apply Forall_forall. intros v Hin.
           apply (proj1 (Forall_forall _ _) Hlt).
           eapply elem_of_sublist; [exact Hin|]. apply fmap_sublist, mapDelete_sublist.
    + apply startVoice_RegistryOk; [|done]. by apply mapGet_None.
  - unfold startVoice. cbn [createVoice]. rewrite Hleg.
    unfold RegistryOk, registeredVoices, emit. cbn [activeNotes nextVoice].
    split; [done|]. split; [done|].
    eapply Forall_impl; [exact Hlt|]. intros v Hvlt. cbn in Hvlt. lia.
Qed.

Lemma startVoice_log (midiNote : Z) (time duration : Q) (synth : Synth.t) (a : Audio) :
  exists ops,
    audioLog (startVoice midiNote time duration synth a) = audioLog a ++ ops
    /\ startedNotes ops = [midiNote]
    /\ timedStops ops = (if Synth.legatoSameNote synth then [] else [nextVoice a])
    /\ nextVoice (startVoice midiNote time duration synth a) = S (nextVoice a).
Proof.
  unfold startVoice. cbn [createVoice]. destruct (Synth.legatoSameNote synth);
    unfold set_activeNotes, emit; cbn [audioLog nextVoice activeNotes].
  - eexists. split; [reflexivity|]. by split_and!.
  - eexists. split; [by rewrite <- app_assoc|]. by split_and!.
Qed.

Lemma playCall_log (a : Audio) (c : NoteCall) :
  exists ops,
    audioLog (playCall a c) = audioLog a ++ ops
    /\ (Synth.legatoSameNote (callSynth c) = true -> timedStops ops = [])
    /\ (Synth.legatoSameNote (callSynth c) = false ->
        startedNotes ops = [callMidi c] /\ timedStops ops = [nextVoice a])
    /\ (nextVoice a <= nextVoice (playCall a c) <= S (nextVoice a))%nat.
Proof.
  unfold playCall, playNote.
  destruct (Synth.legatoSameNote (callSynth c)) eqn:Hleg.
  - destruct (mapGet (activeNotes a) _) as [e|].
    + destruct (Qltb _ _).
      * unfold set_activeNotes, emit. cbn [audioLog nextVoice activeNotes].
        eexists. split; [reflexivity|]. split; [done|]. split; [done|lia].
      * set (a1 := set_activeNotes _ _).
        destruct (startVoice_log (callMidi c) (callTime c) (callDuration c) (callSynth c) a1)
          as (ops & Hlog & _ & Hstops & Hnext).
        rewrite Hlog, Hnext. unfold a1, set_activeNotes, emit. cbn [audioLog nextVoice].
        eexists. split; [by rewrite <- app_assoc|]. rewrite Hleg in Hstops.
        split; [|split; [done|lia]]. intros _. unfold timedStops in *.
        rewrite omap_app, Hstops. done.
    + destruct (startVoice_log (callMidi c) (callTime c) (callDuration c) (callSynth c) a)
        as (ops & Hlog & _ & Hstops & Hnext).
      rewrite Hlog, Hnext. exists ops. rewrite Hleg in Hstops.
      split; [done|]. split; [done|]. split; [done|lia].
  - destruct (startVoice_log (callMidi c) (callTime c) (callDuration c) (callSynth c) a)
      as (ops & Hlog & Hstarts & Hstops & Hnext).
    rewrite Hlog, Hnext. exists ops. rewrite Hleg in Hstops.
    split; [done|]. split; [done|]. split; [done|lia].
Qed.

Lemma playCall_other_keys (a : Audio) (c : NoteCall) (k : NoteKey) :
  k <> callKey c -> mapGet (activeNotes (playCall a c)) k = mapGet (activeNotes a) k.
Proof.
  intros Hne. unfold callKey in Hne. unfold playCall, playNote.
  destruct (Synth.legatoSameNote (callSynth c)) eqn:Hleg.
  - destruct (mapGet (activeNotes a) _) as [e|].
    + destruct (Qltb _ _).
      * unfold set_activeNotes, emit. cbn [activeNotes]. by apply mapGet_mapSet_ne.
      * rewrite startVoice_activeNotes, Hleg. unfold set_activeNotes, emit. cbn [activeNotes].
        rewrite mapGet_mapSet_ne by done. by apply mapGet_mapDelete_ne.
    + rewrite startVoice_activeNotes, Hleg. by apply mapGet_mapSet_ne.
  - by rewrite startVoice_activeNotes, Hleg.
Qed.

(** X23: a call to [playNote] touches the registry entry of its own key
    only and appends to the audio log; it creates at most one voice; a
    legato voice is registered and no stop is ever scheduled for it, a
    plain voice is started with the requested note and scheduled to stop;
    and a registry that names each key once, no voice twice and only
    created voices stays so. *)
Theorem playNote_frame (a : Audio) (c : NoteCall) :
  (forall k, k <> callKey c -> mapGet (activeNotes (playCall a c)) k = mapGet (activeNotes a) k)
  /\ (exists ops,
        audioLog (playCall a c) = audioLog a ++ ops
        /\ (Synth.legatoSameNote (callSynth c) = true -> timedStops ops = [])
        /\ (Synth.legatoSameNote (callSynth c) = false ->
            startedNotes ops = [callMidi c] /\ timedStops ops = [nextVoice a]))
  /\ (nextVoice a <= nextVoice (playCall a c) <= S (nextVoice a))%nat
  /\ (Synth.legatoSameNote (callSynth c) = true ->
      is_Some (mapGet (activeNotes (playCall a c)) (callKey c)))
  /\ (RegistryOk a -> RegistryOk (playCall a c)).
Proof.
  destruct (playCall_log a c) as (ops & Hlog & Hleg & Hplain & Hnext).
  split_and!.
  - intros k. apply playCall_other_keys.
  - by exists ops.
  - lia.
  - lia.
  - intros Hl. destruct (playCall_legato a c Hl) as (m & v & -> & _).
    rewrite mapGet_mapSet. by eexists.
  - apply playCall_RegistryOk.
Qed.

(** ** What a step plays *)

Lemma playPitches_fold (now duration : Q) (synth : Synth.t) (arr : BoolArray)
    (l : list Z) (a : Audio) :
  Synth.legatoSameNote synth = false ->
  let a' := foldl (fun a pitchIndex =>
                     if arrTruthy arr pitchIndex then
                       playNote now (BASE_MIDI_NOTE + (NUM_PITCHES - 1 - pitchIndex)) now
                                duration synth a
                     else a) a l in
  startedNotes (audioLog a')
  = startedNotes (audioLog a) ++ (midiOfPitch <$> List.filter (arrTruthy arr) l)
  /\ length (timedStops (audioLog a'))
     = (length (timedStops (audioLog a)) + length (List.filter (arrTruthy arr) l))%nat
  /\ activeNotes a' = activeNotes a
  /\ nextVoice a' = (nextVoice a + length (List.filter (arrTruthy arr) l))%nat.
Proof.
  intros Hplain. revert a. induction l as [|p l IH]; intros a; cbn zeta.
  - cbn [foldl List.filter fmap list_fmap length]. rewrite app_nil_r. split_and!; [done|lia|done|lia].
  - cbn [foldl List.filter]. destruct (arrTruthy arr p).
    + set (c := {| callNow := now; callMidi := BASE_MIDI_NOTE + (NUM_PITCHES - 1 - p);
                   callTime := now; callDuration := duration; callSynth := synth |}).
      change (playNote now (BASE_MIDI_NOTE + (NUM_PITCHES - 1 - p)) now duration synth a)
        with (playCall a c).
      destruct (IH (playCall a c)) as (H1 & H2 & H3 & H4).
      destruct (playCall_log a c) as (ops & Hlog & _ & Hops & _).
      destruct (Hops Hplain) as [Hstart Hstop].
      destruct (startVoice_log (callMidi c) now duration synth a) as (_ & _ & _ & _ & Hnext).
      assert (Hnv : nextVoice (playCall a c) = S (nextVoice a)).
      { unfold playCall, playNote. cbn [callSynth c]. by rewrite Hplain. }
      rewrite H1, H2, H3, H4, Hlog, Hnv. unfold startedNotes, timedStops in *.
      rewrite !omap_app, Hstart, Hstop, !length_app. cbn [length fmap list_fmap].
      rewrite <- app_assoc. split_and!; [done|lia| |lia].
      by apply (playCall_nonlegato a c).
    + apply IH.
Qed.

(** X24: for a synth without legato, playing the pitches of one step
    starts one new oscillator for each active slot below the array's
    length, in slot order, with the MIDI note of the slot, schedules a
    stop for each, and leaves the registry alone. *)
Theorem playPitches_nonlegato (now duration : Q) (synth : Synth.t) (arr : BoolArray)
    (a : Audio) (Hplain : Synth.legatoSameNote synth = false) :
  let active := List.filter (arrTruthy arr) (seqZ 0 (alen arr)) in
  let a' := playPitches now duration synth arr a in
  startedNotes (audioLog a') = startedNotes (audioLog a) ++ (midiOfPitch <$> active)
  /\ length (timedStops (audioLog a'))
     = (length (timedStops (audioLog a)) + length active)%nat
  /\ activeNotes a' = activeNotes a
  /\ nextVoice a' = (nextVoice a + length active)%nat.
Proof. by apply playPitches_fold. Qed.

Lemma playPitches_nonlegato_witness :
  startedNotes (audioLog (playPitches 0 (1 / 10) (Synth.mk 0 "Synth 1" square (3 / 10) 10 100 false)
                            (arrSet (arrFill 3 false) 1 true) (audio reset)))
  = [118].
Proof.
  refine (eq_trans (proj1 (playPitches_nonlegato 0 (1 / 10)
            (Synth.mk 0 "Synth 1" square (3 / 10) 10 100 false)
            (arrSet (arrFill 3 false) 1 true) (audio reset) eq_refl)) _).
  reflexivity.
Defined.

(** ** Stopping *)

(** X25: stopping a playing session ends playback and silences the
    registry: transport off, no timer pending, every registered voice
    stopped and disconnected and the registry empty; the playhead, the
    patterns, the sequence and the selection stay; a timer that still
    fires does nothing, nor does a second stop. *)
Theorem stop_silences (st : State) (now : Q) (Hplaying : isPlaying st = true) :
  dispatch st (WindowKeydown KeySpace now) = Returned (stop st)
  /\ isPlaying (stop st) = false /\ timeoutId (stop st) = None
  /\ activeNotes (audio (stop st)) = []
  /\ audioLog (audio (stop st))
     = audioLog (audio st)
       ++ flat_map (fun v => [OscStop v None; GainDisconnect v]) (registeredVoices (audio st))
  /\ currentStep (stop st) = currentStep st
  /\ editorView (stop st) = editorView st
  /\ startPlayingStepsUsingTimeout now (stop st) = Returned (stop st)
  /\ dispatch (stop st) (TimerFires now) = Returned (stop st)
  /\ stop (stop st) = stop st.
Proof.
  assert (Hs : stop st = set_audio (stopAll (audio st))
                           (set_timeoutId None (set_isPlaying false st)))
    by (unfold stop; by rewrite Hplaying).
  assert (Hoff : isPlaying (stop st) = false) by (by rewrite Hs).
  assert (Htimer : timeoutId (stop st) = None) by (by rewrite Hs).
  split_and!; try done.
  - cbn [dispatch handleKeydown]. by rewrite Hplaying.
  - by rewrite Hs.
  - rewrite Hs. cbn [audio set_audio stopAll set_activeNotes emit audioLog]. f_equal.
    unfold registeredVoices. induction (activeNotes (audio st)) as [|kv m IH]; [done|].
    cbn [flat_map fmap list_fmap]. by rewrite IH.
  - by rewrite Hs.
  - apply stop_editorView.
  - unfold startPlayingStepsUsingTimeout. by rewrite Hoff.
  - cbn [dispatch]. by rewrite Htimer.
  - unfold stop at 1. by rewrite Hoff.
Qed.

Lemma stop_silences_witness :
  isPlaying (stop (sessionOf (start 0 twoSteps))) = false
  /\ stop (stop (sessionOf (start 0 twoSteps))) = stop (sessionOf (start 0 twoSteps)).
Proof.
  destruct (stop_silences (sessionOf (start 0 twoSteps)) 0) as (_ & H1 & _ & _ & _ & _ & _ & _ & _ & H2).
  - reflexivity.
  - split; [exact H1|exact H2].
Defined.

(** ** Escape *)

(** X26: Escape drops the selection and an open selection rectangle and
    nothing else: no note changes, and a paint stroke or drag under way is
    not ended by it; with no selection and no rectangle the key does
    nothing. *)
Theorem escape_clears (st : State) (now : Q) :
  exists st',
    dispatch st (WindowKeydown KeyEscape now) = Returned st'
    /\ patterns st' = patterns st
    /\ getCurrentLayer st' = getCurrentLayer st
    /\ (isPainting st', isDragging st', dragStartCell st', dragStartNotes st')
       = (isPainting st, isDragging st, dragStartCell st, dragStartNotes st)
    /\ (selectedNotes st <> [] \/ isSelectingRect st = true ->
        selectedNotes st' = [] /\ getSelectionRect st' = None /\ isSelectingRect st' = false)
    /\ (selectedNotes st = [] -> isSelectingRect st = false -> st' = st).
Proof.
  cbn [dispatch handleKeydown].
  destruct ((0 <? zlength (selectedNotes st)) || isSelectingRect st) eqn:E.
  - eexists. split; [reflexivity|]. split; [done|].
    split; [by apply getCurrentLayer_sameGrid|]. split; [done|]. split; [done|].
    intros Hsel Hrect. rewrite Hsel, Hrect in E. discriminate.
  - exists st. split; [done|]. split; [done|]. split; [done|]. split; [done|].
    apply orb_false_elim in E as [Hn Hr]. split; [|done].
    intros [Hsel|Hrect]; [|congruence].
    destruct (selection_nonempty st Hsel) as [Hpos _]. congruence.
Qed.

(** ** Edits stay in the layer on show *)

Lemma EditOf_refl (st : State) : EditOf st st.
Proof. by split_and!. Qed.

Lemma EditOf_trans (st1 st2 st3 : State) : EditOf st1 st2 -> EditOf st2 st3 -> EditOf st1 st3.
Proof.
  intros (Hk1 & Hm1 & Hl1) (Hk2 & Hm2 & Hl2). split_and!.
  - by rewrite Hk2.
  - by rewrite Hm2.
  - intros x j Hne. rewrite Hl2 by (by rewrite Hk1). by apply Hl1.
Qed.

Lemma EditOf_view (st st' : State) :
  patterns st' = patterns st -> transportView st' = transportView st ->
  selectedSynthIndex st' = selectedSynthIndex st -> EditOf st st'.
Proof.
  intros Hp Hv Hi. injection Hv as Hs Hsel Hplay Hcur. split_and!.
  - unfold gridKey. rewrite Hi. f_equal. by apply displayedPatternId_sameGrid.
  - by rewrite Hp.
  - intros x j _. unfold layerAt. by rewrite Hp.
Qed.

Lemma EditOf_updateCurrentLayer (f : list Step -> list Step) (st : State) :
  EditOf st (updateCurrentLayer f st).
Proof.
  split_and!.
  - unfold gridKey. by rewrite updateCurrentLayer_displayed.
  - unfold updateCurrentLayer. cbn [patterns set_patterns]. by apply updateFirst_meters.
  - intros x j Hne. unfold layerAt, updateCurrentLayer. cbn [patterns set_patterns].
    rewrite findPattern_updateFirst_id by done.
    destruct (decide (x = displayedPatternId st)) as [->|]; [|done].
    destruct (findPattern (patterns st) (displayedPatternId st)) as [p|]; [|done].
    cbn [fmap option_fmap option_map withLayers Pattern.layers].
    rewrite zlookup_zalter. rewrite decide_False; [done|].
    intros <-. by apply Hne.
Qed.

Lemma EditOf_clearNotesAt (ps : list Cell) (st : State) : EditOf st (clearNotesAt ps st).
Proof.
  unfold clearNotesAt. destruct (getCurrentLayer st);
    [apply EditOf_updateCurrentLayer|apply EditOf_refl].
Qed.

Lemma EditOf_setNotesAt (ps : list Cell) (st : State) : EditOf st (setNotesAt ps st).
Proof.
  unfold setNotesAt. destruct (getCurrentLayer st);
    [apply EditOf_updateCurrentLayer|apply EditOf_refl].
Qed.

Lemma EditOf_setCell (st : State) (step pitch : Z) (v : bool) :
  EditOf st (sessionOf (setCell st step pitch v)).
Proof.
  unfold setCell. repeat case_match; try apply EditOf_refl. apply EditOf_updateCurrentLayer.
Qed.

Lemma EditOf_dragTo (stepIndex pitchIndex : Z) (anchor : Cell) (st : State) :
  EditOf st (dragTo stepIndex pitchIndex anchor st).
Proof.
  unfold dragTo. destruct (getCurrentLayer st) as [layer|]; [|apply EditOf_refl].
  set (st1 := if isCloning st then _ else _).
  assert (H1 : EditOf st st1) by (unfold st1; repeat case_match; apply EditOf_clearNotesAt).
  set (st2 := setNotesAt _ st1).
  assert (H2 : EditOf st st2) by (apply (EditOf_trans _ st1); [done|apply EditOf_setNotesAt]).
  match goal with
  | |- EditOf _ (set_dragOverwrittenNotes _ (set_dragLastPositions _ ?s)) =>
      apply (EditOf_trans _ s)
  end.
  - apply (EditOf_trans _ st2); [done|apply EditOf_setNotesAt].
  - by apply EditOf_view.
Qed.

Lemma EditOf_moveSelectedNotes (deltaStep deltaPitch : Z) (st : State) :
  EditOf st (moveSelectedNotes deltaStep deltaPitch st).
Proof.
  unfold moveSelectedNotes. destruct (getCurrentLayer st) as [layer|]; [|apply EditOf_refl].
  case_bool_decide; [apply EditOf_refl|]. destruct (forallb _ _); [|apply EditOf_refl].
  set (st1 := clearNotesAt _ st). set (st2 := setNotesAt _ st1).
  apply (EditOf_trans _ st2); [|by apply EditOf_view].
  apply (EditOf_trans _ st1); [apply EditOf_clearNotesAt|apply EditOf_setNotesAt].
Qed.

Lemma EditOf_mousedown (stepIndex pitchIndex : Z) (e : MouseEvent) (opts : CellOpts)
    (st : State) :
  EditOf st (sessionOf (handleCellMousedown stepIndex pitchIndex e opts st)).
Proof.
  unfold handleCellMousedown. destruct (isDisabled opts); [apply EditOf_refl|].
  destruct (metaKey e || ctrlKey e); [by apply EditOf_view|].
  destruct (shiftKey e && hasNote opts); [by apply EditOf_view|].
  destruct (noteSelected opts && _); [by apply EditOf_view|].
  set (st1 := set_paintTargetState _ _).
  assert (H1 : EditOf st st1) by (by apply EditOf_view).
  pose proof (EditOf_setCell st1 stepIndex pitchIndex (paintTargetState st1)) as H2.
  destruct (setCell st1 stepIndex pitchIndex (paintTargetState st1)) as [st2|st2];
    cbn [andThen sessionOf] in *.
  - apply (EditOf_trans _ st2); [by apply (EditOf_trans _ st1)|by apply EditOf_view].
  - by apply (EditOf_trans _ st1).
Qed.

Lemma EditOf_mouseenter (stepIndex pitchIndex : Z) (disabled : bool) (st : State) :
  EditOf st (sessionOf (handleCellMouseenter stepIndex pitchIndex disabled st)).
Proof.
  unfold handleCellMouseenter. destruct (isSelectingRect st); [by apply EditOf_view|].
  destruct (isDragging st), (dragStartCell st); try apply EditOf_dragTo;
    (destruct (isPainting st && negb disabled); [apply EditOf_setCell|apply EditOf_refl]).
Qed.

Lemma EditOf_handleMouseup (st : State) : EditOf st (handleMouseup st).
Proof.
  apply EditOf_view.
  - unfold handleMouseup. destruct (isSelectingRect st); [|done].
    destruct (getSelectionRect st); [|done]. cbn. by rewrite addNotesInRect_frame.
  - apply handleMouseup_transportView.
  - unfold handleMouseup. destruct (isSelectingRect st); [|done].
    destruct (getSelectionRect st); [|done]. cbn. by rewrite addNotesInRect_frame.
Qed.

(** X27: the note editor writes to the layer on show and nowhere else:
    whatever a pointer event on the grid, the release of the button or a
    key does, every layer of every other pattern and the other layers of
    the displayed pattern are as before, and so are the ids and the meter
    fields of all patterns. *)
Theorem edits_stay_in_shown_layer (st : State) (ev : Event) (x j : Z)
    (Hev : editsNotes ev = true)
    (Hother : (x, j) <> (displayedPatternId st, selectedSynthIndex st)) :
  layerAt (sessionOf (dispatch st ev)) x j = layerAt st x j
  /\ meterOf <$> patterns (sessionOf (dispatch st ev)) = meterOf <$> patterns st.
Proof.
  assert (Hedit : forall st', EditOf st st' ->
            layerAt st' x j = layerAt st x j
            /\ meterOf <$> patterns st' = meterOf <$> patterns st).
  { intros st' (_ & Hm & Hl). split; [by apply Hl|done]. }
  assert (Hsame : forall st', patterns st' = patterns st ->
            layerAt st' x j = layerAt st x j
            /\ meterOf <$> patterns st' = meterOf <$> patterns st).
  { intros st' Hp. unfold layerAt. by rewrite Hp. }
  destruct ev; try discriminate; cbn [dispatch].
  - unfold onCell. destruct (getCurrentLayer st); [|by apply Hedit, EditOf_refl].
    destruct (inBounds _ _); [|by apply Hedit, EditOf_refl]. apply Hedit, EditOf_mousedown.
  - unfold onCell. destruct (getCurrentLayer st); [|by apply Hedit, EditOf_refl].
    destruct (inBounds _ _); [|by apply Hedit, EditOf_refl]. apply Hedit, EditOf_mouseenter.
  - apply Hedit, EditOf_handleMouseup.
  - destruct k; cbn [handleKeydown sessionOf]; try (by apply Hedit, EditOf_refl).
    + apply Hedit. unfold deleteSelection. case_match; [|apply EditOf_refl].
      apply (EditOf_trans _ (clearNotesAt (getSelectedNotesArray st) st));
        [apply EditOf_clearNotesAt|by apply EditOf_view].
    + apply Hedit. unfold deleteSelection. case_match; [|apply EditOf_refl].
      apply (EditOf_trans _ (clearNotesAt (getSelectedNotesArray st) st));
        [apply EditOf_clearNotesAt|by apply EditOf_view].
    + case_match; [|by apply Hedit, EditOf_refl]. by apply Hsame.
    + apply Hedit. unfold nudge. case_match; [apply EditOf_moveSelectedNotes|apply EditOf_refl].
    + apply Hedit. unfold nudge. case_match; [apply EditOf_moveSelectedNotes|apply EditOf_refl].
    + apply Hedit. unfold nudge. case_match; [apply EditOf_moveSelectedNotes|apply EditOf_refl].
    + apply Hedit. unfold nudge. case_match; [apply EditOf_moveSelectedNotes|apply EditOf_refl].
    + apply Hsame. destruct (isPlaying st).
      * pose proof (stop_editorView st) as Hv. by injection Hv.
      * pose proof (start_editorView now st) as Hv. by injection Hv.
Qed.

Lemma edits_stay_in_shown_layer_witness :
  layerAt (sessionOf (dispatch twoSteps (CellMousedown 0 71 plainClick))) 0 1
  = layerAt twoSteps 0 1.
Proof.
  refine (proj1 (edits_stay_in_shown_layer twoSteps (CellMousedown 0 71 plainClick) 0 1 _ _)).
  - reflexivity.
  - by vm_compute.
Defined.

(** ** Meter inputs *)

Lemma findPattern_fmap (h : Pattern.t -> Pattern.t) (ps : list Pattern.t) (x : Z) :
  (forall p, Pattern.id (h p) = Pattern.id p) ->
  findPattern (h <$> ps) x = h <$> findPattern ps x.
Proof.
  intros Hh. unfold findPattern. induction ps as [|p ps IH]; [done|].
  rewrite fmap_cons. cbn [List.find]. rewrite Hh. by destruct (Pattern.id p =? x).
Qed.

Lemma zlookup_fmap {A B : Type} (f : A -> B) (l : list A) (i : Z) :
  zlookup (f <$> l) i = f <$> zlookup l i.
Proof. unfold zlookup. destruct (i <? 0); [done|]. apply list_lookup_fmap. Qed.

Lemma resizeLayer_fit (n : Z) (layer : list Step) :
  zlength layer = n -> resizeLayer n layer = layer.
Proof. intros <-. unfold resizeLayer. by rewrite Z.eqb_refl. Qed.

Lemma meter_write (g : Pattern.t -> Pattern.t) (st : State) :
  (forall p, Pattern.id (g p) = Pattern.id p) ->
  (forall p, Pattern.layers (g p) = Pattern.layers p) ->
  SessionOk st ->
  exists p,
    findPattern (patterns st) (displayedPatternId st) = Some p
    /\ stepsPerPattern (resizeEffect (writeMeter g st)) (displayedPatternId st)
       = patternSteps (g p)
    /\ (forall x, x <> displayedPatternId st ->
          stepsPerPattern (resizeEffect (writeMeter g st)) x = stepsPerPattern st x
          /\ forall j, layerAt (resizeEffect (writeMeter g st)) x j = layerAt st x j)
    /\ (forall j, layerAt (resizeEffect (writeMeter g st)) (displayedPatternId st) j
                  = resizeLayer (patternSteps (g p)) <$> layerAt st (displayedPatternId st) j).
Proof.
  intros Hgid Hgl Hok. pose proof Hok as (Hids & Hps & Hseq & _).
  set (d := displayedPatternId st).
  destruct (SessionOk_findPattern st d Hok (displayedPatternId_valid st Hseq))
    as (p & Hfind & Hpid & _ & _).
  set (st1 := writeMeter g st).
  assert (Hfind1 : forall x, findPattern (patterns st1) x
                             = if decide (x = d) then Some (g p) else findPattern (patterns st) x).
  { intros x. unfold st1, writeMeter. cbn [patterns set_patterns]. fold d.
    rewrite findPattern_updateFirst_id by (intros q Hq; by rewrite Hgid).
    by rewrite Hfind. }
  assert (Hsteps1 : forall x, stepsPerPattern st1 x
                              = if decide (x = d) then patternSteps (g p)
                                else stepsPerPattern st x).
  { intros x. unfold stepsPerPattern. rewrite Hfind1. by destruct (decide (x = d)). }
  assert (Hfind' : forall x, findPattern (patterns (resizeEffect st1)) x
             = (fun pattern => withLayers
                  (fmap (resizeLayer (stepsPerPattern st1 (Pattern.id pattern)))) pattern)
               <$> findPattern (patterns st1) x).
  { intros x. unfold resizeEffect. cbn [patterns set_patterns]. by apply findPattern_fmap. }
  exists p. split; [done|]. split_and!.
  - rewrite resizeEffect_steps, Hsteps1. by rewrite decide_True.
  - intros x Hx. split; [by rewrite resizeEffect_steps, Hsteps1, decide_False|].
    intros j. unfold layerAt. rewrite Hfind', Hfind1, decide_False by done.
    destruct (findPattern (patterns st) x) as [q|] eqn:Hq; [|done].
    cbn [fmap option_fmap option_map withLayers Pattern.layers].
    destruct (findPattern_id _ _ _ Hq) as [Hqid Hqin].
    rewrite zlookup_fmap. destruct (zlookup (Pattern.layers q) j) as [layer|] eqn:Hl; [|done].
    cbn [fmap option_fmap option_map]. f_equal. apply resizeLayer_fit.
    rewrite Hqid, Hsteps1, decide_False by done. rewrite <- Hqid.
    rewrite (SessionOk_steps st q Hids Hqin).
    destruct (proj1 (Forall_forall _ _) Hps q Hqin) as [_ Hall].
    apply zlookup_Some in Hl as [_ Hl]. apply list_elem_of_lookup_2 in Hl.
    by destruct (proj1 (Forall_forall _ _) Hall layer Hl).
  - intros j. unfold layerAt. rewrite Hfind', Hfind1, decide_True, Hfind by done.
    cbn [fmap option_fmap option_map withLayers Pattern.layers].
    rewrite zlookup_fmap, Hgl, Hgid, Hpid, Hsteps1, decide_True by done. done.
Qed.

(** X28: typing into a meter field of the displayed pattern re-times that
    pattern and no other: its step count becomes the product of the
    clamped fields, its layers are cut or padded to that count with the
    notes of the steps that remain kept, and every other pattern keeps its
    step count and its layers. *)
Theorem meter_input (st : State) (value : JsNum) (Hok : SessionOk st) :
  exists p st1 st2,
    findPattern (patterns st) (displayedPatternId st) = Some p
    /\ dispatch st (InputStepsPerBeat value) = Returned st1
    /\ dispatch st (InputBeatsPerMeasure value) = Returned st2
    /\ stepsPerPattern st1 (displayedPatternId st)
       = clampBeatsPerMeasure (Pattern.beatsPerMeasure p) * clampStepsPerBeat value
    /\ stepsPerPattern st2 (displayedPatternId st)
       = clampBeatsPerMeasure value * clampStepsPerBeat (Pattern.stepsPerBeat p)
    /\ forall st', st' = st1 \/ st' = st2 ->
         (forall x, x <> displayedPatternId st ->
            stepsPerPattern st' x = stepsPerPattern st x
            /\ forall j, layerAt st' x j = layerAt st x j)
         /\ (forall j layer, layerAt st (displayedPatternId st) j = Some layer ->
               exists layer',
                 layerAt st' (displayedPatternId st) j = Some layer'
                 /\ zlength layer' = stepsPerPattern st' (displayedPatternId st)
                 /\ forall c, cellActive layer' c
                              = cellActive layer c
                                && (c.1 <? stepsPerPattern st' (displayedPatternId st))).
Proof.
  destruct (meter_write (withStepsPerBeat value) st) as (p & Hfind & Hs1 & Ho1 & Hd1); try done.
  destruct (meter_write (withBeatsPerMeasure value) st) as (p' & Hfind' & Hs2 & Ho2 & Hd2);
    try done.
  assert (p' = p) as -> by congruence.
  exists p. eexists. eexists. split; [done|]. split; [reflexivity|]. split; [reflexivity|].
  split; [exact Hs1|]. split; [exact Hs2|].
  assert (Hgen : forall st' n,
            stepsPerPattern st' (displayedPatternId st) = n -> 1 <= n ->
            (forall j, layerAt st' (displayedPatternId st) j
                       = resizeLayer n <$> layerAt st (displayedPatternId st) j) ->
            forall j layer, layerAt st (displayedPatternId st) j = Some layer ->
              exists layer',
                layerAt st' (displayedPatternId st) j = Some layer'
                /\ zlength layer' = stepsPerPattern st' (displayedPatternId st)
                /\ forall c, cellActive layer' c
                             = cellActive layer c
                               && (c.1 <? stepsPerPattern st' (displayedPatternId st))).
  { intros st' n Hn Hpos Hl j layer Hj. exists (resizeLayer n layer).
    rewrite Hl, Hj, Hn. split; [done|].
    split; [by destruct (resizeLayer_spec n layer) as [? _]; [lia|]|].
    intros c. apply cellActive_resizeLayer. lia. }
  intros st' [-> | ->]; (split; [done|]).
  - apply (Hgen _ _ Hs1); [|done]. rewrite <- Hs1. apply stepsPerPattern_pos.
  - apply (Hgen _ _ Hs2); [|done]. rewrite <- Hs2. apply stepsPerPattern_pos.
Qed.

Lemma meter_input_witness :
  exists st1,
    dispatch reset (InputStepsPerBeat (ofInt 2)) = Returned st1
    /\ stepsPerPattern st1 (displayedPatternId reset) = 8.
Proof.
  destruct (meter_input reset (ofInt 2) SessionOk_reset)
    as (p & st1 & st2 & Hfind & H1 & _ & Hs & _).
  exists st1. split; [exact H1|]. rewrite Hs.
  assert (Hp : Some p = Some (createPattern 0 (ofInt 4) (ofInt 4)))
    by (rewrite <- Hfind; reflexivity).
  injection Hp as ->. reflexivity.
Defined.

(** ** What a step plays, layer by layer *)

Lemma playLayers_plain (now stepDur : Q) (layers : list (list Step)) (k : Z)
    (rest : list Synth.t) (j : Z) (a : Audio) :
  Forall (fun y => Synth.legatoSameNote y = false) rest ->
  Forall (fun layer => wfLayerb layer = true /\ 0 <= k < zlength layer) layers ->
  0 <= j -> j + zlength rest = zlength layers ->
  exists a',
    playLayers now stepDur layers k j rest a = Returned a'
    /\ startedNotes (audioLog a')
       = startedNotes (audioLog a)
         ++ flat_map (fun layer => notesOfStep layer k) (drop (Z.to_nat j) layers)
    /\ activeNotes a' = activeNotes a.
Proof.
  intros Hplain Hlayers. revert j a.
  induction Hplain as [|synth rest Hsynth Hrest IH]; intros j a Hj Hlen.
  - exists a. split; [done|]. rewrite drop_ge by (unfold zlength in *; cbn in Hlen; lia).
    cbn [flat_map]. by rewrite app_nil_r.
  - assert (Hjl : 0 <= j < zlength layers).
    { unfold zlength in *. cbn [length] in Hlen. lia. }
    destruct (proj2 (zlookup_is_Some layers j) Hjl) as [layer Hlayer].
    destruct (Forall_zlookup _ _ _ _ Hlayers Hlayer) as [Hwf Hk].
    destruct (proj2 (zlookup_is_Some layer k) Hk) as [s Hs].
    cbn [playLayers]. rewrite Hlayer. destruct (Z.leb_spec (zlength layer) k); [lia|].
    rewrite Hs, Hsynth.
    pose proof (wfLayerb_lookup layer k s Hwf Hs) as Hwfs.
    apply wfStepb_spec in Hwfs as [Halen _].
    destruct (playPitches_fold now (stepDur * (9 / 10))%Q synth (pitches s)
                (seqZ 0 (alen (pitches s))) a Hsynth) as (H1 & _ & H3 & _).
    fold (playPitches now (stepDur * (9 / 10))%Q synth (pitches s) a) in H1, H3.
    destruct (IH (j + 1) (playPitches now (stepDur * (9 / 10))%Q synth (pitches s) a))
      as (a' & Hrun & Hlog & Hact); [lia| |].
    { unfold zlength in *. cbn [length] in Hlen. lia. }
    exists a'. split; [exact Hrun|]. split; [|by rewrite Hact].
    rewrite Hlog, H1, Halen.
    apply zlookup_Some in Hlayer as [_ Hlayer].
    rewrite (drop_S layers layer (Z.to_nat j) Hlayer).
    replace (Z.to_nat (j + 1)) with (S (Z.to_nat j)) by lia.
    cbn [flat_map]. unfold notesOfStep at 2. rewrite Hs. by rewrite <- app_assoc.
Qed.

(** X29: in a well-formed session whose synths do not use legato, playing
    a step of the loop starts exactly the active notes under that step:
    the step is located in the sequence, its pattern is in the store, and
    the oscillators started are those of the active slots of that step in
    the pattern's layers, layer by layer in slot order; the registry and
    everything the editor shows stay as they are. *)
Theorem playStep_starts_notes (st : State) (now : Q) (g : Z)
    (Hok : SessionOk st)
    (Hplain : Forall (fun y => Synth.legatoSameNote y = false) (synths st))
    (Hg : 0 <= g < totalSteps st) :
  exists st' at_ p,
    playStep now (Int g) st = Returned st'
    /\ getPatternAtStep st g = Some at_
    /\ findPattern (patterns st) (patternId at_) = Some p
    /\ startedNotes (audioLog (audio st'))
       = startedNotes (audioLog (audio st))
         ++ flat_map (fun layer => notesOfStep layer (stepInPattern at_)) (Pattern.layers p)
    /\ activeNotes (audio st') = activeNotes (audio st)
    /\ editorView st' = editorView st.
Proof.
  pose proof Hok as (_ & _ & Hseq & Hsyn & _).
  pose proof (getPatternAtStep_spec st g (proj1 Hg)) as Hspec.
  destruct (getPatternAtStep st g) as [at_|] eqn:Hat; [|lia].
  destruct Hspec as (Hentry & _ & Hlocal & _).
  pose proof (Forall_zlookup _ _ _ _ Hseq Hentry) as Hvalid.
  destruct (SessionOk_findPattern st _ Hok Hvalid) as (p & Hfind & _ & [Hlen Hall] & Hsteps).
  destruct (playLayers_plain now (stepDurationSeconds st) (Pattern.layers p)
              (stepInPattern at_) (synths st) 0 (audio st) Hplain) as (a' & Hrun & Hlog & Hact).
  - eapply Forall_impl; [exact Hall|]. intros layer [Hwf Hl]. split; [done|].
    rewrite Hl, <- Hsteps. lia.
  - lia.
  - unfold zlength in *. lia.
  - exists (set_audio a' st), at_, p.
    split. { unfold playStep. cbn [getPatternAtStepJs]. rewrite Hat, Hfind, Hrun. done. }
    split; [done|]. split; [done|]. split; [exact Hlog|]. split; [exact Hact|done].
Qed.

Lemma playStep_starts_notes_witness :
  exists st',
    playStep 0 (Int 0) reset = Returned st'
    /\ activeNotes (audio st') = activeNotes (audio reset).
Proof.
  destruct (playStep_starts_notes reset 0 0 SessionOk_reset)
    as (st' & at_ & p & H1 & _ & _ & _ & H2 & _).
  - repeat constructor.
  - by vm_compute.
  - by exists st'.
Defined.

(** ** The grid follows the playhead *)



(** ** Writes outside the grid, event by event *)











